(** * tasks-frontend: the validation layer, the per-user store and the
    endpoint handlers, embedded from [src/lib/validation.ts],
    [src/lib/dataStore.ts] and the [app/api/**/route.ts] files, with the
    state updaters of [src/hooks/useApiTodos.ts] and the decision of
    [middleware.ts]. *)

From Stdlib Require Import Ascii ZArith Lia.
From Stdlib Require String.
From stdpp Require Import base option list gmap pretty strings.

(** ** JavaScript strings

    A string is a sequence of code units.  The model keeps the code units
    0..255 (one [ascii] each), which covers every character the patterns of
    [validation.ts] name. *)

Module Js.

Definition chars (s : string) : list ascii := String.list_ascii_of_string s.
Definition str (l : list ascii) : string := String.string_of_list_ascii l.

Definition code (c : ascii) : N := N_of_ascii c.

Definition in_range (lo hi : N) (c : ascii) : bool :=
  ((lo <=? code c) && (code c <=? hi))%N.

Definition is_char (a c : ascii) : bool := (code a =? code c)%N.

Definition is_digit : ascii -> bool := in_range 48 57.
Definition is_upper : ascii -> bool := in_range 65 90.
Definition is_lower : ascii -> bool := in_range 97 122.

(** [\w] : [A-Za-z0-9_]. *)
Definition is_word (c : ascii) : bool :=
  is_digit c || is_upper c || is_lower c || (code c =? 95)%N.

(** [\s] and the characters [String.prototype.trim] strips: TAB, LF, VT, FF,
    CR, SP and NBSP are the ones below code unit 256. *)
Definition is_space (c : ascii) : bool :=
  in_range 9 13 c || (code c =? 32)%N || (code c =? 160)%N.

(** Canonicalisation of the [i] flag: [a-z] fold to [A-Z]; no code unit
    above 127 folds to one below 128. *)
Definition upcase (c : ascii) : ascii :=
  if is_lower c then ascii_of_N (code c - 32) else c.

Definition is_char_ci (a c : ascii) : bool := (code (upcase a) =? code (upcase c))%N.

(** [s.trim()] *)
Fixpoint drop_space (l : list ascii) : list ascii :=
  match l with
  | c :: l' => if is_space c then drop_space l' else l
  | [] => []
  end.

Definition trim_chars (l : list ascii) : list ascii :=
  rev (drop_space (rev (drop_space l))).

Definition trim (s : string) : string := str (trim_chars (chars s)).

(** [s.slice(0, n)] for a non-negative [n]. *)
Definition slice0 (n : nat) (s : string) : string := str (take n (chars s)).

Definition strlen (s : string) : nat := length (chars s).

(** [parts.join(sep)] *)
Fixpoint join (sep : string) (parts : list string) : string :=
  match parts with
  | [] => ""
  | [p] => p
  | p :: ps => p +:+ sep +:+ join sep ps
  end.

End Js.

(** ** Regular expressions, with the backtracking semantics of ECMAScript *)

Module Regex.
Import Js.

Inductive regex : Type :=
| Rchar (p : ascii -> bool)        (* one character of a class *)
| Rseq (r1 r2 : regex)             (* r1 r2 *)
| Rstar (r : regex)                (* r*   (greedy) *)
| Ropt (r : regex)                 (* r?   (greedy) *)
| Rnot_ahead (r : regex)           (* (?!r) *)
| Rword_boundary                   (* \b *)
| Rbegin                           (* ^  (no m flag) *)
| Rend                             (* $  (no m flag) *)
| Reps.

Definition Rplus (r : regex) : regex := Rseq r (Rstar r).

Fixpoint Rrep (n : nat) (r : regex) : regex :=
  match n with
  | 0 => Reps
  | S n' => Rseq r (Rrep n' r)
  end.

Fixpoint Rseqs (rs : list regex) : regex :=
  match rs with
  | [] => Reps
  | [r] => r
  | r :: rs' => Rseq r (Rseqs rs')
  end.

(** A literal, case-sensitive or under the [i] flag. *)
Definition Rlit (s : string) : regex := Rseqs (map (fun a => Rchar (is_char a)) (chars s)).
Definition Rlit_ci (s : string) : regex := Rseqs (map (fun a => Rchar (is_char_ci a)) (chars s)).

Definition word_at (c : option ascii) : bool :=
  match c with Some a => is_word a | None => false end.

(** A position is the character before it (for [\b] and [^]) and the input
    that remains.  A continuation receives the position after a sub-match and
    yields the input left after the whole match, or fails. *)
Definition cont : Type := option ascii -> list ascii -> option (list ascii).

Fixpoint rmatch (r : regex) (prev : option ascii) (l : list ascii) (k : cont)
  {struct r} : option (list ascii) :=
  match r with
  | Rchar p =>
      match l with
      | c :: l' => if p c then k (Some c) l' else None
      | [] => None
      end
  | Rseq r1 r2 => rmatch r1 prev l (fun prev' l' => rmatch r2 prev' l' k)
  | Rstar r' =>
      (fix star (n : nat) (prev : option ascii) (l : list ascii) {struct n} :=
         match n with
         | 0 => k prev l
         | S n' =>
             match rmatch r' prev l
                     (fun prev' l' =>
                        if length l' <? length l then star n' prev' l' else None) with
             | Some rest => Some rest
             | None => k prev l
             end
         end) (length l) prev l
  | Ropt r' =>
      match rmatch r' prev l
              (fun prev' l' => if length l' <? length l then k prev' l' else None) with
      | Some rest => Some rest
      | None => k prev l
      end
  | Rnot_ahead r' =>
      match rmatch r' prev l (fun _ l' => Some l') with
      | Some _ => None
      | None => k prev l
      end
  | Rword_boundary =>
      if xorb (word_at prev) (word_at (head l)) then k prev l else None
  | Rbegin => match prev with None => k prev l | Some _ => None end
  | Rend => match l with [] => k prev l | _ :: _ => None end
  | Reps => k prev l
  end.

(** The match of [r] that starts exactly here: the input left after it. *)
Definition match_here (r : regex) (prev : option ascii) (l : list ascii)
  : option (list ascii) :=
  rmatch r prev l (fun _ rest => Some rest).

(** [r.test(s)]: is there a match starting at some position. *)
Fixpoint search (r : regex) (prev : option ascii) (l : list ascii) : bool :=
  match match_here r prev l with
  | Some _ => true
  | None =>
      match l with
      | [] => false
      | c :: l' => search r (Some c) l'
      end
  end.

Definition test (r : regex) (s : string) : bool := search r None (chars s).

(** [s.replace(r, "")] with the [g] flag: every match, leftmost first and
    none overlapping, is removed.  [skip] counts the characters of the current
    match still to drop. *)
Fixpoint remove_go (r : regex) (skip : nat) (prev : option ascii) (l : list ascii)
  : list ascii :=
  match l with
  | [] => []
  | c :: l' =>
      match skip with
      | S n => remove_go r n (Some c) l'
      | 0 =>
          match match_here r prev l with
          | Some rest =>
              match length l - length rest with
              | S n => remove_go r n (Some c) l'
              | 0 => c :: remove_go r 0 (Some c) l'
              end
          | None => c :: remove_go r 0 (Some c) l'
          end
      end
  end.

Definition remove_all (r : regex) (s : string) : string :=
  str (remove_go r 0 None (chars s)).

End Regex.

(** ** The values the endpoints receive

    [request.json()] yields a JSON value.  A number is kept as what
    [ToIntegerOrInfinity] makes of it: the only place the source reads a number
    is [Array.prototype.splice], which starts with that conversion. *)

Inductive number : Type :=
| Fin (z : Z)
| PosInfinity
| NegInfinity.

Local Unset Elimination Schemes.
Inductive JSON : Type :=
| JNull
| JBool (b : bool)
| JNumber (n : number)
| JString (s : string)
| JArray (xs : list JSON)
| JObject (fields : list (string * JSON)).
Local Set Elimination Schemes.

Module Json.

(** [v && typeof v === "object"] *)
Definition is_object (v : JSON) : bool :=
  match v with
  | JArray _ | JObject _ => true
  | _ => false
  end.

Fixpoint assoc (key : string) (fields : list (string * JSON)) : option JSON :=
  match fields with
  | [] => None
  | (k, v) :: rest => if String.eqb k key then Some v else assoc key rest
  end.

(** [v.key]; [None] is [undefined].  None of the keys the source reads is a
    property of an array or of a prototype. *)
Definition get (v : JSON) (key : string) : option JSON :=
  match v with
  | JObject fields => assoc key fields
  | _ => None
  end.

(** [key in v] *)
Definition has (v : JSON) (key : string) : bool :=
  match get v key with Some _ => true | None => false end.

End Json.

(** ** The domain entities ([@/types]) *)

Record Todo : Type := mkTodo {
  id : string;
  title : string;
  completed : bool;
  categoryId : option string;     (* string | null *)
  tags : list string;
  createdAt : string;
  updatedAt : string
}.

Record Category : Type := mkCategory {
  cat_id : string;
  cat_name : string;
  cat_icon : string;
  cat_color : string
}.

Record Tag : Type := mkTag {
  tag_id : string;
  tag_name : string;
  tag_color : string
}.

(** [Partial<Todo>]: an absent field is [None]. *)
Record PartialTodo : Type := mkPartial {
  p_id : option string;
  p_title : option string;
  p_completed : option bool;
  p_categoryId : option (option string);
  p_tags : option (list string);
  p_createdAt : option string;
  p_updatedAt : option string
}.

Record TodoState : Type := mkTodoState {
  st_todos : list Todo;
  st_categories : list Category;
  st_tags : list Tag
}.

(** ** [src/lib/validation.ts] *)

Module Validation.
Import Js Regex.

Definition MAX_TITLE_LENGTH : nat := 500.
Definition MAX_NAME_LENGTH : nat := 100.
Definition MAX_ICON_LENGTH : nat := 50.
Definition MAX_ID_LENGTH : nat := 100.
Definition MAX_TODOS : nat := 100 * 100.   (* 10000 *)
Definition MAX_CATEGORIES : nat := 100.
Definition MAX_TAGS : nat := 100.
Definition MAX_TAGS_PER_TODO : nat := 20.

Definition hex_digit (c : ascii) : bool :=
  is_digit c || in_range 65 70 c || in_range 97 102 c.

Definition safe_id_char (c : ascii) : bool :=
  is_lower c || is_upper c || is_digit c || is_char "_" c || is_char "-" c.

Definition not_lt (c : ascii) : bool := negb (is_char "<" c).

(** [/^#[0-9A-Fa-f]{6}$/] *)
Definition HEX_COLOR_REGEX : regex :=
  Rseqs [Rbegin; Rlit "#"; Rrep 6 (Rchar hex_digit); Rend].

(** [/^[a-zA-Z0-9_-]+$/] *)
Definition SAFE_ID_REGEX : regex :=
  Rseqs [Rbegin; Rplus (Rchar safe_id_char); Rend].

(** [/^\d{4}-\d{2}-\d{2}T\d{2}:\d{2}:\d{2}(\.\d{3})?Z$/] *)
Definition ISO_DATE_REGEX : regex :=
  Rseqs [Rbegin;
         Rrep 4 (Rchar is_digit); Rlit "-"; Rrep 2 (Rchar is_digit); Rlit "-";
         Rrep 2 (Rchar is_digit); Rlit "T";
         Rrep 2 (Rchar is_digit); Rlit ":"; Rrep 2 (Rchar is_digit); Rlit ":";
         Rrep 2 (Rchar is_digit);
         Ropt (Rseq (Rlit ".") (Rrep 3 (Rchar is_digit)));
         Rlit "Z"; Rend].

(** [/^[0-9a-f]{8}-[0-9a-f]{4}-[1-5][0-9a-f]{3}-[89ab][0-9a-f]{3}-[0-9a-f]{12}$/i];
    under [i] the class [[0-9a-f]] takes both cases. *)
Definition uuidRegex : regex :=
  Rseqs [Rbegin;
         Rrep 8 (Rchar hex_digit); Rlit "-"; Rrep 4 (Rchar hex_digit); Rlit "-";
         Rchar (in_range 49 53); Rrep 3 (Rchar hex_digit); Rlit "-";
         Rchar (fun c => is_char "8" c || is_char "9" c
                         || is_char_ci "a" c || is_char_ci "b" c);
         Rrep 3 (Rchar hex_digit); Rlit "-";
         Rrep 12 (Rchar hex_digit); Rend].

(** The script-block pattern of [sanitizeString], flags [gi]; with blanks
    between its parts it reads
    [<script \b [^<]* (?: (?!<\/script>) < [^<]* )* <\/script>]. *)
Definition SCRIPT_REGEX : regex :=
  Rseqs [Rlit_ci "<script"; Rword_boundary; Rstar (Rchar not_lt);
         Rstar (Rseqs [Rnot_ahead (Rlit_ci "</script>"); Rlit "<"; Rstar (Rchar not_lt)]);
         Rlit_ci "</script>"].

(** The event-handler pattern of [sanitizeString], flags [gi]:
    [on \w+ \s* =]. *)
Definition HANDLER_REGEX : regex :=
  Rseqs [Rlit_ci "on"; Rplus (Rchar is_word); Rstar (Rchar is_space); Rlit "="].

Record ValidationResult (T : Type) : Type := mkResult {
  valid : bool;
  data : option T;
  errors : list string
}.
Arguments mkResult {T} _ _ _.
Arguments valid {T} _.
Arguments data {T} _.
Arguments errors {T} _.

(** [sanitizeString(input, maxLength)]; the result [None] is [null]. *)
Definition sanitizeString (input : option JSON) (maxLength : nat) : option string :=
  match input with
  | Some (JString s) =>
      let sanitized := slice0 maxLength (trim s) in
      Some (remove_all HANDLER_REGEX (remove_all SCRIPT_REGEX sanitized))
  | _ => None
  end.

Definition isValidUUID (s : string) : bool := test uuidRegex s.

Definition validateId (v : option JSON) : option string :=
  match v with
  | Some (JString s) =>
      let sanitized := slice0 MAX_ID_LENGTH (trim s) in
      if negb (test SAFE_ID_REGEX sanitized) && negb (isValidUUID sanitized)
      then None
      else Some sanitized
  | _ => None
  end.

Definition validateColor (color : option JSON) : option string :=
  match color with
  | Some (JString s) =>
      let trimmed := trim s in
      if negb (test HEX_COLOR_REGEX trimmed) then None else Some trimmed
  | _ => None
  end.


Definition is_array (v : option JSON) : option (list JSON) :=
  match v with
  | Some (JArray xs) => Some xs
  | _ => None
  end.

(** [arr.slice(0, MAX_TAGS_PER_TODO).map(validateId).filter(tag => tag !== null)] *)
Definition validTagIds (xs : list JSON) : list string :=
  omap (fun tag => validateId (Some tag)) (take MAX_TAGS_PER_TODO xs).

(** [!s || s.length === 0] for [s : string | null] *)
Definition missing (s : option string) : bool :=
  match s with
  | Some s => Nat.eqb (strlen s) 0
  | None => true
  end.

(** [a || b] for [a : string | null] *)
Definition or_else (a : option string) (b : string) : string :=
  match a with
  | Some s => if Nat.eqb (strlen s) 0 then b else s
  | None => b
  end.

Section WithDate.

(** [new Date(s)] followed by [toISOString()], [None] when the time value is
    [NaN].  What [Date] accepts beyond the ISO format is left to the engine. *)
Variable Date_parse : string -> option string.

Definition validateISODate (date : option JSON) : option string :=
  match date with
  | Some (JString s) =>
      let trimmed := trim s in
      if negb (test ISO_DATE_REGEX trimmed)
      then Date_parse trimmed
      else Some trimmed
  | _ => None
  end.

(** [validateTodo(todo)]; [now] is [new Date().toISOString()]. *)
Definition validateTodo (now : string) (todo : JSON) : ValidationResult Todo :=
  if negb (Json.is_object todo)
  then mkResult false None ["Todo must be an object"]
  else
    let t := todo in
    let id := validateId (Json.get t "id") in
    let errors1 := if missing id then ["Invalid or missing todo ID"] else [] in
    let title := sanitizeString (Json.get t "title") MAX_TITLE_LENGTH in
    let errors2 := if missing title then ["Invalid or missing todo title"] else [] in
    let completed :=
      match Json.get t "completed" with Some (JBool b) => b | _ => false end in
    let '(categoryId, errors3) :=
      match Json.get t "categoryId" with
      | None | Some JNull => (None, [])
      | Some c =>
          match validateId (Some c) with
          | Some cid => (Some cid, [])
          | None => (None, ["Invalid category ID format"])
          end
      end in
    let tags :=
      match is_array (Json.get t "tags") with
      | Some xs => validTagIds xs
      | None => []
      end in
    let createdAt := or_else (validateISODate (Json.get t "createdAt")) now in
    let updatedAt := or_else (validateISODate (Json.get t "updatedAt")) now in
    let errors := errors1 ++ errors2 ++ errors3 in
    match errors with
    | _ :: _ => mkResult false None errors
    | [] =>
        mkResult true
          (Some (mkTodo (default "" id) (default "" title) completed categoryId tags
                        createdAt updatedAt))
          []
    end.

Definition validateCategory (category : JSON) : ValidationResult Category :=
  if negb (Json.is_object category)
  then mkResult false None ["Category must be an object"]
  else
    let c := category in
    let id := validateId (Json.get c "id") in
    let errors1 := if missing id then ["Invalid or missing category ID"] else [] in
    let name := sanitizeString (Json.get c "name") MAX_NAME_LENGTH in
    let errors2 := if missing name then ["Invalid or missing category name"] else [] in
    let icon := sanitizeString (Json.get c "icon") MAX_ICON_LENGTH in
    let errors3 := if missing icon then ["Invalid or missing category icon"] else [] in
    let color := validateColor (Json.get c "color") in
    let errors4 :=
      if missing color
      then ["Invalid or missing category color (must be hex format #RRGGBB)"]
      else [] in
    let errors := errors1 ++ errors2 ++ errors3 ++ errors4 in
    match errors with
    | _ :: _ => mkResult false None errors
    | [] =>
        mkResult true
          (Some (mkCategory (default "" id) (default "" name) (default "" icon)
                            (default "" color)))
          []
    end.

Definition validateTag (tag : JSON) : ValidationResult Tag :=
  if negb (Json.is_object tag)
  then mkResult false None ["Tag must be an object"]
  else
    let t := tag in
    let id := validateId (Json.get t "id") in
    let errors1 := if missing id then ["Invalid or missing tag ID"] else [] in
    let name := sanitizeString (Json.get t "name") MAX_NAME_LENGTH in
    let errors2 := if missing name then ["Invalid or missing tag name"] else [] in
    let color := validateColor (Json.get t "color") in
    let errors3 :=
      if missing color
      then ["Invalid or missing tag color (must be hex format #RRGGBB)"]
      else [] in
    let errors := errors1 ++ errors2 ++ errors3 in
    match errors with
    | _ :: _ => mkResult false None errors
    | [] =>
        mkResult true
          (Some (mkTag (default "" id) (default "" name) (default "" color)))
          []
    end.

(** One of the three loops of [validateTodoState]: the accepted items in
    order, and one message per rejected item, naming its index. *)
Fixpoint validate_items {T : Type} (validate : JSON -> ValidationResult T)
  (label : string) (i : nat) (items : list JSON) : list T * list string :=
  match items with
  | [] => ([], [])
  | x :: rest =>
      let result := validate x in
      let '(accepted, messages) := validate_items validate label (S i) rest in
      match valid result, data result with
      | true, Some d => (d :: accepted, messages)
      | _, _ =>
          (accepted,
           (label +:+ " at index " +:+ pretty i +:+ ": " +:+ join ", " (errors result))
             :: messages)
      end
  end.

(** [v.slice(0, cap)] when [v] is an array, no item otherwise. *)
Definition capped (cap : nat) (v : option JSON) : list JSON :=
  match is_array v with
  | Some xs => take cap xs
  | None => []
  end.

(** The cross-validation step of [validateTodoState]. *)
Definition crossValidate (categoryIds tagIds : gset string) (todo : Todo) : Todo :=
  mkTodo (id todo) (title todo) (completed todo)
    (match categoryId todo with
     | Some c =>
         if negb (Nat.eqb (strlen c) 0) && bool_decide (c ∈ categoryIds)
         then Some c else None
     | None => None
     end)
    (filter (fun tagId => tagId ∈ tagIds) (tags todo))
    (createdAt todo) (updatedAt todo).

Definition validateTodoState (now : string) (state : JSON) : ValidationResult TodoState :=
  if negb (Json.is_object state)
  then mkResult false None ["State must be an object"]
  else
    let s := state in
    let '(validTodos, errors1) :=
      validate_items (validateTodo now) "Todo" 0 (capped MAX_TODOS (Json.get s "todos")) in
    let '(validCategories, errors2) :=
      validate_items validateCategory "Category" 0
        (capped MAX_CATEGORIES (Json.get s "categories")) in
    let '(validTags, errors3) :=
      validate_items validateTag "Tag" 0 (capped MAX_TAGS (Json.get s "tags")) in
    let categoryIds : gset string := list_to_set (map cat_id validCategories) in
    let tagIds : gset string := list_to_set (map tag_id validTags) in
    let crossValidatedTodos := map (crossValidate categoryIds tagIds) validTodos in
    mkResult true
      (Some (mkTodoState crossValidatedTodos validCategories validTags))
      (errors1 ++ errors2 ++ errors3).

End WithDate.

(** [validateNewTodoInput]: title, category and tags of a todo to create. *)
Definition validateNewTodoInput (input : JSON)
  : ValidationResult (string * option string * list string) :=
  if negb (Json.is_object input)
  then mkResult false None ["Input must be an object"]
  else
    let i := input in
    let title := sanitizeString (Json.get i "title") MAX_TITLE_LENGTH in
    let errors :=
      if missing title then ["Title is required and must be a non-empty string"] else [] in
    let categoryId :=
      match Json.get i "categoryId" with
      | None | Some JNull => None
      | Some c => validateId (Some c)
      end in
    let tags :=
      match is_array (Json.get i "tags") with
      | Some xs => validTagIds xs
      | None => []
      end in
    match errors with
    | _ :: _ => mkResult false None errors
    | [] => mkResult true (Some (default "" title, categoryId, tags)) []
    end.

(** [validateUpdateTodoInput]: only the keys present in the input are set. *)
Definition validateUpdateTodoInput (input : JSON) : ValidationResult PartialTodo :=
  if negb (Json.is_object input)
  then mkResult false None ["Input must be an object"]
  else
    let i := input in
    let '(u_title, errors1) :=
      if Json.has i "title" then
        let title := sanitizeString (Json.get i "title") MAX_TITLE_LENGTH in
        if missing title then (None, ["Title must be a non-empty string"])
        else (title, [])
      else (None, []) in
    let '(u_completed, errors2) :=
      if Json.has i "completed" then
        match Json.get i "completed" with
        | Some (JBool b) => (Some b, [])
        | _ => (None, ["Completed must be a boolean"])
        end
      else (None, []) in
    let '(u_categoryId, errors3) :=
      if Json.has i "categoryId" then
        match Json.get i "categoryId" with
        | Some JNull => (Some None, [])
        | c =>
            match validateId c with
            | None => (None, ["Invalid category ID format"])
            | Some cid => (Some (Some cid), [])
            end
        end
      else (None, []) in
    let '(u_tags, errors4) :=
      if Json.has i "tags" then
        match is_array (Json.get i "tags") with
        | None => (None, ["Tags must be an array"])
        | Some xs => (Some (validTagIds xs), [])
        end
      else (None, []) in
    let errors := errors1 ++ errors2 ++ errors3 ++ errors4 in
    match errors with
    | _ :: _ => mkResult false None errors
    | [] =>
        mkResult true
          (Some (mkPartial None u_title u_completed u_categoryId u_tags None None)) []
    end.

(** [validateNewCategoryInput]: name, icon and color. *)
Definition validateNewCategoryInput (input : JSON)
  : ValidationResult (string * string * string) :=
  if negb (Json.is_object input)
  then mkResult false None ["Input must be an object"]
  else
    let i := input in
    let name := sanitizeString (Json.get i "name") MAX_NAME_LENGTH in
    let errors1 :=
      if missing name then ["Name is required and must be a non-empty string"] else [] in
    let icon := sanitizeString (Json.get i "icon") MAX_ICON_LENGTH in
    let errors2 :=
      if missing icon then ["Icon is required and must be a non-empty string"] else [] in
    let color := validateColor (Json.get i "color") in
    let errors3 :=
      if missing color
      then ["Color is required and must be in hex format (#RRGGBB)"] else [] in
    let errors := errors1 ++ errors2 ++ errors3 in
    match errors with
    | _ :: _ => mkResult false None errors
    | [] => mkResult true (Some (default "" name, default "" icon, default "" color)) []
    end.

(** [validateNewTagInput]: name and color. *)
Definition validateNewTagInput (input : JSON) : ValidationResult (string * string) :=
  if negb (Json.is_object input)
  then mkResult false None ["Input must be an object"]
  else
    let i := input in
    let name := sanitizeString (Json.get i "name") MAX_NAME_LENGTH in
    let errors1 :=
      if missing name then ["Name is required and must be a non-empty string"] else [] in
    let color := validateColor (Json.get i "color") in
    let errors2 :=
      if missing color
      then ["Color is required and must be in hex format (#RRGGBB)"] else [] in
    let errors := errors1 ++ errors2 in
    match errors with
    | _ :: _ => mkResult false None errors
    | [] => mkResult true (Some (default "" name, default "" color)) []
    end.

End Validation.

(** ** [src/lib/dataStore.ts] *)

(** What a call does: it returns, or a [TypeError] escapes from it. *)
Inductive outcome (A : Type) : Type :=
| Returned (a : A)
| Threw.
Arguments Returned {A} _.
Arguments Threw {A}.

(** A user's record.  A position of the todo array holds a Todo or
    [undefined] ([None]): [reorderUserTodos] can store the latter. *)
Record UserData : Type := mkUserData {
  u_todos : list (option Todo);
  u_categories : list Category;
  u_tags : list Tag;
  u_migrated : bool
}.

(** [Partial<UserData>] *)
Record PartialUserData : Type := mkPartialUserData {
  pu_todos : option (list (option Todo));
  pu_categories : option (list Category);
  pu_tags : option (list Tag);
  pu_migrated : option bool
}.

(** A record all of whose positions hold a Todo, as the type [Todo[]] says. *)
Definition typed (ts : list Todo) (cs : list Category) (gs : list Tag) (m : bool)
  : UserData :=
  mkUserData (map Some ts) cs gs m.

Module JsArray.

(** The relative index of [splice], clamped into [0 .. len]. *)
Definition clamp (len : nat) (i : number) : nat :=
  match i with
  | Fin z => if (z <? 0)%Z then Z.to_nat (Z.max (Z.of_nat len + z) 0)
             else Z.to_nat (Z.min z (Z.of_nat len))
  | PosInfinity => len
  | NegInfinity => 0
  end.

(** [const [removed] = arr.splice(start, 1)]: the element taken out
    ([None] when there is none, or when it is [undefined]) and the array left. *)
Definition splice_out {A : Type} (start : number) (arr : list (option A))
  : option A * list (option A) :=
  let actualStart := clamp (length arr) start in
  (mjoin (arr !! actualStart), delete actualStart arr).

(** [arr.splice(start, 0, item)] *)
Definition splice_in {A : Type} (start : number) (item : A) (arr : list A) : list A :=
  let actualStart := clamp (length arr) start in
  take actualStart arr ++ item :: drop actualStart arr.

(** Reading a property of every element in turn: a [TypeError] at the first
    [undefined]. *)
Fixpoint elements {A : Type} (arr : list (option A)) : outcome (list A) :=
  match arr with
  | [] => Returned []
  | None :: _ => Threw
  | Some x :: rest =>
      match elements rest with
      | Returned xs => Returned (x :: xs)
      | Threw => Threw
      end
  end.

(** [arr.findIndex(p)] where [p] reads a property of its argument;
    [Returned None] is [-1]. *)
Fixpoint findIndex {A : Type} (p : A -> bool) (arr : list (option A))
  : outcome (option nat) :=
  match arr with
  | [] => Returned None
  | None :: _ => Threw
  | Some x :: rest =>
      if p x then Returned (Some 0)
      else match findIndex p rest with
           | Returned (Some i) => Returned (Some (S i))
           | Returned None => Returned None
           | Threw => Threw
           end
  end.

End JsArray.

Module Store.
Import JsArray.

(** What each operation does to the record of its user. *)
Module User.

Definition addUserTodo (todo : Todo) (d : UserData) : outcome Todo * UserData :=
  (Returned todo,
   mkUserData (Some todo :: u_todos d) (u_categories d) (u_tags d) (u_migrated d)).

(** [{ ...old, ...updates, updatedAt: now }] *)
Definition merge (old : Todo) (updates : PartialTodo) (now : string) : Todo :=
  mkTodo (default (id old) (p_id updates))
         (default (title old) (p_title updates))
         (default (completed old) (p_completed updates))
         (default (categoryId old) (p_categoryId updates))
         (default (tags old) (p_tags updates))
         (default (createdAt old) (p_createdAt updates))
         now.

Definition updateUserTodo (todoId : string) (updates : PartialTodo) (now : string)
  (d : UserData) : outcome (option Todo) * UserData :=
  match findIndex (fun t => String.eqb (id t) todoId) (u_todos d) with
  | Threw => (Threw, d)
  | Returned None => (Returned None, d)
  | Returned (Some todoIndex) =>
      match mjoin (u_todos d !! todoIndex) with
      | None => (Threw, d)
      | Some old =>
          let new := merge old updates now in
          (Returned (Some new),
           mkUserData (<[todoIndex := Some new]> (u_todos d))
                      (u_categories d) (u_tags d) (u_migrated d))
      end
  end.

Definition deleteUserTodo (todoId : string) (d : UserData) : outcome bool * UserData :=
  let initialLength := length (u_todos d) in
  match elements (u_todos d) with
  | Threw => (Threw, d)
  | Returned ts =>
      let kept := filter (fun t => id t ≠ todoId) ts in
      (Returned (length kept <? initialLength),
       mkUserData (map Some kept) (u_categories d) (u_tags d) (u_migrated d))
  end.

Definition reorderUserTodos (fromIndex toIndex : number) (d : UserData)
  : outcome (list (option Todo)) * UserData :=
  let '(removed, newTodos) := splice_out fromIndex (u_todos d) in
  let newTodos := splice_in toIndex removed newTodos in
  (Returned newTodos,
   mkUserData newTodos (u_categories d) (u_tags d) (u_migrated d)).

Definition addUserTag (tag : Tag) (d : UserData) : outcome Tag * UserData :=
  (Returned tag,
   mkUserData (u_todos d) (u_categories d) (u_tags d ++ [tag]) (u_migrated d)).

Definition addUserCategory (category : Category) (d : UserData)
  : outcome Category * UserData :=
  (Returned category,
   mkUserData (u_todos d) (u_categories d ++ [category]) (u_tags d) (u_migrated d)).

(** [todo.categoryId === categoryId ? { ...todo, categoryId: null } : todo] *)
Definition clearCategory (categoryId0 : string) (todo : Todo) : Todo :=
  match categoryId todo with
  | Some c =>
      if String.eqb c categoryId0
      then mkTodo (id todo) (title todo) (completed todo) None (tags todo)
                  (createdAt todo) (updatedAt todo)
      else todo
  | None => todo
  end.

Definition deleteUserCategory (categoryId0 : string) (d : UserData)
  : outcome bool * UserData :=
  let initialLength := length (u_categories d) in
  let categories' := filter (fun c => cat_id c ≠ categoryId0) (u_categories d) in
  let d1 := mkUserData (u_todos d) categories' (u_tags d) (u_migrated d) in
  match elements (u_todos d1) with
  | Threw => (Threw, d1)
  | Returned ts =>
      (Returned (length categories' <? initialLength),
       mkUserData (map Some (map (clearCategory categoryId0) ts))
                  categories' (u_tags d1) (u_migrated d1))
  end.

(** [{ ...todo, tags: todo.tags.filter((t) => t !== tagId) }] *)
Definition removeTag (tagId : string) (todo : Todo) : Todo :=
  mkTodo (id todo) (title todo) (completed todo) (categoryId todo)
         (filter (fun t => t ≠ tagId) (tags todo))
         (createdAt todo) (updatedAt todo).

Definition deleteUserTag (tagId : string) (d : UserData) : outcome bool * UserData :=
  let initialLength := length (u_tags d) in
  let tags' := filter (fun t => tag_id t ≠ tagId) (u_tags d) in
  let d1 := mkUserData (u_todos d) (u_categories d) tags' (u_migrated d) in
  match elements (u_todos d1) with
  | Threw => (Threw, d1)
  | Returned ts =>
      (Returned (length tags' <? initialLength),
       mkUserData (map Some (map (removeTag tagId) ts))
                  (u_categories d1) tags' (u_migrated d1))
  end.

Definition setUserMigrated (d : UserData) : outcome unit * UserData :=
  (Returned tt, mkUserData (u_todos d) (u_categories d) (u_tags d) true).

Definition importUserData (data : TodoState) (d : UserData)
  : outcome UserData * UserData :=
  let d' := mkUserData (map Some (st_todos data)) (st_categories data) (st_tags data) true in
  (Returned d', d').

End User.

Section WithDefaults.

(** [DEFAULT_CATEGORIES] and [DEFAULT_TAGS] of [@/types]. *)
Variable DEFAULT_CATEGORIES : list Category.
Variable DEFAULT_TAGS : list Tag.

Definition getDefaultUserData : UserData :=
  mkUserData [] DEFAULT_CATEGORIES DEFAULT_TAGS false.

(** The record [getUserData(userId)] hands out. *)
Definition user_data (userId : string) (store : gmap string UserData) : UserData :=
  default getDefaultUserData (store !! userId).

(** [getUserData]: the record is created on first access. *)
Definition getUserData (userId : string) (store : gmap string UserData)
  : UserData * gmap string UserData :=
  match store !! userId with
  | Some d => (d, store)
  | None => (getDefaultUserData, <[userId := getDefaultUserData]> store)
  end.

(** The shape of every operation below: fetch the record with [getUserData],
    run the body on it (the source mutates the record in place, so what the
    body did before a [TypeError] stays), and put it back. *)
Definition with_user {A : Type} (userId : string)
  (body : UserData -> outcome A * UserData) (store : gmap string UserData)
  : outcome A * gmap string UserData :=
  let '(d, store1) := getUserData userId store in
  let '(r, d') := body d in
  (r, <[userId := d']> store1).

Definition setUserData (userId : string) (data : PartialUserData)
  (store : gmap string UserData) : UserData * gmap string UserData :=
  let '(currentData, store1) := getUserData userId store in
  let newData :=
    mkUserData (default (u_todos currentData) (pu_todos data))
               (default (u_categories currentData) (pu_categories data))
               (default (u_tags currentData) (pu_tags data))
               (default (u_migrated currentData) (pu_migrated data)) in
  (newData, <[userId := newData]> store1).


(** The exported operations, on the process-wide map. *)

Definition getUserTodos (userId : string) (store : gmap string UserData) :=
  with_user userId (fun d => (Returned (u_todos d), d)) store.

Definition addUserTodo (userId : string) (todo : Todo) :=
  with_user userId (User.addUserTodo todo).

Definition updateUserTodo (userId todoId : string) (updates : PartialTodo) (now : string) :=
  with_user userId (User.updateUserTodo todoId updates now).

Definition deleteUserTodo (userId todoId : string) :=
  with_user userId (User.deleteUserTodo todoId).

Definition reorderUserTodos (userId : string) (fromIndex toIndex : number) :=
  with_user userId (User.reorderUserTodos fromIndex toIndex).

Definition getUserCategories (userId : string) (store : gmap string UserData) :=
  with_user userId (fun d => (Returned (u_categories d), d)) store.

Definition addUserCategory (userId : string) (category : Category) :=
  with_user userId (User.addUserCategory category).

Definition deleteUserCategory (userId categoryId0 : string) :=
  with_user userId (User.deleteUserCategory categoryId0).

Definition getUserTags (userId : string) (store : gmap string UserData) :=
  with_user userId (fun d => (Returned (u_tags d), d)) store.

Definition addUserTag (userId : string) (tag : Tag) :=
  with_user userId (User.addUserTag tag).

Definition deleteUserTag (userId tagId : string) :=
  with_user userId (User.deleteUserTag tagId).

Definition hasUserMigrated (userId : string) (store : gmap string UserData) :=
  with_user userId (fun d => (Returned (u_migrated d), d)) store.

Definition setUserMigrated (userId : string) :=
  with_user userId User.setUserMigrated.

Definition importUserData (userId : string) (data : TodoState) :=
  with_user userId (User.importUserData data).

End WithDefaults.

End Store.

(** ** The endpoint handlers ([app/api/**/route.ts]) *)

Module Api.
Import Validation Store.

Inductive Body : Type :=
| ErrorBody (error : string) (details : option (list string))
| AlreadyMigratedBody             (* { error: "Data already migrated", migrated: true } *)
| DataBody (todos : list (option Todo)) (categories : list Category)
           (tags : list Tag) (migrated : bool)
| TodosBody (todos : list (option Todo))
| TodoBody (todo : Todo)
| CategoriesBody (categories : list Category)
| CategoryBody (category : Category)
| TagsBody (tags : list Tag)
| TagBody (tag : Tag)
| SuccessBody                     (* { success: true } *)
| ImportedBody (todos categories tags : nat) (warnings : option (list string)).

(** [NextResponse.json(body, { status })], or an exception no handler
    catches. *)
Inductive Response : Type :=
| Reply (status : nat) (body : Body)
| Uncaught.

Inductive Call : Type :=
| GET_data
| POST_data (body : option JSON)          (* [None]: the body is not JSON *)
| GET_todos
| POST_todos (body : option JSON)
| GET_todo (id : string)
| PUT_todo (id : string) (body : option JSON)
| DELETE_todo (id : string)
| GET_categories
| POST_categories (body : option JSON)
| DELETE_category (id : string)
| GET_tags
| POST_tags (body : option JSON)
| DELETE_tag (id : string).

(** A request: the session's user id if there is one, the clock reading and
    the value [generateId()] yields while it is served, and the call. *)
Record Request : Type := mkRequest {
  session : option string;
  now : string;
  newId : string;
  call : Call
}.

(** [session?.user?.id] when it is truthy. *)
Definition user_of (session : option string) : option string :=
  match session with
  | Some u => if Nat.eqb (Js.strlen u) 0 then None else Some u
  | None => None
  end.

Definition unauthorized : Response := Reply 401 (ErrorBody "Unauthorized" None).

(** [body.action === "reorder"] *)
Definition is_reorder (body : JSON) : bool :=
  match Json.get body "action" with
  | Some (JString action) => String.eqb action "reorder"
  | _ => false
  end.

Section Handlers.

Variable Date_parse : string -> option string.
Variable DEFAULT_CATEGORIES : list Category.
Variable DEFAULT_TAGS : list Tag.

Abbreviation store := (gmap string UserData).
Abbreviation getUserData := (getUserData DEFAULT_CATEGORIES DEFAULT_TAGS).
Abbreviation with_user := (with_user DEFAULT_CATEGORIES DEFAULT_TAGS).

(** [api/data/route.ts] *)

Definition data_GET (userId : string) (s : store) : Response * store :=
  let '(userData, s1) := getUserData userId s in
  (Reply 200 (DataBody (u_todos userData) (u_categories userData)
                       (u_tags userData) (u_migrated userData)), s1).

Definition data_POST (userId now : string) (body : option JSON) (s : store)
  : Response * store :=
  match hasUserMigrated DEFAULT_CATEGORIES DEFAULT_TAGS userId s with
  | (Returned true, s1) => (Reply 400 AlreadyMigratedBody, s1)
  | (_, s1) =>
      match body with
      | None => (Reply 400 (ErrorBody "Invalid JSON data" None), s1)
      | Some body =>
          let validationResult := validateTodoState Date_parse now body in
          match data validationResult with
          | None =>
              (Reply 400 (ErrorBody "Invalid data format"
                                    (Some (errors validationResult))), s1)
          | Some payload =>
              match importUserData DEFAULT_CATEGORIES DEFAULT_TAGS userId payload s1 with
              | (Returned userData, s2) =>
                  (Reply 200
                     (ImportedBody (length (u_todos userData))
                                   (length (u_categories userData))
                                   (length (u_tags userData))
                                   (match errors validationResult with
                                    | [] => None
                                    | ws => Some ws
                                    end)), s2)
              | (Threw, s2) => (Reply 400 (ErrorBody "Invalid JSON data" None), s2)
              end
          end
      end
  end.

(** [api/todos/route.ts] *)

Definition todos_GET (userId : string) (s : store) : Response * store :=
  match getUserTodos DEFAULT_CATEGORIES DEFAULT_TAGS userId s with
  | (Returned todos, s1) => (Reply 200 (TodosBody todos), s1)
  | (Threw, s1) => (Uncaught, s1)
  end.

Definition todos_POST (userId now newId : string) (body : option JSON) (s : store)
  : Response * store :=
  let invalid := Reply 400 (ErrorBody "Invalid request body" None) in
  match body with
  | None | Some JNull => (invalid, s)
  | Some body =>
      if is_reorder body then
        match Json.get body "fromIndex", Json.get body "toIndex" with
        | Some (JNumber fromIndex), Some (JNumber toIndex) =>
            match reorderUserTodos DEFAULT_CATEGORIES DEFAULT_TAGS
                    userId fromIndex toIndex s with
            | (Returned todos, s1) => (Reply 200 (TodosBody todos), s1)
            | (Threw, s1) => (invalid, s1)
            end
        | _, _ => (Reply 400 (ErrorBody "Invalid reorder parameters" None), s)
        end
      else
        let validationResult := validateNewTodoInput body in
        match valid validationResult, data validationResult with
        | true, Some (title, categoryId, tags) =>
            let newTodo := mkTodo newId title false categoryId tags now now in
            match addUserTodo DEFAULT_CATEGORIES DEFAULT_TAGS userId newTodo s with
            | (Returned todo, s1) => (Reply 201 (TodoBody todo), s1)
            | (Threw, s1) => (invalid, s1)
            end
        | _, _ =>
            (Reply 400 (ErrorBody "Validation failed"
                                  (Some (errors validationResult))), s)
        end
  end.

(** [api/todos/[id]/route.ts] *)

Definition todo_GET (userId id0 : string) (s : store) : Response * store :=
  let '(userData, s1) := getUserData userId s in
  match JsArray.findIndex (fun t => String.eqb (id t) id0) (u_todos userData) with
  | Threw => (Uncaught, s1)
  | Returned None => (Reply 404 (ErrorBody "Todo not found" None), s1)
  | Returned (Some i) =>
      match mjoin (u_todos userData !! i) with
      | Some todo => (Reply 200 (TodoBody todo), s1)
      | None => (Reply 404 (ErrorBody "Todo not found" None), s1)
      end
  end.

Definition todo_PUT (userId now id0 : string) (body : option JSON) (s : store)
  : Response * store :=
  let invalid := Reply 400 (ErrorBody "Invalid request body" None) in
  match body with
  | None => (invalid, s)
  | Some body =>
      let validationResult := validateUpdateTodoInput body in
      match valid validationResult, data validationResult with
      | true, Some updates =>
          match updateUserTodo DEFAULT_CATEGORIES DEFAULT_TAGS
                  userId id0 updates now s with
          | (Returned (Some updatedTodo), s1) => (Reply 200 (TodoBody updatedTodo), s1)
          | (Returned None, s1) => (Reply 404 (ErrorBody "Todo not found" None), s1)
          | (Threw, s1) => (invalid, s1)
          end
      | _, _ =>
          (Reply 400 (ErrorBody "Validation failed" (Some (errors validationResult))), s)
      end
  end.

Definition todo_DELETE (userId id0 : string) (s : store) : Response * store :=
  match deleteUserTodo DEFAULT_CATEGORIES DEFAULT_TAGS userId id0 s with
  | (Returned true, s1) => (Reply 200 SuccessBody, s1)
  | (Returned false, s1) => (Reply 404 (ErrorBody "Todo not found" None), s1)
  | (Threw, s1) => (Uncaught, s1)
  end.

(** [api/categories/route.ts] and [api/categories/[id]/route.ts] *)

Definition categories_GET (userId : string) (s : store) : Response * store :=
  match getUserCategories DEFAULT_CATEGORIES DEFAULT_TAGS userId s with
  | (Returned categories, s1) => (Reply 200 (CategoriesBody categories), s1)
  | (Threw, s1) => (Uncaught, s1)
  end.

Definition categories_POST (userId newId : string) (body : option JSON) (s : store)
  : Response * store :=
  let invalid := Reply 400 (ErrorBody "Invalid request body" None) in
  match body with
  | None => (invalid, s)
  | Some body =>
      let validationResult := validateNewCategoryInput body in
      match valid validationResult, data validationResult with
      | true, Some (name, icon, color) =>
          let newCategory := mkCategory newId name icon color in
          match addUserCategory DEFAULT_CATEGORIES DEFAULT_TAGS userId newCategory s with
          | (Returned category, s1) => (Reply 201 (CategoryBody category), s1)
          | (Threw, s1) => (invalid, s1)
          end
      | _, _ =>
          (Reply 400 (ErrorBody "Validation failed" (Some (errors validationResult))), s)
      end
  end.

Definition category_DELETE (userId id0 : string) (s : store) : Response * store :=
  match deleteUserCategory DEFAULT_CATEGORIES DEFAULT_TAGS userId id0 s with
  | (Returned true, s1) => (Reply 200 SuccessBody, s1)
  | (Returned false, s1) => (Reply 404 (ErrorBody "Category not found" None), s1)
  | (Threw, s1) => (Uncaught, s1)
  end.

(** [api/tags/route.ts] and [api/tags/[id]/route.ts] *)

Definition tags_GET (userId : string) (s : store) : Response * store :=
  match getUserTags DEFAULT_CATEGORIES DEFAULT_TAGS userId s with
  | (Returned tags, s1) => (Reply 200 (TagsBody tags), s1)
  | (Threw, s1) => (Uncaught, s1)
  end.

Definition tags_POST (userId newId : string) (body : option JSON) (s : store)
  : Response * store :=
  let invalid := Reply 400 (ErrorBody "Invalid request body" None) in
  match body with
  | None => (invalid, s)
  | Some body =>
      let validationResult := validateNewTagInput body in
      match valid validationResult, data validationResult with
      | true, Some (name, color) =>
          let newTag := mkTag newId name color in
          match addUserTag DEFAULT_CATEGORIES DEFAULT_TAGS userId newTag s with
          | (Returned tag, s1) => (Reply 201 (TagBody tag), s1)
          | (Threw, s1) => (invalid, s1)
          end
      | _, _ =>
          (Reply 400 (ErrorBody "Validation failed" (Some (errors validationResult))), s)
      end
  end.

Definition tag_DELETE (userId id0 : string) (s : store) : Response * store :=
  match deleteUserTag DEFAULT_CATEGORIES DEFAULT_TAGS userId id0 s with
  | (Returned true, s1) => (Reply 200 SuccessBody, s1)
  | (Returned false, s1) => (Reply 404 (ErrorBody "Tag not found" None), s1)
  | (Threw, s1) => (Uncaught, s1)
  end.

(** Serving one request. *)
Definition handle (r : Request) (s : store) : Response * store :=
  match user_of (session r) with
  | None => (unauthorized, s)
  | Some userId =>
      match call r with
      | GET_data => data_GET userId s
      | POST_data body => data_POST userId (now r) body s
      | GET_todos => todos_GET userId s
      | POST_todos body => todos_POST userId (now r) (newId r) body s
      | GET_todo id0 => todo_GET userId id0 s
      | PUT_todo id0 body => todo_PUT userId (now r) id0 body s
      | DELETE_todo id0 => todo_DELETE userId id0 s
      | GET_categories => categories_GET userId s
      | POST_categories body => categories_POST userId (newId r) body s
      | DELETE_category id0 => category_DELETE userId id0 s
      | GET_tags => tags_GET userId s
      | POST_tags body => tags_POST userId (newId r) body s
      | DELETE_tag id0 => tag_DELETE userId id0 s
      end
  end.

(** Serving a sequence of requests, one after the other. *)
Fixpoint run (rs : list Request) (s : store) : store :=
  match rs with
  | [] => s
  | r :: rest => run rest (snd (handle r s))
  end.

End Handlers.

End Api.

(** ** The properties under study *)

Module Props.

(** [i >= n] for a number [i] and a length [n]. *)
Definition at_or_beyond (n : nat) (i : number) : Prop :=
  match i with
  | Fin z => (Z.of_nat n <= z)%Z
  | PosInfinity => True
  | NegInfinity => False
  end.

(** A reorder request body: [{ action: "reorder", fromIndex, toIndex }] with
    two numbers, whatever else it carries. *)
Definition reorder_body (body : JSON) (fromIndex toIndex : number) : Prop :=
  Json.get body "action" = Some (JString "reorder")
  ∧ Json.get body "fromIndex" = Some (JNumber fromIndex)
  ∧ Json.get body "toIndex" = Some (JNumber toIndex).

(** What a validator makes of one item of a bulk import: the sanitized
    entity, or nothing when the item is rejected. *)
Definition accepted {T : Type} (validate : JSON -> Validation.ValidationResult T)
  (x : JSON) : option T :=
  if Validation.valid (validate x) then Validation.data (validate x) else None.

Definition rejected {T : Type} (validate : JSON -> Validation.ValidationResult T)
  (x : JSON) : bool :=
  match accepted validate x with
  | Some _ => false
  | None => true
  end.

(** The warning for the rejected item [x] found at index [i]. *)
Definition warning {T : Type} (validate : JSON -> Validation.ValidationResult T)
  (label : string) (i : nat) (x : JSON) : string :=
  label +:+ " at index " +:+ pretty i +:+ ": "
    +:+ Js.join ", " (Validation.errors (validate x)).

(** The arrays [validateTodoState] walks: [s.todos.slice(0, MAX_TODOS)] and
    its two siblings (empty when the property is not an array). *)
Definition todo_items (state : JSON) : list JSON :=
  Validation.capped Validation.MAX_TODOS (Json.get state "todos").
Definition category_items (state : JSON) : list JSON :=
  Validation.capped Validation.MAX_CATEGORIES (Json.get state "categories").
Definition tag_items (state : JSON) : list JSON :=
  Validation.capped Validation.MAX_TAGS (Json.get state "tags").

(** The ids a list of validated categories, or tags, offers. *)
Definition category_ids (cs : list Category) : list string := map cat_id cs.
Definition tag_ids (gs : list Tag) : list string := map tag_id gs.

(** Referential integrity of a user's record: the category of every Todo,
    when it has one, and every entry of its tag set name a Category, a Tag, of
    the record. *)
Definition refs_ok (d : UserData) : Prop :=
  ∀ t : Todo, Some t ∈ u_todos d ->
    (∀ c, categoryId t = Some c -> c ∈ category_ids (u_categories d))
    ∧ (∀ g, g ∈ tags t -> g ∈ tag_ids (u_tags d)).

(** Every position of the todo array holds a Todo. *)
Definition well_typed (d : UserData) : Prop :=
  ∃ ts : list Todo, u_todos d = map Some ts.

(** The references of one Todo resolve against given collections. *)
Definition todo_ok (cs : list Category) (gs : list Tag) (t : Todo) : Prop :=
  (∀ c, categoryId t = Some c -> c ∈ category_ids cs)
  ∧ (∀ g, g ∈ tags t -> g ∈ tag_ids gs).

(** The two together: what the declared types and the data model ask of a
    record. *)
Definition consistent (d : UserData) : Prop := well_typed d ∧ refs_ok d.

(** The category and the tags a request supplies all exist in the record. *)
Definition known_refs (d : UserData) (c : option string) (gs : list string) : Prop :=
  (∀ x, c = Some x -> x ∈ category_ids (u_categories d))
  ∧ (∀ g, g ∈ gs -> g ∈ tag_ids (u_tags d)).

(** What serving a call does to the record of the user who sent it. *)
Definition step_user (Date_parse : string -> option string)
  (c : Api.Call) (now newId : string) (d : UserData) : UserData :=
  match c with
  | Api.GET_data | Api.GET_todos | Api.GET_todo _
  | Api.GET_categories | Api.GET_tags => d
  | Api.POST_data body =>
      if u_migrated d then d
      else match body with
           | Some b =>
               match Validation.data (Validation.validateTodoState Date_parse now b) with
               | Some payload => snd (Store.User.importUserData payload d)
               | None => d
               end
           | None => d
           end
  | Api.POST_todos body =>
      match body with
      | None | Some JNull => d
      | Some b =>
          if Api.is_reorder b then
            match Json.get b "fromIndex", Json.get b "toIndex" with
            | Some (JNumber fromIndex), Some (JNumber toIndex) =>
                snd (Store.User.reorderUserTodos fromIndex toIndex d)
            | _, _ => d
            end
          else
            let result := Validation.validateNewTodoInput b in
            match Validation.valid result, Validation.data result with
            | true, Some (title, c, gs) =>
                snd (Store.User.addUserTodo (mkTodo newId title false c gs now now) d)
            | _, _ => d
            end
      end
  | Api.PUT_todo id0 body =>
      match body with
      | Some b =>
          let result := Validation.validateUpdateTodoInput b in
          match Validation.valid result, Validation.data result with
          | true, Some updates => snd (Store.User.updateUserTodo id0 updates now d)
          | _, _ => d
          end
      | None => d
      end
  | Api.DELETE_todo id0 => snd (Store.User.deleteUserTodo id0 d)
  | Api.POST_categories body =>
      match body with
      | Some b =>
          let result := Validation.validateNewCategoryInput b in
          match Validation.valid result, Validation.data result with
          | true, Some (name, icon, color) =>
              snd (Store.User.addUserCategory (mkCategory newId name icon color) d)
          | _, _ => d
          end
      | None => d
      end
  | Api.DELETE_category id0 => snd (Store.User.deleteUserCategory id0 d)
  | Api.POST_tags body =>
      match body with
      | Some b =>
          let result := Validation.validateNewTagInput b in
          match Validation.valid result, Validation.data result with
          | true, Some (name, color) =>
              snd (Store.User.addUserTag (mkTag newId name color) d)
          | _, _ => d
          end
      | None => d
      end
  | Api.DELETE_tag id0 => snd (Store.User.deleteUserTag id0 d)
  end.

(** A request that keeps to what the record holds: a created or updated Todo
    names only Categories and Tags of the record, and a reorder takes its
    Todo from a position of the sequence. *)
Definition respects (d : UserData) (c : Api.Call) : Prop :=
  match c with
  | Api.POST_todos (Some b) =>
      if Api.is_reorder b then
        ∀ fromIndex : number, Json.get b "fromIndex" = Some (JNumber fromIndex) ->
          JsArray.clamp (length (u_todos d)) fromIndex < length (u_todos d)
      else
        ∀ title c gs,
          Validation.data (Validation.validateNewTodoInput b) = Some (title, c, gs) ->
          known_refs d c gs
  | Api.PUT_todo _ (Some b) =>
      ∀ updates,
        Validation.data (Validation.validateUpdateTodoInput b) = Some updates ->
        known_refs d (mjoin (p_categoryId updates)) (default [] (p_tags updates))
  | _ => True
  end.

(** Every request of a sequence keeps to what the record of its sender
    holds when it is served. *)
Fixpoint all_respect (Date_parse : string -> option string)
  (DEFAULT_CATEGORIES : list Category) (DEFAULT_TAGS : list Tag)
  (rs : list Api.Request) (s : gmap string UserData) : Prop :=
  match rs with
  | [] => True
  | r :: rest =>
      (∀ u, Api.user_of (Api.session r) = Some u ->
            respects (Store.user_data DEFAULT_CATEGORIES DEFAULT_TAGS u s) (Api.call r))
      ∧ all_respect Date_parse DEFAULT_CATEGORIES DEFAULT_TAGS rest
          (snd (Api.handle Date_parse DEFAULT_CATEGORIES DEFAULT_TAGS r s))
  end.

End Props.

(** ** Sample data for the worked instances *)

Module Samples.

Definition no_dates : string -> option string := fun _ => None.
Definition clock : string := "2024-05-01T10:00:00.000Z".

Definition work : Category := mkCategory "c1" "Work" "Briefcase" "#6366f1".
Definition urgent : Tag := mkTag "g1" "Urgent" "#ef4444".
Definition later : Tag := mkTag "g2" "Later" "#10b981".

Definition todoA : Todo := mkTodo "A" "write report" false (Some "c1") ["g1"] clock clock.
Definition todoB : Todo := mkTodo "B" "buy milk" false None ["g1"; "g2"] clock clock.
Definition todoC : Todo := mkTodo "C" "call home" true (Some "c1") [] clock clock.

(** A store in which user [u] owns three Todos, a Category and two Tags. *)
Definition store3 : gmap string UserData :=
  {[ "u" := typed [todoA; todoB; todoC] [work] [urgent; later] false ]}.

(** A store in which a Todo of user [u] carries a category id that no
    Category has. *)
Definition store_dangling : gmap string UserData :=
  {[ "u" := typed [mkTodo "A" "write report" false (Some "ghost") [] clock clock]
                  [work] [] false ]}.

Definition reorder_request : JSON :=
  JObject [("action", JString "reorder");
           ("fromIndex", JNumber (Fin 5)); ("toIndex", JNumber (Fin 1))].

(** A local state to migrate: the second Todo has a blank title, the third
    names a category and a tag that the state does not have. *)
Definition item_a : JSON :=
  JObject [("id", JString "a"); ("title", JString "first");
           ("tags", JArray [JString "g1"])].
Definition item_b : JSON :=
  JObject [("id", JString "b"); ("title", JString "   ")].
Definition item_c : JSON :=
  JObject [("id", JString "c"); ("title", JString "third");
           ("categoryId", JString "nope");
           ("tags", JArray [JString "g1"; JString "gone"])].

Definition local_state : JSON :=
  JObject
    [("todos", JArray [item_a; item_b; item_c]);
     ("categories", JArray []);
     ("tags",
      JArray [JObject [("id", JString "g1"); ("name", JString "Urgent");
                       ("color", JString "#ef4444")]])].

(** What bulk validation makes of it. *)
Definition local_payload : TodoState :=
  mkTodoState [mkTodo "a" "first" false None ["g1"] clock clock;
               mkTodo "c" "third" false None ["g1"] clock clock]
              [] [urgent].

(** Another payload, to import a second time. *)
Definition other_payload : TodoState :=
  mkTodoState [todoB] [] [urgent; later].

Definition rename_B : PartialTodo :=
  mkPartial None (Some "buy oat milk") (Some true) None None None None.

Definition migrate (body : JSON) : Api.Request :=
  Api.mkRequest (Some "u") clock "id-1" (Api.POST_data (Some body)).

(** Creating a Todo in a category: one the user has, one nobody has. *)
Definition create_in (category : string) : Api.Request :=
  Api.mkRequest (Some "u") clock "id-1"
    (Api.POST_todos (Some (JObject [("title", JString "hi");
                                    ("categoryId", JString category)]))).

End Samples.

(** ** The client: [hooks/useApiTodos.ts]

    The hook keeps a copy of the user's record and changes it with state
    updaters: some run before the request is sent (the optimistic updates),
    the others when the answer is in.  Each updater below is the function the
    hook passes to [setState]; an updater that reads a property of an
    [undefined] element throws. *)

Module Client.
Import JsArray.

Record State : Type := mkState {
  todos : list (option Todo);
  categories : list Category;
  tags : list Tag
}.

(** [response.ok] *)
Definition ok (response : Api.Response) : bool :=
  match response with
  | Api.Reply status _ => (200 <=? status) && (status <=? 299)
  | Api.Uncaught => false
  end.

(** [addTodo], when the answer is in:
    [{ ...prev, todos: [newTodo, ...prev.todos] }] *)
Definition addTodo (newTodo : Todo) (prev : State) : State :=
  mkState (Some newTodo :: todos prev) (categories prev) (tags prev).

(** [updateTodo], before the request:
    [todo.id === id ? { ...todo, ...updates, updatedAt: now } : todo] *)
Definition updateTodo_optimistic (id0 : string) (updates : PartialTodo) (now : string)
  (prev : State) : outcome State :=
  match elements (todos prev) with
  | Threw => Threw
  | Returned ts =>
      Returned (mkState
        (map Some (map (fun todo => if String.eqb (id todo) id0
                                    then Store.User.merge todo updates now
                                    else todo) ts))
        (categories prev) (tags prev))
  end.

(** [updateTodo], when the answer is in:
    [todo.id === id ? updatedTodo : todo] *)
Definition updateTodo_confirmed (id0 : string) (updatedTodo : Todo) (prev : State)
  : outcome State :=
  match elements (todos prev) with
  | Threw => Threw
  | Returned ts =>
      Returned (mkState
        (map Some (map (fun todo => if String.eqb (id todo) id0
                                    then updatedTodo else todo) ts))
        (categories prev) (tags prev))
  end.

(** [deleteTodo], before the request. *)
Definition deleteTodo (id0 : string) (prev : State) : outcome State :=
  match elements (todos prev) with
  | Threw => Threw
  | Returned ts =>
      Returned (mkState (map Some (filter (fun todo => id todo ≠ id0) ts))
                        (categories prev) (tags prev))
  end.

(** [reorderTodos], before the request. *)
Definition reorderTodos (fromIndex toIndex : number) (prev : State) : State :=
  let '(removed, newTodos) := splice_out fromIndex (todos prev) in
  let newTodos := splice_in toIndex removed newTodos in
  mkState newTodos (categories prev) (tags prev).

(** [addCategory], when the answer is in. *)
Definition addCategory (newCategory : Category) (prev : State) : State :=
  mkState (todos prev) (categories prev ++ [newCategory]) (tags prev).

(** [deleteCategory], before the request. *)
Definition deleteCategory (id0 : string) (prev : State) : outcome State :=
  let categories' := filter (fun cat => cat_id cat ≠ id0) (categories prev) in
  match elements (todos prev) with
  | Threw => Threw
  | Returned ts =>
      Returned (mkState (map Some (map (Store.User.clearCategory id0) ts))
                        categories' (tags prev))
  end.

(** [addTag], when the answer is in. *)
Definition addTag (newTag : Tag) (prev : State) : State :=
  mkState (todos prev) (categories prev) (tags prev ++ [newTag]).

(** [deleteTag], before the request. *)
Definition deleteTag (id0 : string) (prev : State) : outcome State :=
  let tags' := filter (fun tag => tag_id tag ≠ id0) (tags prev) in
  match elements (todos prev) with
  | Threw => Threw
  | Returned ts =>
      Returned (mkState (map Some (map (Store.User.removeTag id0) ts))
                        (categories prev) tags')
  end.

End Client.

(** ** The middleware: [middleware.ts] *)

Module Middleware.

(** [NextResponse.next()], or [NextResponse.redirect(url)]: the path of the
    URL and its [callbackUrl] parameter. *)
Inductive NextResponse : Type :=
| Next
| Redirect (pathname : string) (callbackUrl : option string).

Definition publicRoutes : list string := ["/login"; "/api/auth"].

(** [s.startsWith(prefix)] *)
Definition startsWith (s prefix : string) : bool := String.prefix prefix s.

Definition isPublicRoute (pathname : string) : bool :=
  existsb (fun route => String.eqb pathname route
                        || startsWith pathname (route +:+ "/"))
          publicRoutes.

(** [isLoggedIn] is [!!token]. *)
Definition middleware (isLoggedIn : bool) (pathname : string) : NextResponse :=
  if isPublicRoute pathname then
    if isLoggedIn && String.eqb pathname "/login" then Redirect "/" None
    else Next
  else if negb isLoggedIn then Redirect "/login" (Some pathname)
  else Next.

End Middleware.

(** ** What the further facts are stated with *)

Module Laws.
Import Js Regex Validation JsArray Api.

(** The continuation that ends a match: [$] and then success. *)
Definition at_end : cont := fun prev l => rmatch Rend prev l (fun _ rest => Some rest).

(** A string of 1 to 100 characters among [a-zA-Z0-9_-]. *)
Definition valid_id (s : string) : Prop :=
  1 ≤ strlen s ≤ MAX_ID_LENGTH ∧ forallb safe_id_char (chars s) = true.

(** [#] and six hexadecimal digits. *)
Definition hex_color (s : string) : Prop :=
  ∃ hs, chars s = "#"%char :: hs ∧ length hs = 6 ∧ forallb hex_digit hs = true.

Definition bounded_text (maxLength : nat) (s : string) : Prop :=
  1 ≤ strlen s ≤ maxLength.

Definition todo_bounded (t : Todo) : Prop :=
  valid_id (id t)
  ∧ bounded_text MAX_TITLE_LENGTH (title t)
  ∧ (∀ c, categoryId t = Some c -> valid_id c)
  ∧ length (tags t) ≤ MAX_TAGS_PER_TODO
  ∧ Forall valid_id (tags t).

Definition category_bounded (c : Category) : Prop :=
  valid_id (cat_id c)
  ∧ bounded_text MAX_NAME_LENGTH (cat_name c)
  ∧ bounded_text MAX_ICON_LENGTH (cat_icon c)
  ∧ hex_color (cat_color c).

Definition tag_bounded (g : Tag) : Prop :=
  valid_id (tag_id g)
  ∧ bounded_text MAX_NAME_LENGTH (tag_name g)
  ∧ hex_color (tag_color g).

(** Every Todo, Category and Tag of a record is within the limits. *)
Definition record_bounded (d : UserData) : Prop :=
  (∀ t, Some t ∈ u_todos d -> todo_bounded t)
  ∧ Forall category_bounded (u_categories d)
  ∧ Forall tag_bounded (u_tags d).

(** Two inputs that are both objects or both not, and agree on the
    properties [keys]. *)
Definition same_on (keys : list string) (a b : JSON) : Prop :=
  Json.is_object a = Json.is_object b ∧ ∀ k, k ∈ keys -> Json.get a k = Json.get b k.

(** The splice pair of [reorderUserTodos] at two positions of the array. *)
Definition move {A : Type} (i j : nat) (arr : list (option A)) : list (option A) :=
  let '(removed, rest) := splice_out (Fin (Z.of_nat i)) arr in
  splice_in (Fin (Z.of_nat j)) removed rest.

(** The ids of the Todos a record holds, in order. *)
Definition todo_ids (d : UserData) : list string :=
  omap (fun slot : option Todo => id <$> slot) (u_todos d).

(** The ids a request brings in are new: the generated id of a created Todo
    is not in use, and an imported payload carries no id twice. *)
Definition fresh_ids (Date_parse : string -> option string)
  (c : Call) (now newId : string) (d : UserData) : Prop :=
  match c with
  | POST_todos (Some b) => is_reorder b = false -> newId ∉ todo_ids d
  | POST_data (Some b) =>
      ∀ payload, data (validateTodoState Date_parse now b) = Some payload ->
                 NoDup (map id (st_todos payload))
  | _ => True
  end.

(** An answer with an error status, or no answer. *)
Definition failed (resp : Response) : Prop :=
  match resp with
  | Reply status _ => 400 ≤ status
  | Uncaught => True
  end.

(** Request [r] comes from user [u] and makes call [c]. *)
Definition request_by (u : string) (c : Call) (r : Request) : Prop :=
  user_of (session r) = Some u ∧ call r = c.

(** The client's copy of a record. *)
Definition mirror (d : UserData) : Client.State :=
  Client.mkState (u_todos d) (u_categories d) (u_tags d).

(** What the client holds when an operation of the store has run: the copy of
    the new record, or nothing when the operation threw. *)
Definition mirrored {A : Type} (result : outcome A * UserData) : outcome Client.State :=
  match fst result with
  | Returned _ => Returned (mirror (snd result))
  | Threw => Threw
  end.

(** The paths the endpoint handlers are mounted at. *)
Definition api_routes : list string :=
  ["/api/data"; "/api/todos"; "/api/categories"; "/api/tags"].

End Laws.

(** ** Sample requests and values for the further instances *)

Module Cases.
Import Samples.

Definition sample_uuid : string := "123e4567-e89b-42d3-a456-426614174000".

Definition category_json : JSON :=
  JObject [("id", JString "c1"); ("name", JString "Work");
           ("icon", JString "Briefcase"); ("color", JString "#6366f1")].

Definition tag_json : JSON :=
  JObject [("id", JString "g1"); ("name", JString "Urgent");
           ("color", JString "#ef4444")].

(** An update and the same update with properties the validator does not
    read. *)
Definition retitle : JSON := JObject [("title", JString "hi")].
Definition retitle_padded : JSON :=
  JObject [("id", JString "other"); ("title", JString "hi");
           ("createdAt", JString "yesterday")].

(** A body whose [categoryId] is not an id. *)
Definition in_bad_category : JSON :=
  JObject [("title", JString "hi"); ("categoryId", JString "not an id")].

Definition by_u (newId : string) (c : Api.Call) : Api.Request :=
  Api.mkRequest (Some "u") clock newId c.

Definition blank_title : Api.Request :=
  by_u "id-1" (Api.PUT_todo "A" (Some (JObject [("title", JString "   ")]))).

Definition new_category : Api.Request :=
  by_u "id-1"
    (Api.POST_categories
       (Some (JObject [("name", JString "Home"); ("icon", JString "House");
                       ("color", JString "#123456")]))).

Definition rename_request : Api.Request :=
  by_u "id-1"
    (Api.PUT_todo "B" (Some (JObject [("title", JString "buy oat milk");
                                      ("completed", JBool true)]))).

(** A store in which the sequence of user [u] holds [undefined]. *)
Definition store_holed : gmap string UserData :=
  {[ "u" := mkUserData [Some todoA; None; Some todoB] [work] [urgent; later] false ]}.

End Cases.

(** * Facts about the store *)

Section StoreFacts.

Variable DEFAULT_CATEGORIES : list Category.
Variable DEFAULT_TAGS : list Tag.

Abbreviation user_data := (Store.user_data DEFAULT_CATEGORIES DEFAULT_TAGS).
Abbreviation with_user := (Store.with_user DEFAULT_CATEGORIES DEFAULT_TAGS).

(** Every operation acts on the record [getUserData] hands out and leaves
    the result under the user's key. *)
Lemma with_user_eq {A : Type} (userId : string)
    (body : UserData -> outcome A * UserData) (store : gmap string UserData) :
  with_user userId body store
  = (fst (body (user_data userId store)),
     <[userId := snd (body (user_data userId store))]> store).
Proof.
  unfold Store.with_user, Store.user_data, Store.getUserData.
  destruct (store !! userId) as [d|] eqn:E; simpl.
  - destruct (body d); reflexivity.
  - destruct (body _); simpl. by rewrite insert_insert_eq.
Qed.

Lemma user_data_insert (userId : string) (d : UserData) (store : gmap string UserData) :
  user_data userId (<[userId := d]> store) = d.
Proof. unfold Store.user_data. by rewrite lookup_insert_eq. Qed.

Lemma user_data_insert_ne (u v : string) (d : UserData) (store : gmap string UserData) :
  u ≠ v -> user_data v (<[u := d]> store) = user_data v store.
Proof. intros H. unfold Store.user_data. by rewrite lookup_insert_ne. Qed.

End StoreFacts.

(** * Facts about arrays *)

Section ArrayFacts.
Import JsArray.

Context {A : Type}.

Lemma clamp_le (len : nat) (i : number) : clamp len i ≤ len.
Proof. destruct i as [z| |]; simpl; [|lia..]. destruct (Z.ltb_spec z 0); lia. Qed.

Lemma clamp_beyond (len : nat) (i : number) :
  Props.at_or_beyond len i -> clamp len i = len.
Proof.
  destruct i as [z| |]; simpl; [|done..].
  intros H. destruct (Z.ltb_spec z 0); lia.
Qed.

Lemma clamp_inside (len : nat) (z : Z) :
  (0 <= z <= Z.of_nat len)%Z -> clamp len (Fin z) = Z.to_nat z.
Proof. intros H. simpl. destruct (Z.ltb_spec z 0); lia. Qed.

(** Nothing is at or after the end: [splice] takes nothing out. *)
Lemma splice_out_beyond (start : number) (arr : list (option A)) :
  Props.at_or_beyond (length arr) start -> splice_out start arr = (None, arr).
Proof.
  intros H. unfold splice_out. rewrite (clamp_beyond _ _ H).
  rewrite (lookup_ge_None_2 arr (length arr)) by lia.
  f_equal. rewrite delete_take_drop, firstn_all, drop_ge by lia.
  apply app_nil_r.
Qed.

Lemma elements_typed (xs : list A) : elements (map Some xs) = Returned xs.
Proof. induction xs as [|x xs IH]; simpl; [done|]. by rewrite IH. Qed.

(** [findIndex] stops at the first element that satisfies the predicate. *)
Lemma findIndex_found (p : A -> bool) (l1 l2 : list A) (x : A) :
  Forall (fun y => p y = false) l1 -> p x = true ->
  findIndex p (map Some (l1 ++ x :: l2)) = Returned (Some (length l1)).
Proof.
  intros H Hx. induction H as [|y l1 Hy _ IH]; simpl.
  - by rewrite Hx.
  - by rewrite Hy, IH.
Qed.

Lemma findIndex_absent (p : A -> bool) (l : list A) :
  Forall (fun y => p y = false) l -> findIndex p (map Some l) = Returned None.
Proof.
  intros H. induction H as [|y l Hy _ IH]; simpl; [done|]. by rewrite Hy, IH.
Qed.

Lemma lookup_typed_middle (l1 l2 : list A) (x : A) :
  map Some (l1 ++ x :: l2) !! length l1 = Some (Some x).
Proof.
  rewrite map_app. rewrite lookup_app_r by (rewrite length_map; lia).
  by rewrite length_map, Nat.sub_diag.
Qed.

Lemma insert_typed_middle (l1 l2 : list A) (x y : A) :
  <[length l1 := Some y]> (map Some (l1 ++ x :: l2)) = map Some (l1 ++ y :: l2).
Proof.
  rewrite !map_app. simpl.
  rewrite <- (length_map Some l1) at 1.
  by rewrite (insert_app_r_alt _ _ (length (map Some l1))), Nat.sub_diag by lia.
Qed.

End ArrayFacts.

(** * Facts about the validators *)

Section ValidationFacts.
Import Validation Props.

Context {T : Type}.
Variable validate : JSON -> ValidationResult T.
Variable label : string.

Lemma validate_items_cons (i : nat) (x : JSON) (rest : list JSON) :
  validate_items validate label i (x :: rest)
  = match accepted validate x with
    | Some d => (d :: fst (validate_items validate label (S i) rest),
                 snd (validate_items validate label (S i) rest))
    | None => (fst (validate_items validate label (S i) rest),
               warning validate label i x
                 :: snd (validate_items validate label (S i) rest))
    end.
Proof.
  simpl. unfold accepted, warning.
  destruct (validate_items validate label (S i) rest) as [a w]. simpl.
  destruct (valid (validate x)); [|done].
  by destruct (data (validate x)).
Qed.

(** The accepted items, in the order of the input. *)
Lemma validate_items_fst (i : nat) (items : list JSON) :
  fst (validate_items validate label i items) = omap (accepted validate) items.
Proof.
  revert i. induction items as [|x rest IH]; intros i; [done|].
  rewrite validate_items_cons. simpl.
  destruct (accepted validate x); simpl; by rewrite IH.
Qed.

Lemma validate_items_app (i : nat) (l1 l2 : list JSON) :
  validate_items validate label i (l1 ++ l2)
  = (fst (validate_items validate label i l1)
       ++ fst (validate_items validate label (i + length l1) l2),
     snd (validate_items validate label i l1)
       ++ snd (validate_items validate label (i + length l1) l2)).
Proof.
  revert i. induction l1 as [|x l1 IH]; intros i.
  - simpl. rewrite Nat.add_0_r. by destruct (validate_items _ _ _ l2).
  - rewrite <- app_comm_cons, !validate_items_cons, IH. simpl.
    replace (i + S (length l1)) with (S i + length l1) by lia.
    by destruct (accepted validate x).
Qed.

(** No warning where nothing is rejected. *)
Lemma validate_items_clean (i : nat) (items : list JSON) :
  Forall (fun x => rejected validate x = false) items ->
  snd (validate_items validate label i items) = [].
Proof.
  intros H. revert i. induction H as [|x rest Hx _ IH]; intros i; [done|].
  rewrite validate_items_cons. unfold rejected in Hx.
  destruct (accepted validate x); [|done]. apply IH.
Qed.

(** One warning per rejected item. *)
Lemma validate_items_count (i : nat) (items : list JSON) :
  length (snd (validate_items validate label i items))
  = length (filter (fun x => rejected validate x = true) items).
Proof.
  revert i. induction items as [|x rest IH]; intros i; [done|].
  rewrite validate_items_cons, filter_cons.
  destruct (accepted validate x) eqn:E; simpl.
  - rewrite decide_False by (unfold rejected; by rewrite E). apply IH.
  - rewrite decide_True by (unfold rejected; by rewrite E). simpl. by rewrite IH.
Qed.

(** The warning of a rejected item names the index the item has in the
    array. *)
Lemma validate_items_warns (i k : nat) (items : list JSON) (x : JSON) :
  items !! k = Some x ->
  rejected validate x = true ->
  warning validate label (i + k) x ∈ snd (validate_items validate label i items).
Proof.
  revert i k. induction items as [|y rest IH]; intros i k Hk Hx; [done|].
  rewrite validate_items_cons. destruct k as [|k]; simpl in Hk.
  - injection Hk as ->. unfold rejected in Hx.
    destruct (accepted validate x); [done|]. simpl. rewrite Nat.add_0_r. left.
  - replace (i + S k) with (S i + k) by lia.
    specialize (IH (S i) k Hk Hx).
    destruct (accepted validate y); simpl; [done|]. by right.
Qed.

(** A single rejected item among accepted ones leaves exactly its warning. *)
Lemma validate_items_single (i : nat) (l1 l2 : list JSON) (x : JSON) :
  Forall (fun y => rejected validate y = false) l1 ->
  Forall (fun y => rejected validate y = false) l2 ->
  rejected validate x = true ->
  validate_items validate label i (l1 ++ x :: l2)
  = (omap (accepted validate) l1 ++ omap (accepted validate) l2,
     [warning validate label (i + length l1) x]).
Proof.
  intros H1 H2 Hx.
  rewrite validate_items_app, validate_items_cons.
  unfold rejected in Hx. destruct (accepted validate x); [done|]. simpl.
  rewrite !validate_items_fst, !validate_items_clean by done. reflexivity.
Qed.

End ValidationFacts.

Section IdFacts.
Import Js Regex Validation Props.

Lemma strlen_0 (s : string) : strlen s = 0 -> s = "".
Proof.
  unfold strlen, chars. intros H.
  rewrite <- (String.string_of_list_ascii_of_string s).
  by destruct (String.list_ascii_of_string s).
Qed.

(** An id that passes [validateId] is not the empty string: both patterns
    ask for at least one character. *)
Lemma validateId_nonempty (v : option JSON) (s : string) :
  validateId v = Some s -> strlen s ≠ 0.
Proof.
  unfold validateId. destruct v as [[]|]; try discriminate.
  destruct (negb (test SAFE_ID_REGEX _) && negb (isValidUUID _)) eqn:E; [discriminate|].
  intros [= <-] H0. apply strlen_0 in H0. rewrite H0 in E. discriminate E.
Qed.

(** The category of a Todo that [validateTodo] accepts is [null] or a
    non-empty id. *)
Lemma validateTodo_categoryId (Date_parse : string -> option string)
    (now : string) (x : JSON) (t : Todo) (c : string) :
  accepted (validateTodo Date_parse now) x = Some t ->
  categoryId t = Some c -> strlen c ≠ 0.
Proof.
  unfold accepted, validateTodo.
  destruct (negb (Json.is_object x)); [discriminate|].
  destruct (Json.get x "categoryId") as [cv|] eqn:Ec.
  2:{ destruct (_ ++ _); simpl; [|discriminate]. intros [= <-]. discriminate. }
  destruct (validateId (Some cv)) as [cid|] eqn:Ev.
  - assert (Hne := validateId_nonempty _ _ Ev).
    destruct cv; (destruct (_ ++ _); simpl; [|discriminate]);
      intros [= <-]; simpl; intros [= <-]; try done.
  - destruct cv; (destruct (_ ++ _); simpl; [|discriminate]);
      intros [= <-]; discriminate.
Qed.

End IdFacts.

(** * Bulk validation *)

Section BulkValidation.
Import Js Validation Props.

Variable Date_parse : string -> option string.

Abbreviation validateTodo' := (validateTodo Date_parse).
Abbreviation validateTodoState' := (validateTodoState Date_parse).

(** What [validateTodoState] returns for an object (or an array). *)
Lemma validateTodoState_object (now : string) (state : JSON) :
  Json.is_object state = true ->
  validateTodoState' now state
  = let T := validate_items (validateTodo' now) "Todo" 0 (todo_items state) in
    let C := validate_items validateCategory "Category" 0 (category_items state) in
    let G := validate_items validateTag "Tag" 0 (tag_items state) in
    mkResult true
      (Some (mkTodoState
               (map (crossValidate (list_to_set (category_ids (fst C)))
                                   (list_to_set (tag_ids (fst G)))) (fst T))
               (fst C) (fst G)))
      (snd T ++ snd C ++ snd G).
Proof.
  intros Hobj. unfold validateTodoState, todo_items, category_items, tag_items.
  rewrite Hobj. simpl.
  destruct (validate_items (validateTodo' now) _ _ _) as [t1 e1].
  destruct (validate_items validateCategory _ _ _) as [t2 e2].
  destruct (validate_items validateTag _ _ _) as [t3 e3].
  reflexivity.
Qed.

(** Anything else is turned away without a payload. *)
Lemma validateTodoState_not_object (now : string) (state : JSON) :
  Json.is_object state = false ->
  validateTodoState' now state = mkResult false None ["State must be an object"].
Proof. intros H. unfold validateTodoState. by rewrite H. Qed.

Lemma validateTodoState_data (now : string) (state : JSON) (payload : TodoState) :
  data (validateTodoState' now state) = Some payload ->
  Json.is_object state = true.
Proof.
  destruct (Json.is_object state) eqn:E; [done|].
  by rewrite (validateTodoState_not_object now state E).
Qed.

(** C5. In bulk validation the returned Todos are the accepted Todos, one
    for one and in order (none is rejected for an unresolved reference); each
    keeps its [categoryId] when it occurs among the just-validated Categories
    and has it set to [null] otherwise, and keeps exactly those entries of its
    tag set that occur among the just-validated Tags. *)
Theorem cross_references_dropped (now : string) (state : JSON) (payload : TodoState) :
  data (validateTodoState' now state) = Some payload ->
  let validTodos := omap (accepted (validateTodo' now)) (todo_items state) in
  let cids := category_ids (st_categories payload) in
  let gids := tag_ids (st_tags payload) in
  st_categories payload = omap (accepted validateCategory) (category_items state)
  ∧ st_tags payload = omap (accepted validateTag) (tag_items state)
  ∧ length (st_todos payload) = length validTodos
  ∧ ∀ (i : nat) (t : Todo), validTodos !! i = Some t ->
      ∃ t', st_todos payload !! i = Some t'
        ∧ id t' = id t ∧ title t' = title t ∧ completed t' = completed t
        ∧ createdAt t' = createdAt t ∧ updatedAt t' = updatedAt t
        ∧ categoryId t'
          = match categoryId t with
            | Some c => if decide (c ∈ cids) then Some c else None
            | None => None
            end
        ∧ tags t' = filter (fun g => g ∈ gids) (tags t).
Proof.
  intros Hdata validTodos cids gids.
  assert (Hobj := validateTodoState_data _ _ _ Hdata).
  rewrite (validateTodoState_object now state Hobj) in Hdata.
  simpl in Hdata. injection Hdata as <-.
  unfold cids, gids, validTodos. simpl.
  rewrite !validate_items_fst.
  split; [done|]. split; [done|]. split; [by rewrite length_map|].
  intros i t Hi. rewrite list_lookup_fmap, Hi. simpl.
  eexists. split; [reflexivity|]. simpl. repeat split.
  - destruct (categoryId t) as [c|] eqn:Ec; [|done].
    apply list_elem_of_lookup_2, list_elem_of_omap in Hi as (x & _ & Hx).
    assert (Hne := validateTodo_categoryId _ _ _ _ _ Hx Ec).
    destruct (Nat.eqb_spec (strlen c) 0) as [|_]; [done|]. simpl.
    case_bool_decide as Hin; rewrite elem_of_list_to_set in Hin;
      case_decide; done.
  - apply list_filter_iff. intros g. apply elem_of_list_to_set.
Qed.

(** C4, as the code has it. [validateTodoState] turns away an input that is
    not an object ([null], a boolean, a number, a string) with the single error
    "State must be an object" and no payload.  For every object (or array) it
    returns [valid] with a payload, possibly empty: the accepted Todos (after
    the cross-reference step), Categories and Tags, in order; each rejected
    item leaves one warning that names its kind, its index in the array and
    the reasons, and there is no other warning.  In particular, where all
    Categories and Tags are accepted and one Todo, at index [length l1], is
    rejected among accepted ones, the payload holds exactly the other Todos
    and there is exactly one warning, naming that index. *)
Theorem bulk_validation_lenient (now : string) (state : JSON) :
  (Json.is_object state = false ->
   validateTodoState' now state = mkResult false None ["State must be an object"])
  ∧ (Json.is_object state = true ->
     ∃ (payload : TodoState) (warnings : list string),
       validateTodoState' now state = mkResult true (Some payload) warnings
       ∧ st_categories payload = omap (accepted validateCategory) (category_items state)
       ∧ st_tags payload = omap (accepted validateTag) (tag_items state)
       ∧ st_todos payload
         = map (crossValidate (list_to_set (category_ids (st_categories payload)))
                              (list_to_set (tag_ids (st_tags payload))))
               (omap (accepted (validateTodo' now)) (todo_items state))
       ∧ length warnings
         = length (filter (fun x => rejected (validateTodo' now) x = true) (todo_items state))
           + length (filter (fun x => rejected validateCategory x = true)
                            (category_items state))
           + length (filter (fun x => rejected validateTag x = true) (tag_items state))
       ∧ (∀ (i : nat) (x : JSON), todo_items state !! i = Some x ->
            rejected (validateTodo' now) x = true ->
            warning (validateTodo' now) "Todo" i x ∈ warnings)
       ∧ (∀ (i : nat) (x : JSON), category_items state !! i = Some x ->
            rejected validateCategory x = true ->
            warning validateCategory "Category" i x ∈ warnings)
       ∧ (∀ (i : nat) (x : JSON), tag_items state !! i = Some x ->
            rejected validateTag x = true ->
            warning validateTag "Tag" i x ∈ warnings)
       ∧ (∀ (l1 l2 : list JSON) (x : JSON),
            todo_items state = l1 ++ x :: l2 ->
            Forall (fun y => rejected (validateTodo' now) y = false) (l1 ++ l2) ->
            rejected (validateTodo' now) x = true ->
            Forall (fun y => rejected validateCategory y = false) (category_items state) ->
            Forall (fun y => rejected validateTag y = false) (tag_items state) ->
            warnings = [warning (validateTodo' now) "Todo" (length l1) x]
            ∧ length (st_todos payload) = length l1 + length l2
            ∧ map id (st_todos payload)
              = map id (omap (accepted (validateTodo' now)) (l1 ++ l2)))).
Proof.
  split; [apply validateTodoState_not_object|].
  intros Hobj. rewrite (validateTodoState_object now state Hobj).
  eexists _, _. split; [reflexivity|]. simpl.
  rewrite !validate_items_fst.
  split; [done|]. split; [done|]. split; [done|].
  split; [by rewrite !length_app, !validate_items_count, Nat.add_assoc|].
  split.
  { intros i x Hi Hx. apply elem_of_app. left.
    by apply (validate_items_warns _ _ 0 i). }
  split.
  { intros i x Hi Hx. apply elem_of_app. right. apply elem_of_app. left.
    by apply (validate_items_warns _ _ 0 i). }
  split.
  { intros i x Hi Hx. apply elem_of_app. right. apply elem_of_app. right.
    by apply (validate_items_warns _ _ 0 i). }
  intros l1 l2 x Hitems Hothers Hx Hcats Htags.
  apply Forall_app in Hothers as [H1 H2].
  rewrite Hitems, (validate_items_single _ _ 0 l1 l2 x H1 H2 Hx).
  rewrite !validate_items_clean by done. simpl.
  split; [done|].
  assert (Hall : ∀ l, Forall (fun y => rejected (validateTodo' now) y = false) l ->
                 length (omap (accepted (validateTodo' now)) l) = length l).
  { intros l Hl. induction Hl as [|y l Hy _ IH]; [done|].
    unfold rejected in Hy. cbn [omap list_omap].
    destruct (accepted (validateTodo' now) y); [|done].
    cbn [length]. f_equal. exact IH. }
  assert (Hdrop : omap (accepted (validateTodo' now)) (l1 ++ x :: l2)
                  = omap (accepted (validateTodo' now)) (l1 ++ l2)).
  { rewrite !omap_app. f_equal. cbn [omap list_omap].
    unfold rejected in Hx. by destruct (accepted (validateTodo' now) x). }
  rewrite Hdrop. split.
  - rewrite length_map, Hall, length_app by (apply Forall_app; done). done.
  - rewrite <- list_fmap_compose.
    apply list_fmap_ext. intros ? t _. reflexivity.
Qed.

End BulkValidation.

(** * Reordering *)

Section Reorder.
Import JsArray Props.

Variable Date_parse : string -> option string.
Variable DEFAULT_CATEGORIES : list Category.
Variable DEFAULT_TAGS : list Tag.

Abbreviation user_data' := (Store.user_data DEFAULT_CATEGORIES DEFAULT_TAGS).
Abbreviation reorderUserTodos := (Store.reorderUserTodos DEFAULT_CATEGORIES DEFAULT_TAGS).
Abbreviation todos_POST := (Api.todos_POST DEFAULT_CATEGORIES DEFAULT_TAGS).

(** The endpoint hands any two numbers to [reorderUserTodos] and answers with
    what it returns: no bound is checked on the way. *)
Lemma todos_POST_forwards (userId now newId : string) (body : JSON)
    (fromIndex toIndex : number) (store : gmap string UserData) :
  reorder_body body fromIndex toIndex ->
  ∃ todos store',
    reorderUserTodos userId fromIndex toIndex store = (Returned todos, store')
    ∧ todos_POST userId now newId (Some body) store = (Api.Reply 200 (Api.TodosBody todos), store').
Proof.
  intros (Ha & Hf & Ht).
  unfold Api.todos_POST, Api.is_reorder.
  destruct body; try discriminate Ha.
  rewrite Ha, Hf, Ht. simpl.
  unfold Store.reorderUserTodos. rewrite with_user_eq.
  unfold Store.User.reorderUserTodos.
  destruct (splice_out fromIndex _) as [removed newTodos]. simpl.
  eauto.
Qed.

(** C8. For every user whose todo sequence is the three-item list [A; B; C],
    [reorderUserTodos] with [fromIndex = 0] and [toIndex = 2] returns the list
    [B; C; A] and stores it as the user's todo sequence. *)
Theorem reorder_first_to_last (userId : string) (A B C : Todo)
    (cs : list Category) (gs : list Tag) (m : bool) (store : gmap string UserData) :
  user_data' userId store = typed [A; B; C] cs gs m ->
  reorderUserTodos userId (Fin 0) (Fin 2) store
  = (Returned [Some B; Some C; Some A], <[userId := typed [B; C; A] cs gs m]> store).
Proof.
  intros Hd. unfold Store.reorderUserTodos.
  rewrite with_user_eq, Hd. reflexivity.
Qed.

(** C10. For every user whose todo sequence has length [n], and every
    [fromIndex >= n]: [reorderUserTodos] returns, and stores, the old sequence
    with [undefined] inserted at (the clamped) [toIndex], a sequence of length
    [n + 1]; it does not throw and the sequence has changed.  For a
    [toIndex] between 0 and [n] the position of [undefined] is [toIndex]
    itself.  The reorder endpoint passes the two numbers on unchecked and
    answers 200 with that sequence. *)
Theorem reorder_from_beyond_end (userId now newId : string) (body : JSON)
    (fromIndex toIndex : number) (store : gmap string UserData) :
  let d := user_data' userId store in
  let old := u_todos d in
  let n := length old in
  let p := clamp n toIndex in
  let new := take p old ++ None :: drop p old in
  let d' := mkUserData new (u_categories d) (u_tags d) (u_migrated d) in
  at_or_beyond n fromIndex ->
  reorder_body body fromIndex toIndex ->
  reorderUserTodos userId fromIndex toIndex store = (Returned new, <[userId := d']> store)
  ∧ todos_POST userId now newId (Some body) store
    = (Api.Reply 200 (Api.TodosBody new), <[userId := d']> store)
  ∧ length new = S n
  ∧ p ≤ n
  ∧ new !! p = Some None
  ∧ delete p new = old
  ∧ new ≠ old
  ∧ (∀ z : Z, toIndex = Fin z -> (0 <= z <= Z.of_nat n)%Z -> p = Z.to_nat z).
Proof.
  intros d old n p new d' Hfrom Hbody.
  assert (Hp : p ≤ n) by apply clamp_le.
  assert (Hlen : length new = S n).
  { unfold new. rewrite length_app, length_take. simpl. rewrite length_drop.
    fold n. lia. }
  assert (Hrun : reorderUserTodos userId fromIndex toIndex store
                 = (Returned new, <[userId := d']> store)).
  { unfold Store.reorderUserTodos. rewrite with_user_eq.
    unfold Store.User.reorderUserTodos. fold d old.
    rewrite (splice_out_beyond fromIndex old Hfrom). reflexivity. }
  split; [exact Hrun|].
  split.
  { destruct (todos_POST_forwards userId now newId body fromIndex toIndex store Hbody)
      as (todos & store' & Hr & Hpost).
    rewrite Hrun in Hr. injection Hr as <- <-. exact Hpost. }
  split; [exact Hlen|]. split; [exact Hp|].
  assert (Htake : length (take p old) = p) by (rewrite length_take; fold n; lia).
  split.
  { unfold new. rewrite lookup_app_r by lia. rewrite Htake, Nat.sub_diag. reflexivity. }
  split.
  { unfold new. rewrite <- Htake at 1. rewrite delete_middle. apply take_drop. }
  split.
  { intros Heq. rewrite Heq in Hlen. fold n in Hlen. lia. }
  intros z -> Hz. by apply clamp_inside.
Qed.

End Reorder.

(** * The store operations on Todos, Categories and Tags *)

Section StoreOperations.
Import JsArray Validation Props.

Variable DEFAULT_CATEGORIES : list Category.
Variable DEFAULT_TAGS : list Tag.

Abbreviation data_of := (Store.user_data DEFAULT_CATEGORIES DEFAULT_TAGS).
Abbreviation updateUserTodo := (Store.updateUserTodo DEFAULT_CATEGORIES DEFAULT_TAGS).
Abbreviation deleteUserCategory := (Store.deleteUserCategory DEFAULT_CATEGORIES DEFAULT_TAGS).
Abbreviation deleteUserTag := (Store.deleteUserTag DEFAULT_CATEGORIES DEFAULT_TAGS).

Lemma id_differs (todoId : string) (l : list Todo) :
  Forall (fun t => id t ≠ todoId) l ->
  Forall (fun t => String.eqb (id t) todoId = false) l.
Proof. intros H. eapply Forall_impl; [exact H|]. intros t Ht. by apply String.eqb_neq. Qed.

(** A validated update names none of [id], [createdAt], [updatedAt]. *)
Lemma validateUpdateTodoInput_fields (body : JSON) (updates : PartialTodo) :
  data (validateUpdateTodoInput body) = Some updates ->
  p_id updates = None ∧ p_createdAt updates = None ∧ p_updatedAt updates = None.
Proof.
  unfold validateUpdateTodoInput.
  repeat case_match; simpl; intros [= <-]; done.
Qed.





(** Filtering facts shared by the two cascading deletes. *)
Lemma filter_all {X : Type} (P : X -> Prop) `{!∀ x, Decision (P x)} (l : list X) :
  Forall P l -> filter P l = l.
Proof.
  intros Hall. induction Hall as [|x l Hx _ IH]; [done|].
  by rewrite filter_cons_True, IH.
Qed.

Lemma filter_idem {X : Type} (P : X -> Prop) `{!∀ x, Decision (P x)} (l : list X) :
  filter P (filter P l) = filter P l.
Proof.
  apply filter_all, Forall_forall. intros x Hx.
  by apply list_elem_of_filter in Hx as [? _].
Qed.

Lemma ltb_filter_present {X : Type} (P : X -> Prop) `{!∀ x, Decision (P x)}
    (l : list X) (x : X) :
  x ∈ l -> ¬ P x -> (length (filter P l) <? length l) = true.
Proof. intros Hx Hn. apply Nat.ltb_lt. by apply (length_filter_lt P l x). Qed.


Lemma clearCategory_other (C : string) (t : Todo) :
  categoryId t ≠ Some C -> Store.User.clearCategory C t = t.
Proof.
  unfold Store.User.clearCategory. intros H.
  destruct (categoryId t) as [c|]; [|done].
  destruct (String.eqb_spec c C) as [->|]; done.
Qed.

Lemma clearCategory_same (C : string) (t : Todo) :
  categoryId t = Some C ->
  Store.User.clearCategory C t
  = mkTodo (id t) (title t) (completed t) None (tags t) (createdAt t) (updatedAt t).
Proof.
  unfold Store.User.clearCategory. intros ->. by rewrite String.eqb_refl.
Qed.

(** C6, as the code has it. For every user record (whose todo sequence
    holds Todos) with a Category of id [C]: [deleteUserCategory] returns
    [true]; afterwards no Category has id [C], every Todo whose [categoryId]
    was [C] has [categoryId = null] and is otherwise the same, and the other
    Todos, the Tags and the flag are as before.  For an id that no Category
    has, it returns [false]; the record is unchanged provided no Todo carries
    that id as its [categoryId]. *)
Theorem delete_category_cascades (userId C : string)
    (ts : list Todo) (cs : list Category) (gs : list Tag) (m : bool)
    (store : gmap string UserData) :
  data_of userId store = typed ts cs gs m ->
  (C ∈ category_ids cs ->
   ∃ ts' : list Todo,
     let cs' := filter (fun c => cat_id c ≠ C) cs in
     deleteUserCategory userId C store
     = (Returned true, <[userId := typed ts' cs' gs m]> store)
     ∧ (C ∉ category_ids cs')
     ∧ length ts' = length ts
     ∧ (∀ (i : nat) (t : Todo), ts !! i = Some t -> categoryId t = Some C ->
          ts' !! i = Some (mkTodo (id t) (title t) (completed t) None (tags t)
                                  (createdAt t) (updatedAt t)))
     ∧ (∀ (i : nat) (t : Todo), ts !! i = Some t -> categoryId t ≠ Some C ->
          ts' !! i = Some t))
  ∧ (C ∉ category_ids cs ->
     fst (deleteUserCategory userId C store) = Returned false
     ∧ ((∀ t : Todo, t ∈ ts -> categoryId t ≠ Some C) ->
        deleteUserCategory userId C store
        = (Returned false, <[userId := typed ts cs gs m]> store)
        ∧ data_of userId (snd (deleteUserCategory userId C store))
          = data_of userId store)).
Proof.
  intros Hd.
  assert (Hrun : deleteUserCategory userId C store
                 = (Returned (length (filter (fun c => cat_id c ≠ C) cs) <? length cs),
                    <[userId := typed (map (Store.User.clearCategory C) ts)
                                      (filter (fun c => cat_id c ≠ C) cs) gs m]> store)).
  { unfold Store.deleteUserCategory. rewrite with_user_eq, Hd.
    unfold Store.User.deleteUserCategory, typed. simpl.
    by rewrite elements_typed. }
  split.
  - intros HC. exists (map (Store.User.clearCategory C) ts). simpl.
    split.
    { rewrite Hrun. apply list_elem_of_fmap in HC as (c & -> & Hc).
      by rewrite (ltb_filter_present _ cs c Hc) by (intros H; by apply H). }
    split.
    { unfold category_ids. intros Hin.
      apply list_elem_of_fmap in Hin as (c & -> & Hc).
      by apply list_elem_of_filter in Hc as [Hne _]. }
    split; [apply length_map|].
    split; intros i t Hi Ht; rewrite list_lookup_fmap, Hi; simpl; f_equal.
    + by apply clearCategory_same.
    + by apply clearCategory_other.
  - intros HC.
    assert (Hcs : filter (fun c => cat_id c ≠ C) cs = cs).
    { apply filter_all, Forall_forall. intros c Hc Heq. apply HC.
      unfold category_ids. apply list_elem_of_fmap. by exists c. }
    rewrite Hrun, Hcs, Nat.ltb_irrefl. simpl.
    split; [done|]. intros Hts.
    assert (Hsame : map (Store.User.clearCategory C) ts = ts).
    { rewrite <- (map_id ts) at 2. apply map_ext_in. intros t Ht.
      apply clearCategory_other, Hts. by apply list_elem_of_In. }
    rewrite Hsame. split; [done|]. by rewrite user_data_insert, Hd.
Qed.

End StoreOperations.

(** * What a request does to the store *)

Section Steps.
Import Validation Props Api.

Variable Date_parse : string -> option string.
Variable DEFAULT_CATEGORIES : list Category.
Variable DEFAULT_TAGS : list Tag.

Abbreviation record := (Store.user_data DEFAULT_CATEGORIES DEFAULT_TAGS).
Abbreviation handle' := (Api.handle Date_parse DEFAULT_CATEGORIES DEFAULT_TAGS).
Abbreviation run' := (Api.run Date_parse DEFAULT_CATEGORIES DEFAULT_TAGS).

Lemma record_getUserData (u v : string) (s : gmap string UserData) :
  record u (snd (Store.getUserData DEFAULT_CATEGORIES DEFAULT_TAGS v s)) = record u s.
Proof.
  unfold Store.getUserData, Store.user_data.
  destruct (s !! v) eqn:E; simpl; [done|].
  destruct (decide (v = u)) as [->|Hne].
  - by rewrite lookup_insert_eq, E.
  - by rewrite lookup_insert_ne.
Qed.

Lemma record_insert (u v : string) (d : UserData) (s : gmap string UserData) :
  record u (<[v := d]> s) = if decide (u = v) then d else record u s.
Proof.
  case_decide as E.
  - subst. apply user_data_insert.
  - apply user_data_insert_ne. congruence.
Qed.

(** A record whose flag is set is in the map. *)
Lemma migrated_present (u : string) (s : gmap string UserData) :
  u_migrated (record u s) = true -> s !! u = Some (record u s).
Proof. unfold Store.user_data. by destruct (s !! u). Qed.

(** [getUserData] hands out the record and leaves it in the map. *)
Lemma getUserData_eq (v : string) (s : gmap string UserData) :
  Store.getUserData DEFAULT_CATEGORIES DEFAULT_TAGS v s
  = (record v s, <[v := record v s]> s).
Proof.
  unfold Store.getUserData, Store.user_data.
  destruct (s !! v) eqn:E; simpl; [|done]. by rewrite insert_id.
Qed.

Ltac store_step :=
  unfold Store.getUserTodos, Store.addUserTodo, Store.updateUserTodo,
    Store.deleteUserTodo, Store.reorderUserTodos, Store.getUserCategories,
    Store.addUserCategory, Store.deleteUserCategory, Store.getUserTags,
    Store.addUserTag, Store.deleteUserTag, Store.hasUserMigrated,
    Store.importUserData;
  rewrite ?with_user_eq, ?getUserData_eq; cbn [fst snd];
  rewrite ?user_data_insert, ?insert_insert_eq.

(** Serving a request changes the record of the user who sent it, as
    [step_user] says, and no other record. *)
Lemma handle_record (r : Request) (s : gmap string UserData) (u : string) :
  record u (snd (handle' r s))
  = match user_of (session r) with
    | Some v =>
        if decide (u = v)
        then step_user Date_parse (call r) (now r) (newId r) (record v s)
        else record u s
    | None => record u s
    end.
Proof.
  unfold handle.
  destruct (user_of (session r)) as [v|]; [|done].
  destruct (call r) as [|body| |body|id0|id0 body|id0| |body|id0| |body|id0];
    unfold data_GET, data_POST, todos_GET, todos_POST, todo_GET, todo_PUT,
      todo_DELETE, categories_GET, categories_POST, category_DELETE,
      tags_GET, tags_POST, tag_DELETE, step_user.
  all: store_step.
  all: repeat (case_match; store_step).
  all: cbn [fst snd]; rewrite ?record_insert.
  all: case_decide; [subst; try done|done].
Qed.

(** ** The migrated flag *)

Lemma step_user_keeps_flag (c : Call) (now newId : string) (d : UserData) :
  u_migrated d = true -> u_migrated (step_user Date_parse c now newId d) = true.
Proof.
  intros Hm. destruct c; simpl; rewrite ?Hm; try done.
  all: unfold Store.User.reorderUserTodos, Store.User.addUserTodo,
         Store.User.updateUserTodo, Store.User.deleteUserTodo,
         Store.User.addUserCategory, Store.User.deleteUserCategory,
         Store.User.addUserTag, Store.User.deleteUserTag.
  all: repeat case_match; simpl; done.
Qed.

Lemma step_user_sets_flag (c : Call) (now newId : string) (d : UserData) :
  u_migrated d = false ->
  u_migrated (step_user Date_parse c now newId d) = true ->
  ∃ (body : JSON) (payload : TodoState),
    c = POST_data (Some body)
    ∧ data (validateTodoState Date_parse now body) = Some payload
    ∧ step_user Date_parse c now newId d
      = mkUserData (map Some (st_todos payload)) (st_categories payload)
                   (st_tags payload) true.
Proof.
  intros Hm. destruct c as [|body| |body|id0|id0 body|id0| |body|id0| |body|id0];
    simpl; rewrite ?Hm.
  2:{ destruct body as [body|]; [|congruence].
      destruct (data (validateTodoState Date_parse now body)) as [payload|] eqn:E;
        [|congruence].
      intros _. by exists body, payload. }
  all: unfold Store.User.reorderUserTodos, Store.User.addUserTodo,
         Store.User.updateUserTodo, Store.User.deleteUserTodo,
         Store.User.addUserCategory, Store.User.deleteUserCategory,
         Store.User.addUserTag, Store.User.deleteUserTag.
  all: repeat case_match; simpl; congruence.
Qed.

(** C3, as the code has it. Through the endpoints: once a user's
    [migrated] flag is [true] it stays [true] whatever requests follow, so it
    goes from [false] to [true] at most once; the only request under which it
    does is a POST to [/api/data] by that user whose body passes bulk
    validation, which answers 200 and replaces the three collections by the
    payload; and a POST to [/api/data] by a user whose flag is [true] is
    answered 400 "Data already migrated" and leaves the whole store as it
    was. *)
Theorem migration_at_endpoints :
  (∀ (rs : list Request) (s : gmap string UserData) (u : string),
     u_migrated (record u s) = true -> u_migrated (record u (run' rs s)) = true)
  ∧ (∀ (r : Request) (s : gmap string UserData) (u : string),
       u_migrated (record u s) = false ->
       u_migrated (record u (snd (handle' r s))) = true ->
       user_of (session r) = Some u
       ∧ ∃ (body : JSON) (payload : TodoState) (warnings : option (list string)),
           call r = POST_data (Some body)
           ∧ data (validateTodoState Date_parse (now r) body) = Some payload
           ∧ handle' r s
             = (Reply 200 (ImportedBody (length (st_todos payload))
                                        (length (st_categories payload))
                                        (length (st_tags payload)) warnings),
                <[u := mkUserData (map Some (st_todos payload)) (st_categories payload)
                                  (st_tags payload) true]> s))
  ∧ (∀ (r : Request) (s : gmap string UserData) (u : string) (body : option JSON),
       user_of (session r) = Some u ->
       call r = POST_data body ->
       u_migrated (record u s) = true ->
       handle' r s = (Reply 400 AlreadyMigratedBody, s)).
Proof.
  split; [|split].
  - intros rs. induction rs as [|r rs IH]; intros s u Hm; [done|].
    simpl. apply IH. rewrite handle_record.
    destruct (user_of (session r)) as [v|]; [|done].
    case_decide; [subst|done]. by apply step_user_keeps_flag.
  - intros r s u Hm Hm'. rewrite handle_record in Hm'.
    destruct (user_of (session r)) as [v|] eqn:Ev; [|congruence].
    case_decide; [subst v|congruence].
    split; [done|].
    destruct (step_user_sets_flag _ _ _ _ Hm Hm') as (body & payload & Hc & Hv & _).
    exists body, payload. unfold handle. rewrite Ev, Hc. unfold data_POST.
    store_step. rewrite Hm, Hv. store_step.
    unfold Store.User.importUserData. simpl. rewrite !length_map.
    eexists. split; [done|]. split; [done|]. reflexivity.
  - intros r s u body Hu Hc Hm. unfold handle. rewrite Hu, Hc. unfold data_POST.
    store_step. rewrite Hm. by rewrite insert_id by (by apply migrated_present).
Qed.

End Steps.

(** * Referential integrity *)

Section Integrity.
Import JsArray Validation Props Api.

Variable Date_parse : string -> option string.

Lemma consistent_intro (ts : list Todo) (cs : list Category) (gs : list Tag) (m : bool) :
  Forall (todo_ok cs gs) ts -> consistent (mkUserData (map Some ts) cs gs m).
Proof.
  intros H. split; [by exists ts|].
  intros t Ht. simpl in *.
  apply list_elem_of_fmap in Ht as (t0 & [= ->] & Ht).
  by apply (proj1 (Forall_forall _ _) H).
Qed.

Lemma consistent_elim (d : UserData) :
  consistent d ->
  ∃ ts, d = mkUserData (map Some ts) (u_categories d) (u_tags d) (u_migrated d)
        ∧ Forall (todo_ok (u_categories d) (u_tags d)) ts.
Proof.
  intros [[ts Hts] Hrefs]. exists ts. split.
  - destruct d; simpl in *. by subst.
  - apply Forall_forall. intros t Ht. apply Hrefs. rewrite Hts.
    by apply (list_elem_of_fmap_2 Some).
Qed.

(** The payload of bulk validation is referentially closed. *)
Lemma payload_closed (now : string) (body : JSON) (payload : TodoState) :
  data (validateTodoState Date_parse now body) = Some payload ->
  Forall (todo_ok (st_categories payload) (st_tags payload)) (st_todos payload).
Proof.
  intros Hdata. assert (Hobj := validateTodoState_data _ _ _ _ Hdata).
  rewrite (validateTodoState_object _ now body Hobj) in Hdata.
  simpl in Hdata. injection Hdata as <-. simpl.
  apply Forall_forall. intros t Ht.
  apply list_elem_of_fmap in Ht as (t0 & -> & _).
  unfold crossValidate, todo_ok. simpl. split.
  - intros c. destruct (categoryId t0) as [c0|]; [|done].
    destruct (negb _); simpl; [|done].
    case_bool_decide as Hin; [|done]. intros [= <-].
    by apply elem_of_list_to_set in Hin.
  - intros g Hg. apply list_elem_of_filter in Hg as [Hin _].
    by apply elem_of_list_to_set in Hin.
Qed.

Lemma todo_ok_more_categories (cs : list Category) (gs : list Tag) (c : Category) (t : Todo) :
  todo_ok cs gs t -> todo_ok (cs ++ [c]) gs t.
Proof.
  intros [H1 H2]. split; [|done]. intros x Hx.
  unfold category_ids. rewrite map_app. apply elem_of_app. left. by apply H1.
Qed.

Lemma todo_ok_more_tags (cs : list Category) (gs : list Tag) (g : Tag) (t : Todo) :
  todo_ok cs gs t -> todo_ok cs (gs ++ [g]) t.
Proof.
  intros [H1 H2]. split; [done|]. intros x Hx.
  unfold tag_ids. rewrite map_app. apply elem_of_app. left. by apply H2.
Qed.

Lemma todo_ok_clearCategory (cs : list Category) (gs : list Tag) (C : string) (t : Todo) :
  todo_ok cs gs t ->
  todo_ok (filter (fun c => cat_id c ≠ C) cs) gs (Store.User.clearCategory C t).
Proof.
  intros [H1 H2]. unfold Store.User.clearCategory.
  destruct (categoryId t) as [c|] eqn:Ec.
  - destruct (String.eqb_spec c C) as [->|Hne]; split; simpl; try done.
    intros x. rewrite Ec. intros [= <-].
    specialize (H1 c eq_refl). unfold category_ids in *.
    apply list_elem_of_fmap in H1 as (k & -> & Hk).
    apply list_elem_of_fmap. exists k. split; [done|].
    by apply list_elem_of_filter.
  - split; [|done]. intros x. by rewrite Ec.
Qed.

Lemma todo_ok_removeTag (cs : list Category) (gs : list Tag) (T : string) (t : Todo) :
  todo_ok cs gs t ->
  todo_ok cs (filter (fun g => tag_id g ≠ T) gs) (Store.User.removeTag T t).
Proof.
  intros [H1 H2]. split; [done|]. simpl. intros g Hg.
  apply list_elem_of_filter in Hg as [Hne Hg].
  specialize (H2 g Hg). unfold tag_ids in *.
  apply list_elem_of_fmap in H2 as (k & -> & Hk).
  apply list_elem_of_fmap. exists k. split; [done|].
  by apply list_elem_of_filter.
Qed.

Lemma todo_ok_merge (cs : list Category) (gs : list Tag) (m : bool)
    (ts : list Todo) (old : Todo) (updates : PartialTodo) (now : string) :
  todo_ok cs gs old ->
  known_refs (mkUserData (map Some ts) cs gs m)
             (mjoin (p_categoryId updates)) (default [] (p_tags updates)) ->
  todo_ok cs gs (Store.User.merge old updates now).
Proof.
  intros [H1 H2] [K1 K2]. simpl in *. split; simpl.
  - destruct (p_categoryId updates) as [[c|]|]; simpl in *; try done.
  - destruct (p_tags updates) as [l|]; simpl in *; done.
Qed.

(** [findIndex] on an array of Todos: nothing found, or the first match. *)
Lemma findIndex_typed {X : Type} (p : X -> bool) (l : list X) :
  findIndex p (map Some l) = Returned None
  ∨ ∃ l1 x l2, l = l1 ++ x :: l2 ∧ findIndex p (map Some l) = Returned (Some (length l1)).
Proof.
  induction l as [|y l IH]; simpl; [by left|].
  destruct (p y) eqn:Ey.
  - right. by exists [], y, l.
  - destruct IH as [->|(l1 & x & l2 & -> & ->)]; [by left|].
    right. by exists (y :: l1), x, l2.
Qed.

Lemma reorder_consistent (fromIndex toIndex : number) (d : UserData) :
  consistent d ->
  clamp (length (u_todos d)) fromIndex < length (u_todos d) ->
  consistent (snd (Store.User.reorderUserTodos fromIndex toIndex d)).
Proof.
  intros Hd Hin. apply consistent_elim in Hd as (ts & Hts & Hok).
  destruct d as [todos cs gs m]. simpl in *. injection Hts as ->.
  unfold Store.User.reorderUserTodos, splice_out, splice_in. simpl.
  set (a := clamp (length (map Some ts)) fromIndex) in *.
  rewrite length_map in Hin.
  destruct (lookup_lt_is_Some_2 ts a Hin) as [x Hx].
  rewrite list_lookup_fmap, Hx. simpl.
  rewrite <- list_fmap_delete.
  set (p := clamp _ toIndex).
  assert (Heq : take p (Some <$> delete a ts) ++ Some x :: drop p (Some <$> delete a ts)
                = map Some (take p (delete a ts) ++ x :: drop p (delete a ts))).
  { by rewrite map_app, <- fmap_take, <- fmap_drop. }
  rewrite Heq. apply consistent_intro.
  assert (Hdel : Forall (todo_ok cs gs) (delete a ts)) by by apply Forall_delete.
  apply Forall_app. split; [by apply Forall_take|].
  constructor; [|by apply Forall_drop].
  apply (proj1 (Forall_forall _ _) Hok). by eapply list_elem_of_lookup_2.
Qed.

Lemma update_consistent (todoId now : string) (updates : PartialTodo) (d : UserData) :
  consistent d ->
  known_refs d (mjoin (p_categoryId updates)) (default [] (p_tags updates)) ->
  consistent (snd (Store.User.updateUserTodo todoId updates now d)).
Proof.
  intros Hd Hk. assert (Hd0 := Hd).
  apply consistent_elim in Hd as (ts & Hts & Hok).
  destruct d as [todos cs gs m]. simpl in *. injection Hts as ->.
  unfold Store.User.updateUserTodo. simpl.
  destruct (findIndex_typed (fun t => String.eqb (id t) todoId) ts)
    as [->|(l1 & old & l2 & -> & ->)]; [done|].
  rewrite lookup_typed_middle. simpl. rewrite insert_typed_middle.
  apply consistent_intro.
  apply Forall_app in Hok as [H1 H2]. apply Forall_cons in H2 as [Hold H2].
  apply Forall_app. split; [done|]. constructor; [|done].
  by eapply todo_ok_merge.
Qed.

(** Every endpoint keeps a record consistent, as long as a created or updated
    Todo names Categories and Tags of the record and a reorder starts from a
    position of the sequence. *)
Lemma step_user_consistent (c : Call) (now newId : string) (d : UserData) :
  consistent d -> respects d c ->
  consistent (step_user Date_parse c now newId d).
Proof.
  intros Hd Hr.
  destruct c as [|body| |body|id0|id0 body|id0| |body|id0| |body|id0];
    simpl in *; try done.
  - (* POST /api/data *)
    destruct (u_migrated d); [done|]. destruct body as [b|]; [|done].
    destruct (data (validateTodoState Date_parse now b)) as [payload|] eqn:E; [|done].
    simpl. apply consistent_intro. by eapply payload_closed.
  - (* POST /api/todos *)
    destruct body as [b|]; [|done].
    assert (Hgoal : consistent
              (if is_reorder b then
                 match Json.get b "fromIndex", Json.get b "toIndex" with
                 | Some (JNumber f), Some (JNumber t) =>
                     snd (Store.User.reorderUserTodos f t d)
                 | _, _ => d
                 end
               else
                 match valid (validateNewTodoInput b), data (validateNewTodoInput b) with
                 | true, Some (title, c, gs) =>
                     snd (Store.User.addUserTodo (mkTodo newId title false c gs now now) d)
                 | _, _ => d
                 end)).
    { destruct (is_reorder b).
      - destruct (Json.get b "fromIndex") as [[| |f| | |]|]; try done.
        destruct (Json.get b "toIndex") as [[| |t| | |]|]; try done.
        by apply reorder_consistent, Hr.
      - destruct (valid _); [|done].
        destruct (data (validateNewTodoInput b)) as [[[title c] gs]|]; [|done].
        specialize (Hr title c gs eq_refl) as [K1 K2].
        apply consistent_elim in Hd as (ts & Hts & Hok).
        destruct d as [todos cs gs0 m]. simpl in *. injection Hts as ->.
        apply (consistent_intro (_ :: ts)). constructor; [|done].
        split; simpl; done. }
    by destruct b.
  - (* PUT /api/todos/[id] *)
    destruct body as [b|]; [|done].
    destruct (valid _); [|done].
    destruct (data (validateUpdateTodoInput b)) as [updates|]; [|done].
    by apply update_consistent, Hr.
  - (* DELETE /api/todos/[id] *)
    apply consistent_elim in Hd as (ts & Hts & Hok).
    destruct d as [todos cs gs m]. simpl in *. injection Hts as ->.
    unfold Store.User.deleteUserTodo. simpl. rewrite elements_typed. simpl.
    apply consistent_intro.
    apply Forall_forall. intros t Ht. apply list_elem_of_filter in Ht as [_ Ht].
    by apply (proj1 (Forall_forall _ _) Hok).
  - (* POST /api/categories *)
    destruct body as [b|]; [|done].
    destruct (valid _); [|done].
    destruct (data (validateNewCategoryInput b)) as [[[name icon] color]|]; [|done].
    apply consistent_elim in Hd as (ts & Hts & Hok).
    destruct d as [todos cs gs m]. simpl in *. injection Hts as ->.
    apply consistent_intro.
    eapply Forall_impl; [exact Hok|]. intros t. apply todo_ok_more_categories.
  - (* DELETE /api/categories/[id] *)
    apply consistent_elim in Hd as (ts & Hts & Hok).
    destruct d as [todos cs gs m]. simpl in *. injection Hts as ->.
    unfold Store.User.deleteUserCategory. simpl. rewrite elements_typed. simpl.
    apply consistent_intro. apply Forall_fmap.
    eapply Forall_impl; [exact Hok|]. intros t. apply todo_ok_clearCategory.
  - (* POST /api/tags *)
    destruct body as [b|]; [|done].
    destruct (valid _); [|done].
    destruct (data (validateNewTagInput b)) as [[name color]|]; [|done].
    apply consistent_elim in Hd as (ts & Hts & Hok).
    destruct d as [todos cs gs m]. simpl in *. injection Hts as ->.
    apply consistent_intro.
    eapply Forall_impl; [exact Hok|]. intros t. apply todo_ok_more_tags.
  - (* DELETE /api/tags/[id] *)
    apply consistent_elim in Hd as (ts & Hts & Hok).
    destruct d as [todos cs gs m]. simpl in *. injection Hts as ->.
    unfold Store.User.deleteUserTag. simpl. rewrite elements_typed. simpl.
    apply consistent_intro. apply Forall_fmap.
    eapply Forall_impl; [exact Hok|]. intros t. apply todo_ok_removeTag.
Qed.

End Integrity.

Section IntegrityInvariant.
Import Validation Props Api.

Variable Date_parse : string -> option string.
Variable DEFAULT_CATEGORIES : list Category.
Variable DEFAULT_TAGS : list Tag.

Abbreviation record' := (Store.user_data DEFAULT_CATEGORIES DEFAULT_TAGS).
Abbreviation serve := (Api.handle Date_parse DEFAULT_CATEGORIES DEFAULT_TAGS).
Abbreviation serve_all := (Api.run Date_parse DEFAULT_CATEGORIES DEFAULT_TAGS).

(** C1, as the code has it. A user's record starts out consistent (every
    position of the todo sequence holds a Todo, every non-null [categoryId]
    names a Category of the record and every entry of a tag set names a Tag of
    the record) and every endpoint keeps it so: bulk import, the category and
    tag deletes, delete-todo, add-category and add-tag unconditionally;
    create-todo and update-todo when the category and the tags they are given
    exist in the record (they check the format of an id, not what it refers
    to); reorder when [fromIndex] is a position of the sequence. *)
Theorem referential_integrity_preserved :
  (∀ u : string, consistent (record' u ∅))
  ∧ (∀ (r : Request) (s : gmap string UserData) (u : string),
       consistent (record' u s) ->
       (user_of (session r) = Some u -> respects (record' u s) (call r)) ->
       consistent (record' u (snd (serve r s))))
  ∧ (∀ (rs : list Request) (s : gmap string UserData),
       (∀ u, consistent (record' u s)) ->
       all_respect Date_parse DEFAULT_CATEGORIES DEFAULT_TAGS rs s ->
       ∀ u, consistent (record' u (serve_all rs s))).
Proof.
  assert (Hstep : ∀ (r : Request) (s : gmap string UserData) (u : string),
             consistent (record' u s) ->
             (user_of (session r) = Some u -> respects (record' u s) (call r)) ->
             consistent (record' u (snd (serve r s)))).
  { intros r s u Hc Hr. rewrite handle_record.
    destruct (user_of (session r)) as [v|]; [|done].
    case_decide; [subst v|done].
    apply step_user_consistent; [done|]. by apply Hr. }
  split; [|split; [exact Hstep|]].
  - intros u. unfold Store.user_data. rewrite lookup_empty. simpl.
    apply (consistent_intro []). constructor.
  - intros rs. induction rs as [|r rs IH]; intros s Hall Hresp u; [apply Hall|].
    simpl in *. destruct Hresp as [Hr Hrest].
    apply IH; [|done]. intros v. apply Hstep; [apply Hall|apply Hr].
Qed.

End IntegrityInvariant.

(** * The sanitizer *)

Section Sanitizer.
Import Js Regex Validation.

Lemma remove_go_length (r : regex) (skip : nat) (prev : option ascii) (l : list ascii) :
  length (remove_go r skip prev l) ≤ length l.
Proof.
  revert skip prev. induction l as [|c l IH]; intros skip prev; simpl; [done|].
  destruct skip as [|n].
  - destruct (match_here r prev (c :: l)) as [rest|].
    + destruct (S (length l) - length rest) as [|n]; simpl.
      * specialize (IH 0 (Some c)). lia.
      * specialize (IH n (Some c)). lia.
    + simpl. specialize (IH 0 (Some c)). lia.
  - specialize (IH n (Some c)). lia.
Qed.

Lemma chars_str (l : list ascii) : chars (str l) = l.
Proof. apply String.list_ascii_of_string_of_list_ascii. Qed.

Lemma remove_all_length (r : regex) (s : string) :
  strlen (remove_all r s) ≤ strlen s.
Proof. unfold strlen, remove_all. rewrite chars_str. apply remove_go_length. Qed.

(** The part of C2 that holds: the input is trimmed and cut to the field's
    maximum before anything is removed, so the result is never longer than
    the maximum. *)
Lemma sanitizeString_bounded (s r : string) (maxLength : nat) :
  sanitizeString (Some (JString s)) maxLength = Some r ->
  strlen r ≤ maxLength
  ∧ r = remove_all HANDLER_REGEX (remove_all SCRIPT_REGEX (slice0 maxLength (trim s))).
Proof.
  unfold sanitizeString. intros [= <-]. split; [|done].
  etrans; [apply remove_all_length|]. etrans; [apply remove_all_length|].
  unfold strlen, slice0. rewrite chars_str, length_take. lia.
Qed.

(** C2, at inputs where it fails. Each pattern is removed in one pass, and
    what is left of the input can close up into a new match: the title
    [oonclick=nclick=alert(1)] comes out as [onclick=alert(1)], and the titles
    [<scr<script></script>ipt>alert(1)</script>] and
    [<scronx=ipt>alert(1)</script>] come out as [<script>alert(1)</script>];
    the results still match the event-handler pattern, the script pattern,
    and the create-todo validator accepts them as titles. *)
Theorem sanitizeString_leaves_patterns :
  sanitizeString (Some (JString "oonclick=nclick=alert(1)")) MAX_TITLE_LENGTH
  = Some "onclick=alert(1)"
  ∧ test HANDLER_REGEX "onclick=alert(1)" = true
  ∧ sanitizeString (Some (JString "<scr<script></script>ipt>alert(1)</script>"))
      MAX_TITLE_LENGTH
    = Some "<script>alert(1)</script>"
  ∧ sanitizeString (Some (JString "<scronx=ipt>alert(1)</script>")) MAX_TITLE_LENGTH
    = Some "<script>alert(1)</script>"
  ∧ test SCRIPT_REGEX "<script>alert(1)</script>" = true
  ∧ validateNewTodoInput (JObject [("title", JString "oonclick=nclick=alert(1)")])
    = mkResult true (Some ("onclick=alert(1)", None, [])) []
  ∧ validateNewTodoInput
      (JObject [("title", JString "<scr<script></script>ipt>alert(1)</script>")])
    = mkResult true (Some ("<script>alert(1)</script>", None, [])) [].
Proof. vm_compute. repeat split. Qed.

End Sanitizer.

(** * Worked instances *)

Section Instances.
Import Validation Props Api Samples.

Ltac member := repeat first [apply list_elem_of_here | apply list_elem_of_further].

(** The references of a sample Todo resolve. *)
Ltac resolves :=
  split; simpl; intros x Hx;
  [ try discriminate Hx; try (injection Hx; clear Hx; intros <-); member
  | repeat (apply elem_of_cons in Hx as [->|Hx]; [member|]);
    by apply elem_of_nil in Hx ].

(** C8 on the sample store. *)
Lemma reorder_first_to_last_witness :
  Store.user_data [] [] "u" store3 = typed [todoA; todoB; todoC] [work] [urgent; later] false
  ∧ Store.reorderUserTodos [] [] "u" (Fin 0) (Fin 2) store3
    = (Returned [Some todoB; Some todoC; Some todoA],
       <["u" := typed [todoB; todoC; todoA] [work] [urgent; later] false]> store3).
Proof.
  split; [reflexivity|].
  apply (reorder_first_to_last [] [] "u" todoA todoB todoC [work] [urgent; later] false store3).
  reflexivity.
Defined.

(** C10 on the sample store: [fromIndex = 5] on three Todos. *)
Lemma reorder_from_beyond_end_witness :
  at_or_beyond 3 (Fin 5)
  ∧ reorder_body reorder_request (Fin 5) (Fin 1)
  ∧ Store.reorderUserTodos [] [] "u" (Fin 5) (Fin 1) store3
    = (Returned [Some todoA; None; Some todoB; Some todoC],
       <["u" := mkUserData [Some todoA; None; Some todoB; Some todoC]
                           [work] [urgent; later] false]> store3)
  ∧ todos_POST [] [] "u" clock "id-1" (Some reorder_request) store3
    = (Reply 200 (TodosBody [Some todoA; None; Some todoB; Some todoC]),
       <["u" := mkUserData [Some todoA; None; Some todoB; Some todoC]
                           [work] [urgent; later] false]> store3).
Proof.
  assert (H1 : at_or_beyond 3 (Fin 5)) by (simpl; lia).
  assert (H2 : reorder_body reorder_request (Fin 5) (Fin 1)) by (repeat split).
  split; [exact H1|]. split; [exact H2|].
  destruct (reorder_from_beyond_end [] [] "u" clock "id-1" reorder_request
              (Fin 5) (Fin 1) store3 H1 H2) as (Hrun & Hpost & _).
  split; [exact Hrun|exact Hpost].
Defined.

(** C5 on the sample state: the third Todo loses its unknown category and
    its unknown tag, and stays. *)
Lemma cross_references_dropped_witness :
  data (validateTodoState no_dates clock local_state) = Some local_payload
  ∧ ∃ t' : Todo, st_todos local_payload !! 1 = Some t'
      ∧ id t' = "c" ∧ categoryId t' = None ∧ tags t' = ["g1"].
Proof.
  assert (H : data (validateTodoState no_dates clock local_state) = Some local_payload)
    by (vm_compute; reflexivity).
  split; [exact H|].
  destruct (cross_references_dropped no_dates clock local_state local_payload H)
    as (_ & _ & _ & Hall).
  destruct (Hall 1 (mkTodo "c" "third" false (Some "nope") ["g1"; "gone"] clock clock))
    as (t' & Hl & Hid & _ & _ & _ & _ & Hc & Ht).
  { vm_compute. reflexivity. }
  exists t'. split; [exact Hl|]. split; [exact Hid|].
  split; [rewrite Hc|rewrite Ht]; vm_compute; reflexivity.
Defined.

(** C4 on the sample state: two Todos are kept and the one warning names
    index 1. *)
Lemma bulk_validation_lenient_witness :
  Json.is_object local_state = true
  ∧ errors (validateTodoState no_dates clock local_state)
    = ["Todo at index 1: Invalid or missing todo title"]
  ∧ valid (validateTodoState no_dates clock local_state) = true.
Proof.
  split; [reflexivity|].
  destruct (bulk_validation_lenient no_dates clock local_state) as [_ H].
  destruct (H eq_refl) as (payload & warnings & Heq & _ & _ & _ & _ & _ & _ & _ & Hone).
  rewrite Heq. simpl.
  destruct (Hone [item_a] [item_c] item_b) as (-> & _).
  - reflexivity.
  - repeat constructor; vm_compute; reflexivity.
  - vm_compute; reflexivity.
  - change (category_items local_state) with (@nil JSON). constructor.
  - change (tag_items local_state)
      with [JObject [("id", JString "g1"); ("name", JString "Urgent");
                     ("color", JString "#ef4444")]].
    repeat constructor; vm_compute; reflexivity.
  - split; [|reflexivity]. vm_compute. reflexivity.
Defined.

(** C4 as stated fails on [null]: no payload, and the endpoint answers 400. *)
Lemma bulk_validation_rejects_null :
  validateTodoState no_dates clock JNull
  = mkResult false None ["State must be an object"]
  ∧ handle no_dates [] [] (migrate JNull) ∅
    = (Reply 400 (ErrorBody "Invalid data format" (Some ["State must be an object"])),
       {[ "u" := mkUserData [] [] [] false ]}).
Proof. split; vm_compute; reflexivity. Qed.





(** C6 on the sample store: deleting the category [c1] that two Todos carry,
    and deleting an id that nothing carries. *)
Lemma delete_category_cascades_witness :
  Store.user_data [] [] "u" store3 = typed [todoA; todoB; todoC] [work] [urgent; later] false
  ∧ "c1" ∈ category_ids [work]
  ∧ fst (Store.deleteUserCategory [] [] "u" "c1" store3) = Returned true
  ∧ Store.deleteUserCategory [] [] "u" "zzz" store3
    = (Returned false,
       <["u" := typed [todoA; todoB; todoC] [work] [urgent; later] false]> store3).
Proof.
  assert (Hin : "c1" ∈ category_ids [work]) by (simpl; left).
  split; [reflexivity|]. split; [exact Hin|].
  destruct (delete_category_cascades [] [] "u" "c1" [todoA; todoB; todoC] [work]
              [urgent; later] false store3 eq_refl) as (Hpresent & _).
  destruct (delete_category_cascades [] [] "u" "zzz" [todoA; todoB; todoC] [work]
              [urgent; later] false store3 eq_refl) as (_ & Habsent).
  split.
  - destruct (Hpresent Hin) as (ts' & Hrun & _). by rewrite Hrun.
  - assert (Hout : "zzz" ∉ category_ids [work]).
    { simpl. intros H. apply list_elem_of_singleton in H. discriminate H. }
    destruct (Habsent Hout) as (_ & Hsame). apply Hsame.
    intros t Ht.
    repeat (apply elem_of_cons in Ht as [->|Ht];
            [intros E; vm_compute in E; discriminate E|]).
    by apply not_elem_of_nil in Ht.
Defined.

(** C6 as stated fails where a Todo carries an id that no Category has:
    the call reports "not found" and yet clears that Todo's category. *)
Lemma delete_absent_category_mutates :
  ("ghost" ∉ category_ids [work])
  ∧ Store.deleteUserCategory [] [] "u" "ghost" store_dangling
    = (Returned false,
       {[ "u" := typed [mkTodo "A" "write report" false None [] clock clock]
                       [work] [] false ]})
  ∧ Store.user_data [] [] "u"
      (snd (Store.deleteUserCategory [] [] "u" "ghost" store_dangling))
    ≠ Store.user_data [] [] "u" store_dangling.
Proof.
  split; [|split].
  - simpl. intros H. apply list_elem_of_singleton in H. discriminate H.
  - vm_compute. reflexivity.
  - vm_compute. discriminate.
Qed.

(** C3 on the sample state: the first migration sets the flag; the second is
    turned away and the store stays as it was, as it does under any later
    requests. *)
Lemma migration_at_endpoints_witness :
  let s1 := snd (handle no_dates [] [] (migrate local_state) ∅) in
  u_migrated (Store.user_data [] [] "u" s1) = true
  ∧ handle no_dates [] [] (migrate local_state) s1 = (Reply 400 AlreadyMigratedBody, s1)
  ∧ u_migrated (Store.user_data [] [] "u"
                  (run no_dates [] [] [create_in "c1"; migrate local_state] s1)) = true.
Proof.
  intros s1.
  assert (Hm : u_migrated (Store.user_data [] [] "u" s1) = true)
    by (vm_compute; reflexivity).
  destruct (migration_at_endpoints no_dates [] []) as (Hkeep & _ & Hagain).
  split; [exact Hm|]. split.
  - apply (Hagain (migrate local_state) s1 "u" (Some local_state));
      [reflexivity|reflexivity|exact Hm].
  - apply Hkeep. exact Hm.
Defined.

(** C3 as stated fails at the store: [setUserData] puts the flag back to
    [false], [setUserMigrated] sets it without any import, and
    [importUserData] imports again over migrated data. *)
Lemma migrated_flag_unguarded_in_store :
  let imported := snd (Store.importUserData [] [] "u" local_payload ∅) in
  u_migrated (Store.user_data [] [] "u" imported) = true
  ∧ u_migrated
      (Store.user_data [] [] "u"
         (snd (Store.setUserData [] [] "u"
                 (mkPartialUserData None None None (Some false)) imported))) = false
  ∧ Store.user_data [] [] "u" (snd (Store.setUserMigrated [] [] "u" ∅))
    = mkUserData [] [] [] true
  ∧ Store.user_data [] [] "u"
      (snd (Store.importUserData [] [] "u" other_payload imported))
    = typed [todoB] [] [urgent; later] true.
Proof. vm_compute. repeat split. Qed.

(** C1 on the sample store: creating a Todo in a category the user has. *)
Lemma referential_integrity_preserved_witness :
  consistent (Store.user_data [] [] "u" store3)
  ∧ respects (Store.user_data [] [] "u" store3) (call (create_in "c1"))
  ∧ consistent (Store.user_data [] [] "u"
                  (snd (handle no_dates [] [] (create_in "c1") store3))).
Proof.
  assert (Hc : consistent (Store.user_data [] [] "u" store3)).
  { apply (consistent_intro [todoA; todoB; todoC] [work] [urgent; later] false).
    repeat (apply Forall_cons; split); [resolves..|apply Forall_nil; exact I]. }
  assert (Hr : respects (Store.user_data [] [] "u" store3) (call (create_in "c1"))).
  { intros title c gs Hv. vm_compute in Hv. simplify_eq.
    split; [intros x [= <-]; simpl; left|intros g Hg; by apply not_elem_of_nil in Hg]. }
  destruct (referential_integrity_preserved no_dates [] []) as (_ & Hstep & _).
  split; [exact Hc|]. split; [exact Hr|].
  apply Hstep; [exact Hc|]. intros _. exact Hr.
Defined.

(** C1 as stated fails at create-todo: a Todo created with a category id
    that no Category has is stored as it is. *)
Lemma dangling_reference_created :
  consistent (Store.user_data [] [] "u" store3)
  ∧ fst (handle no_dates [] [] (create_in "ghost") store3)
    = Reply 201 (TodoBody (mkTodo "id-1" "hi" false (Some "ghost") [] clock clock))
  ∧ ¬ refs_ok (Store.user_data [] [] "u"
                 (snd (handle no_dates [] [] (create_in "ghost") store3))).
Proof.
  split; [|split].
  - apply (consistent_intro [todoA; todoB; todoC] [work] [urgent; later] false).
    repeat (apply Forall_cons; split); [resolves..|apply Forall_nil; exact I].
  - vm_compute. reflexivity.
  - intros H.
    destruct (H (mkTodo "id-1" "hi" false (Some "ghost") [] clock clock)) as [H1 _].
    { vm_compute. left. }
    specialize (H1 "ghost" eq_refl). vm_compute in H1.
    apply list_elem_of_singleton in H1. discriminate H1.
Qed.

(** A second way out of C1, through the reorder of C10: once the sequence
    holds [undefined], deleting a category removes the Category and then
    throws before any Todo is cleared. *)
Lemma cascade_lost_after_undefined :
  let s1 := snd (handle no_dates [] []
                   (mkRequest (Some "u") clock "id-1" (POST_todos (Some reorder_request)))
                   store3) in
  handle no_dates [] [] (mkRequest (Some "u") clock "id-2" (DELETE_category "c1")) s1
  = (Uncaught,
     {[ "u" := mkUserData [Some todoA; None; Some todoB; Some todoC]
                          [] [urgent; later] false ]}).
Proof. vm_compute. reflexivity. Qed.

End Instances.

(** * Facts about the patterns *)

Section RegexFacts.
Import Js Regex Validation Laws.

Lemma search_begin (r : regex) (c : ascii) (l : list ascii) :
  search (Rseq Rbegin r) (Some c) l = false.
Proof.
  revert c. induction l as [|d l IH]; intros c; simpl; [done|]. apply IH.
Qed.

Lemma test_begin (r : regex) (s : string) :
  test (Rseq Rbegin r) s
  = match rmatch r None (chars s) (fun _ rest => Some rest) with
    | Some _ => true
    | None => false
    end.
Proof.
  unfold test. destruct (chars s) as [|c l]; cbn [search]; unfold match_here; cbn [rmatch].
  - by destruct (rmatch r None [] _).
  - destruct (rmatch r None (c :: l) _); [done|]. apply search_begin.
Qed.

Lemma rmatch_star_char_end (p : ascii -> bool) (prev : option ascii) (l : list ascii) :
  rmatch (Rstar (Rchar p)) prev l at_end = if forallb p l then Some [] else None.
Proof.
  revert prev. induction l as [|c l IH]; intros prev; [done|].
  cbn [rmatch length forallb].
  destruct (p c); [|done]. cbn [andb].
  rewrite (proj2 (Nat.ltb_lt (length l) (S (length l)))) by lia.
  specialize (IH (Some c)). cbn [rmatch] in IH. rewrite IH.
  by destruct (forallb p l).
Qed.

Lemma rmatch_rep_char (n : nat) (p : ascii -> bool) (prev : option ascii)
    (l : list ascii) (k : cont) (r : list ascii) :
  rmatch (Rrep n (Rchar p)) prev l k = Some r ->
  ∃ l1 l2 prev', l = l1 ++ l2 ∧ length l1 = n ∧ forallb p l1 = true ∧ k prev' l2 = Some r.
Proof.
  revert prev l. induction n as [|n IH]; intros prev l; simpl.
  - intros H. by exists [], l, prev.
  - destruct l as [|c l]; [done|]. destruct (p c) eqn:Ec; [|done].
    intros H. apply IH in H as (l1 & l2 & prev' & -> & <- & Hp & Hk).
    exists (c :: l1), l2, prev'. simpl. by rewrite Ec, Hp.
Qed.

Lemma rmatch_char (p : ascii -> bool) (prev : option ascii)
    (l : list ascii) (k : cont) (r : list ascii) :
  rmatch (Rchar p) prev l k = Some r ->
  ∃ c l', l = c :: l' ∧ p c = true ∧ k (Some c) l' = Some r.
Proof.
  simpl. destruct l as [|c l]; [done|]. destruct (p c) eqn:E; [|done]. eauto.
Qed.

Lemma safe_id_test (s : string) :
  test SAFE_ID_REGEX s = true <-> chars s ≠ [] ∧ forallb safe_id_char (chars s) = true.
Proof.
  change SAFE_ID_REGEX with (Rseq Rbegin (Rseq (Rplus (Rchar safe_id_char)) Rend)).
  rewrite test_begin. unfold Rplus. cbn [rmatch].
  destruct (chars s) as [|c l]; [split; [done|by intros [? _]]|].
  destruct (safe_id_char c) eqn:Ec; cbn [forallb andb]; rewrite ?Ec; cbn [andb].
  2:{ split; [done|by intros [_ ?]]. }
  pose proof (rmatch_star_char_end safe_id_char (Some c) l) as H.
  unfold at_end in H. cbn [rmatch] in H. cbn [rmatch]. rewrite H.
  destruct (forallb safe_id_char l); split; try done. by intros [_ ?].
Qed.

Lemma is_char_eq (a c : ascii) : is_char a c = true <-> c = a.
Proof.
  unfold is_char, code. rewrite N.eqb_eq. split; [|by intros ->].
  intros H. rewrite <- (ascii_N_embedding a), <- (ascii_N_embedding c). by rewrite H.
Qed.

Lemma rmatch_rep_char_app (n : nat) (p : ascii -> bool) (prev : option ascii)
    (l1 l2 : list ascii) (k : cont) :
  length l1 = n -> forallb p l1 = true ->
  ∃ prev', rmatch (Rrep n (Rchar p)) prev (l1 ++ l2) k = k prev' l2.
Proof.
  revert prev l1. induction n as [|n IH]; intros prev l1 Hl Hp.
  - destruct l1; [|done]. by exists prev.
  - destruct l1 as [|c l1]; [done|]. simpl in *.
    apply andb_true_iff in Hp as [Hc Hp]. rewrite Hc. apply IH; [lia|done].
Qed.

Lemma rmatch_seq (r1 r2 : regex) (prev : option ascii) (l : list ascii) (k : cont) :
  rmatch (Rseq r1 r2) prev l k = rmatch r1 prev l (fun prev' l' => rmatch r2 prev' l' k).
Proof. reflexivity. Qed.

Lemma rmatch_end (prev : option ascii) (l : list ascii) (k : cont) (r : list ascii) :
  rmatch Rend prev l k = Some r -> l = [] ∧ k prev [] = Some r.
Proof. simpl. by destruct l. Qed.

Lemma rmatch_char_ok (p : ascii -> bool) (prev : option ascii) (c : ascii)
    (l : list ascii) (k : cont) :
  p c = true -> rmatch (Rchar p) prev (c :: l) k = k (Some c) l.
Proof. simpl. by intros ->. Qed.

Lemma hex_color_test (s : string) :
  test HEX_COLOR_REGEX s = true
  <-> ∃ hs, chars s = "#"%char :: hs ∧ length hs = 6 ∧ forallb hex_digit hs = true.
Proof.
  change HEX_COLOR_REGEX
    with (Rseq Rbegin (Rseq (Rchar (is_char "#")) (Rseq (Rrep 6 (Rchar hex_digit)) Rend))).
  rewrite test_begin. split.
  - destruct (rmatch _ None (chars s) _) as [r|] eqn:E; [intros _|done].
    rewrite rmatch_seq in E.
    apply rmatch_char in E as (c & l & -> & Hc & E). apply is_char_eq in Hc as ->.
    rewrite rmatch_seq in E.
    apply rmatch_rep_char in E as (l1 & l2 & prev' & -> & Hl & Hp & E).
    apply rmatch_end in E as [-> _].
    exists l1. by rewrite app_nil_r.
  - intros (hs & -> & Hl & Hp).
    rewrite rmatch_seq, rmatch_char_ok by (by apply is_char_eq).
    rewrite rmatch_seq.
    destruct (rmatch_rep_char_app 6 hex_digit (Some "#"%char) hs []
                (fun prev' l' => rmatch Rend prev' l' (fun _ rest => Some rest)) Hl Hp)
      as [prev' H].
    rewrite app_nil_r in H. by rewrite H.
Qed.

(** Every character class of the UUID pattern lies inside the safe-id class,
    and no safe-id character is white space. *)
Lemma uuid_classes_safe (c : ascii) :
  hex_digit c || is_char "-" c || in_range 49 53 c
  || (is_char "8" c || is_char "9" c || is_char_ci "a" c || is_char_ci "b" c) = true ->
  safe_id_char c = true.
Proof.
  destruct c as [b0 b1 b2 b3 b4 b5 b6 b7].
  destruct b0, b1, b2, b3, b4, b5, b6, b7; vm_compute; congruence.
Qed.

Lemma safe_not_space (c : ascii) : safe_id_char c = true -> is_space c = false.
Proof.
  destruct c as [b0 b1 b2 b3 b4 b5 b6 b7].
  destruct b0, b1, b2, b3, b4, b5, b6, b7; vm_compute; congruence.
Qed.

Lemma forallb_weaken (p q : ascii -> bool) (l : list ascii) :
  (∀ c, p c = true -> q c = true) -> forallb p l = true -> forallb q l = true.
Proof.
  intros Hpq. induction l as [|c l IH]; simpl; [done|].
  rewrite !andb_true_iff. intros [Hc Hl]. split; [by apply Hpq|by apply IH].
Qed.

Ltac uuid_step E :=
  rewrite rmatch_seq in E;
  first [ apply rmatch_rep_char in E as (?l1 & ?l2 & ?prev & -> & ?Hl & ?Hp & E)
        | apply rmatch_char in E as (?c & ?l & -> & ?Hc & E) ].

Lemma uuid_test (s : string) :
  isValidUUID s = true ->
  length (chars s) = 36 ∧ forallb safe_id_char (chars s) = true.
Proof.
  unfold isValidUUID.
  change uuidRegex with
    (Rseq Rbegin
       (Rseqs [Rrep 8 (Rchar hex_digit); Rchar (is_char "-");
               Rrep 4 (Rchar hex_digit); Rchar (is_char "-");
               Rchar (in_range 49 53); Rrep 3 (Rchar hex_digit); Rchar (is_char "-");
               Rchar (fun c => is_char "8" c || is_char "9" c
                               || is_char_ci "a" c || is_char_ci "b" c);
               Rrep 3 (Rchar hex_digit); Rchar (is_char "-");
               Rrep 12 (Rchar hex_digit); Rend])).
  rewrite test_begin.
  destruct (rmatch _ None (chars s) _) as [r|] eqn:E; [intros _|done].
  cbn [Rseqs] in E.
  do 11 uuid_step E.
  apply rmatch_end in E as [-> _].
  split.
  - repeat (rewrite length_app || rewrite length_cons). cbn [length]. lia.
  - repeat (rewrite forallb_app || cbn [forallb]).
    repeat match goal with
           | H : forallb hex_digit _ = true |- _ =>
               apply (forallb_weaken hex_digit safe_id_char) in H;
               [rewrite H|intros ? Hh; apply uuid_classes_safe; by rewrite Hh]
           | H : is_char "-" _ = true |- _ =>
               rewrite (uuid_classes_safe _) by (rewrite H; by rewrite ?orb_true_r);
               clear H
           | H : in_range 49 53 _ = true |- _ =>
               rewrite (uuid_classes_safe _) by (rewrite H; by rewrite ?orb_true_r);
               clear H
           | H : _ || _ = true |- _ =>
               rewrite (uuid_classes_safe _) by (rewrite H; by rewrite ?orb_true_r);
               clear H
           end.
    reflexivity.
Qed.

End RegexFacts.

(** * Facts about the validators *)

Section ValidatorFacts.
Import Js Regex Validation Props Laws.

Ltac member := repeat first [apply list_elem_of_here | apply list_elem_of_further].

Lemma str_chars (s : string) : str (chars s) = s.
Proof. apply String.string_of_list_ascii_of_string. Qed.

Lemma drop_space_id (l : list ascii) :
  forallb safe_id_char l = true -> drop_space l = l.
Proof.
  destruct l as [|c l]; simpl; [done|]. rewrite andb_true_iff. intros [Hc _].
  by rewrite (safe_not_space c Hc).
Qed.

Lemma trim_safe (s : string) :
  forallb safe_id_char (chars s) = true -> trim s = s.
Proof.
  intros H. unfold trim, trim_chars. rewrite (drop_space_id _ H).
  rewrite drop_space_id, rev_involutive; [apply str_chars|].
  rewrite forallb_forall in *. intros c Hc. apply H. by apply in_rev.
Qed.

Lemma slice0_short (n : nat) (s : string) : strlen s ≤ n -> slice0 n s = s.
Proof. intros H. unfold slice0. rewrite take_ge by done. apply str_chars. Qed.

Lemma slice0_length (n : nat) (s : string) : strlen (slice0 n s) ≤ n.
Proof. unfold strlen, slice0. rewrite chars_str, length_take. lia. Qed.

Lemma validateId_valid (v : option JSON) (s : string) :
  validateId v = Some s -> valid_id s.
Proof.
  intros H. assert (Hne := validateId_nonempty v s H).
  unfold validateId in H. destruct v as [[]|]; try discriminate.
  destruct (test SAFE_ID_REGEX _) eqn:Es; simpl in H.
  - injection H as <-. split; [split; [lia|apply slice0_length]|].
    by apply safe_id_test in Es as [_ ?].
  - destruct (isValidUUID _) eqn:Eu; simpl in H; [|discriminate].
    injection H as <-. split; [split; [lia|apply slice0_length]|].
    by apply uuid_test in Eu as [_ ?].
Qed.

Lemma valid_id_test (s : string) : valid_id s -> test SAFE_ID_REGEX s = true.
Proof.
  intros [[Hlo _] Hsafe]. apply safe_id_test. split; [|done].
  unfold strlen in Hlo. destruct (chars s); simpl in *; [lia|done].
Qed.

Lemma validateId_of_valid (s : string) :
  valid_id s -> validateId (Some (JString s)) = Some s.
Proof.
  intros Hv. assert (Ht := valid_id_test s Hv). destruct Hv as [[Hlo Hhi] Hsafe].
  unfold validateId. rewrite (trim_safe s Hsafe), (slice0_short _ s Hhi).
  by rewrite Ht.
Qed.

(** X1. [validateId] accepts exactly the strings that, once trimmed and cut
    to 100 characters, are 1 to 100 characters among [a-zA-Z0-9_-]; the
    result is that trimmed and cut string.  Anything that is not a string is
    turned away. *)
Theorem validateId_exact (v : option JSON) (r : string) :
  validateId v = Some r
  <-> ∃ s, v = Some (JString s) ∧ r = slice0 MAX_ID_LENGTH (trim s) ∧ valid_id r.
Proof.
  split.
  - intros H. assert (Hv := validateId_valid _ _ H).
    unfold validateId in H. destruct v as [[]|]; try discriminate.
    eexists. split; [reflexivity|]. split; [|done].
    destruct (test SAFE_ID_REGEX _); simpl in H; [by injection H|].
    destruct (isValidUUID _); simpl in H; [by injection H|done].
  - intros (s & -> & -> & Hv). unfold validateId.
    by rewrite (valid_id_test _ Hv).
Qed.

(** X2. An id that [validateId] has returned passes [validateId] again
    unchanged: validating is idempotent, so an id the server has stored is
    accepted as it is wherever it comes back in a later request. *)
Theorem validateId_idempotent (v : option JSON) (r : string) :
  validateId v = Some r -> validateId (Some (JString r)) = Some r.
Proof. intros H. by apply validateId_of_valid, (validateId_valid v). Qed.

(** X3. The UUID test of [validateId] never decides anything: every string
    that [isValidUUID] accepts has 36 characters and already matches
    [SAFE_ID_REGEX], so [validateId] returns the sanitized string exactly when
    [SAFE_ID_REGEX] matches it. *)
Theorem uuid_check_redundant (s : string) :
  (isValidUUID s = true -> strlen s = 36 ∧ test SAFE_ID_REGEX s = true)
  ∧ validateId (Some (JString s))
    = if test SAFE_ID_REGEX (slice0 MAX_ID_LENGTH (trim s))
      then Some (slice0 MAX_ID_LENGTH (trim s)) else None.
Proof.
  assert (Hu : ∀ s0, isValidUUID s0 = true -> strlen s0 = 36 ∧ test SAFE_ID_REGEX s0 = true).
  { intros s0 H. apply uuid_test in H as [Hl Hs]. split; [done|].
    apply safe_id_test. split; [|done]. destruct (chars s0); [done|done]. }
  split; [apply Hu|]. unfold validateId.
  destruct (test SAFE_ID_REGEX _) eqn:Et; [done|].
  destruct (isValidUUID _) eqn:Eu; [|done].
  apply Hu in Eu as [_ Eu]. congruence.
Qed.

Lemma validateColor_hex (v : option JSON) (r : string) :
  validateColor v = Some r -> hex_color r.
Proof.
  unfold validateColor. destruct v as [[]|]; try discriminate.
  destruct (test HEX_COLOR_REGEX _) eqn:E; simpl; [|discriminate].
  intros [= <-]. by apply hex_color_test.
Qed.

(** X4. [validateColor] accepts exactly the strings whose trimmed form is
    [#] followed by six hexadecimal digits, and returns the trimmed form. *)
Theorem validateColor_exact (v : option JSON) (r : string) :
  validateColor v = Some r
  <-> ∃ s, v = Some (JString s) ∧ r = trim s ∧ hex_color r.
Proof.
  split.
  - intros H. assert (Hh := validateColor_hex _ _ H).
    unfold validateColor in H. destruct v as [[]|]; try discriminate.
    destruct (test HEX_COLOR_REGEX _); simpl in H; [|discriminate].
    injection H as <-. by eexists.
  - intros (s & -> & -> & H). unfold validateColor, hex_color in *.
    apply hex_color_test in H. by rewrite H.
Qed.

Lemma sanitizeString_text (v : option JSON) (n : nat) (r : string) :
  sanitizeString v n = Some r -> missing (Some r) = false -> bounded_text n r.
Proof.
  intros H Hm. destruct v as [[]|]; try discriminate.
  apply sanitizeString_bounded in H as [Hle _]. split; [|done].
  simpl in Hm. destruct (strlen r); [done|lia].
Qed.

Lemma missing_Some (o : option string) :
  missing o = false -> ∃ r, o = Some r.
Proof. destruct o; [eauto|done]. Qed.

Lemma length_omap_le {X Y : Type} (f : X -> option Y) (l : list X) :
  length (omap f l) ≤ length l.
Proof.
  induction l as [|x l IH]; [done|]. cbn [omap list_omap].
  destruct (f x); cbn [length]; [by apply le_n_S|by apply Nat.le_le_succ_r].
Qed.

Lemma validTagIds_bounded (xs : list JSON) :
  length (validTagIds xs) ≤ MAX_TAGS_PER_TODO ∧ Forall valid_id (validTagIds xs).
Proof.
  unfold validTagIds. split.
  - pose proof (length_omap_le (fun tag => validateId (Some tag))
                  (take MAX_TAGS_PER_TODO xs)) as H1.
    rewrite length_take in H1. lia.
  - apply Forall_forall. intros g Hg.
    apply list_elem_of_omap in Hg as (x & _ & Hx). by eapply validateId_valid.
Qed.

Lemma validateTodo_data_bounded (Date_parse : string -> option string) (now : string)
    (x : JSON) (t : Todo) :
  data (validateTodo Date_parse now x) = Some t -> todo_bounded t.
Proof.
  unfold validateTodo.
  destruct (negb (Json.is_object x)); [done|].
  assert (Htags : length (match is_array (Json.get x "tags") with
                          | Some xs => validTagIds xs
                          | None => []
                          end) ≤ MAX_TAGS_PER_TODO
                  ∧ Forall valid_id (match is_array (Json.get x "tags") with
                                     | Some xs => validTagIds xs
                                     | None => []
                                     end)).
  { destruct (is_array (Json.get x "tags")); [apply validTagIds_bounded|].
    split; [unfold MAX_TAGS_PER_TODO; simpl; lia|constructor]. }
  destruct (missing (validateId (Json.get x "id"))) eqn:Eid.
  { destruct (Json.get x "categoryId") as [[]|]; try destruct (validateId (Some _));
      simpl; done. }
  destruct (missing (sanitizeString (Json.get x "title") MAX_TITLE_LENGTH)) eqn:Et.
  { destruct (Json.get x "categoryId") as [[]|]; try destruct (validateId (Some _));
      simpl; done. }
  destruct (missing_Some _ Eid) as [i Hi]. destruct (missing_Some _ Et) as [ti Hti].
  rewrite Hi, Hti in *.
  assert (Hi' := validateId_valid _ _ Hi).
  assert (Hti' := sanitizeString_text _ _ _ Hti Et).
  destruct Htags as [Hlen Hall].
  destruct (Json.get x "categoryId") as [c0|] eqn:Ec.
  2:{ simpl. intros [= <-].
      split; [exact Hi'|]. split; [exact Hti'|]. simpl. by split. }
  destruct (validateId (Some c0)) as [cid|] eqn:Ev.
  - assert (Hc := validateId_valid _ _ Ev).
    destruct c0; simpl; try discriminate Ev. intros [= <-].
    split; [exact Hi'|]. split; [exact Hti'|]. simpl.
    split; [|by split]. by intros ? [= <-].
  - destruct c0; simpl; try done. intros [= <-].
    split; [exact Hi'|]. split; [exact Hti'|]. simpl. by split.
Qed.

(** X5. [validateTodo] either accepts, with no error and a Todo whose id is
    1 to 100 safe characters, whose title has 1 to 500 characters, whose
    category (if any) is such an id and whose tag set holds at most 20 such
    ids; or rejects, with no Todo and at least one error. *)
Theorem validateTodo_bounds (Date_parse : string -> option string) (now : string) (x : JSON) :
  (valid (validateTodo Date_parse now x) = true ->
   errors (validateTodo Date_parse now x) = []
   ∧ ∃ t, data (validateTodo Date_parse now x) = Some t ∧ todo_bounded t)
  ∧ (valid (validateTodo Date_parse now x) = false ->
     data (validateTodo Date_parse now x) = None
     ∧ errors (validateTodo Date_parse now x) ≠ []).
Proof.
  assert (Hshape :
    (valid (validateTodo Date_parse now x) = true ->
     errors (validateTodo Date_parse now x) = []
     ∧ is_Some (data (validateTodo Date_parse now x)))
    ∧ (valid (validateTodo Date_parse now x) = false ->
       data (validateTodo Date_parse now x) = None
       ∧ errors (validateTodo Date_parse now x) ≠ [])).
  { unfold validateTodo.
    destruct (negb (Json.is_object x)); [by split|].
    destruct (missing (validateId (Json.get x "id"))),
      (missing (sanitizeString (Json.get x "title") MAX_TITLE_LENGTH)),
      (Json.get x "categoryId") as [[]|]; try destruct (validateId (Some _));
      simpl; (split; [|done]); try done; intros _; (split; [done|]); eauto. }
  destruct Hshape as [H1 H2]. split; [|exact H2].
  intros Hv. destruct (H1 Hv) as [He [t Ht]]. split; [exact He|].
  exists t. split; [exact Ht|]. by eapply validateTodo_data_bounded.
Qed.

Lemma id_field (v : option JSON) :
  missing (validateId v) = false -> valid_id (default "" (validateId v)).
Proof.
  intros H. destruct (missing_Some _ H) as [i Hi]. rewrite Hi. simpl.
  by eapply validateId_valid.
Qed.

Lemma text_field (v : option JSON) (n : nat) :
  missing (sanitizeString v n) = false ->
  bounded_text n (default "" (sanitizeString v n)).
Proof.
  intros H. destruct (missing_Some _ H) as [r Hr]. rewrite Hr in *. simpl.
  by eapply sanitizeString_text.
Qed.

Lemma color_field (v : option JSON) :
  missing (validateColor v) = false -> hex_color (default "" (validateColor v)).
Proof.
  intros H. destruct (missing_Some _ H) as [r Hr]. rewrite Hr. simpl.
  by eapply validateColor_hex.
Qed.

Lemma validateCategory_data_bounded (x : JSON) (c : Category) :
  data (validateCategory x) = Some c -> category_bounded c.
Proof.
  unfold validateCategory.
  destruct (negb (Json.is_object x)); [done|].
  destruct (missing (validateId (Json.get x "id"))) eqn:Eid,
    (missing (sanitizeString (Json.get x "name") MAX_NAME_LENGTH)) eqn:En,
    (missing (sanitizeString (Json.get x "icon") MAX_ICON_LENGTH)) eqn:Eic,
    (missing (validateColor (Json.get x "color"))) eqn:Ecol; simpl; try done.
  intros [= <-]. unfold category_bounded. simpl.
  auto using id_field, text_field, color_field.
Qed.

Lemma validateTag_data_bounded (x : JSON) (g : Tag) :
  data (validateTag x) = Some g -> tag_bounded g.
Proof.
  unfold validateTag.
  destruct (negb (Json.is_object x)); [done|].
  destruct (missing (validateId (Json.get x "id"))) eqn:Eid,
    (missing (sanitizeString (Json.get x "name") MAX_NAME_LENGTH)) eqn:En,
    (missing (validateColor (Json.get x "color"))) eqn:Ecol; simpl; try done.
  intros [= <-]. unfold tag_bounded. simpl.
  auto using id_field, text_field, color_field.
Qed.

(** X6. [validateCategory] and [validateTag] either accept, with no error and
    an entity whose id is 1 to 100 safe characters, whose name has 1 to 100
    characters (and whose icon has 1 to 50), and whose colour is [#] and six
    hexadecimal digits; or reject, with no entity and at least one error. *)
Theorem validateCategory_validateTag_bounds (x : JSON) :
  (valid (validateCategory x) = true ->
   errors (validateCategory x) = []
   ∧ ∃ c, data (validateCategory x) = Some c ∧ category_bounded c)
  ∧ (valid (validateCategory x) = false ->
     data (validateCategory x) = None ∧ errors (validateCategory x) ≠ [])
  ∧ (valid (validateTag x) = true ->
     errors (validateTag x) = []
     ∧ ∃ g, data (validateTag x) = Some g ∧ tag_bounded g)
  ∧ (valid (validateTag x) = false ->
     data (validateTag x) = None ∧ errors (validateTag x) ≠ []).
Proof.
  assert (Hc : ∀ c, data (validateCategory x) = Some c -> category_bounded c)
    by apply validateCategory_data_bounded.
  assert (Hg : ∀ g, data (validateTag x) = Some g -> tag_bounded g)
    by apply validateTag_data_bounded.
  revert Hc Hg. unfold validateCategory, validateTag.
  destruct (negb (Json.is_object x)); [by repeat split|].
  destruct (missing (validateId (Json.get x "id"))),
    (missing (sanitizeString (Json.get x "name") MAX_NAME_LENGTH)),
    (missing (sanitizeString (Json.get x "icon") MAX_ICON_LENGTH)),
    (missing (validateColor (Json.get x "color"))); simpl; intros Hc Hg;
    (split; [|split; [|split]]); try done;
    intros _; (split; [done|]); eexists; (split; [reflexivity|]); auto.
Qed.

Lemma crossValidate_bounded (cids gids : gset string) (t : Todo) :
  todo_bounded t -> todo_bounded (crossValidate cids gids t).
Proof.
  intros (Hi & Ht & Hc & Hl & Hall). unfold crossValidate, todo_bounded. simpl.
  split; [done|]. split; [done|]. split; [|split].
  - intros c. destruct (categoryId t) as [c0|]; [|done].
    destruct (_ && _); [|done]. intros [= <-]. by apply Hc.
  - etrans; [apply length_filter|done].
  - apply Forall_forall. intros g Hg. apply list_elem_of_filter in Hg as [_ Hg].
    by apply (proj1 (Forall_forall _ _) Hall).
Qed.

Lemma accepted_data {T : Type} (validate : JSON -> ValidationResult T) (x : JSON) (y : T) :
  accepted validate x = Some y -> data (validate x) = Some y.
Proof. unfold accepted. by destruct (valid (validate x)). Qed.

Lemma payload_bounded (Date_parse : string -> option string) (now : string)
    (state : JSON) (payload : TodoState) :
  data (validateTodoState Date_parse now state) = Some payload ->
  Forall todo_bounded (st_todos payload)
  ∧ Forall category_bounded (st_categories payload)
  ∧ Forall tag_bounded (st_tags payload).
Proof.
  intros Hdata. assert (Hobj := validateTodoState_data _ _ _ _ Hdata).
  rewrite (validateTodoState_object _ now state Hobj) in Hdata.
  simpl in Hdata. injection Hdata as <-. simpl.
  rewrite !validate_items_fst.
  split; [|split].
  - apply Forall_fmap, Forall_forall. intros t Ht.
    apply list_elem_of_omap in Ht as (x & _ & Hx). simpl.
    apply crossValidate_bounded.
    by eapply validateTodo_data_bounded, accepted_data.
  - apply Forall_forall. intros c Hc.
    apply list_elem_of_omap in Hc as (x & _ & Hx).
    by eapply validateCategory_data_bounded, accepted_data.
  - apply Forall_forall. intros g Hg.
    apply list_elem_of_omap in Hg as (x & _ & Hx).
    by eapply validateTag_data_bounded, accepted_data.
Qed.

(** X7. Whatever bulk validation lets through is bounded: at most 10000
    Todos, 100 Categories and 100 Tags, and every one of them within the
    limits of X5 and X6, also after the cross-reference step. *)
Theorem validateTodoState_caps (Date_parse : string -> option string) (now : string)
    (state : JSON) (payload : TodoState) :
  data (validateTodoState Date_parse now state) = Some payload ->
  length (st_todos payload) ≤ MAX_TODOS
  ∧ length (st_categories payload) ≤ MAX_CATEGORIES
  ∧ length (st_tags payload) ≤ MAX_TAGS
  ∧ Forall todo_bounded (st_todos payload)
  ∧ Forall category_bounded (st_categories payload)
  ∧ Forall tag_bounded (st_tags payload).
Proof.
  intros Hdata. destruct (payload_bounded _ _ _ _ Hdata) as (H1 & H2 & H3).
  assert (Hlen : length (st_todos payload) ≤ MAX_TODOS
                 ∧ length (st_categories payload) ≤ MAX_CATEGORIES
                 ∧ length (st_tags payload) ≤ MAX_TAGS).
  { assert (Hobj := validateTodoState_data _ _ _ _ Hdata).
    rewrite (validateTodoState_object _ now state Hobj) in Hdata.
    simpl in Hdata. injection Hdata as <-. simpl.
    rewrite !validate_items_fst.
    assert (Hcap : ∀ (cap : nat) (v : option JSON), length (capped cap v) ≤ cap).
    { intros cap v. unfold capped. destruct (is_array v); simpl; [|lia].
      rewrite length_take. lia. }
    unfold todo_items, category_items, tag_items.
    split; [rewrite length_map; etrans; [apply length_omap_le|apply Hcap]|].
    split; etrans; [apply length_omap_le|apply Hcap|apply length_omap_le|apply Hcap]. }
  destruct Hlen as (L1 & L2 & L3). by repeat split.
Qed.

(** X8. The four request validators read only the properties they name: two
    inputs that agree on those properties (and on being objects) get the same
    result, whatever else they carry.  In particular an [id], a [createdAt]
    or an [updatedAt] in the body of an update has no effect. *)
Theorem unknown_fields_ignored (a b : JSON) :
  (same_on ["title"; "completed"; "categoryId"; "tags"] a b ->
   validateUpdateTodoInput a = validateUpdateTodoInput b)
  ∧ (same_on ["title"; "categoryId"; "tags"] a b ->
     validateNewTodoInput a = validateNewTodoInput b)
  ∧ (same_on ["name"; "icon"; "color"] a b ->
     validateNewCategoryInput a = validateNewCategoryInput b)
  ∧ (same_on ["name"; "color"] a b ->
     validateNewTagInput a = validateNewTagInput b).
Proof.
  repeat split; intros [Ho Hk].
  - unfold validateUpdateTodoInput, Json.has.
    rewrite Ho, (Hk "title"), (Hk "completed"), (Hk "categoryId"), (Hk "tags")
      by member. reflexivity.
  - unfold validateNewTodoInput.
    rewrite Ho, (Hk "title"), (Hk "categoryId"), (Hk "tags") by member. reflexivity.
  - unfold validateNewCategoryInput.
    rewrite Ho, (Hk "name"), (Hk "icon"), (Hk "color") by member. reflexivity.
  - unfold validateNewTagInput.
    rewrite Ho, (Hk "name"), (Hk "color") by member. reflexivity.
Qed.

(** X9. A [categoryId] that is present, not [null] and not a valid id is
    treated in two ways: the update validator and the bulk validator reject
    the input with "Invalid category ID format", while the create validator
    reports nothing, decides on the title alone and creates the Todo without
    a category. *)
Theorem malformed_category_id (Date_parse : string -> option string) (now : string)
    (body c : JSON) :
  Json.is_object body = true ->
  Json.get body "categoryId" = Some c ->
  c ≠ JNull ->
  validateId (Some c) = None ->
  (valid (validateUpdateTodoInput body) = false
   ∧ "Invalid category ID format" ∈ errors (validateUpdateTodoInput body))
  ∧ (valid (validateTodo Date_parse now body) = false
     ∧ "Invalid category ID format" ∈ errors (validateTodo Date_parse now body))
  ∧ (valid (validateNewTodoInput body)
     = negb (missing (sanitizeString (Json.get body "title") MAX_TITLE_LENGTH))
     ∧ ("Invalid category ID format" ∉ errors (validateNewTodoInput body))
     ∧ ∀ title cat gs,
         data (validateNewTodoInput body) = Some (title, cat, gs) -> cat = None).
Proof.
  intros Hobj Hc Hnull Hv. split; [|split].
  - unfold validateUpdateTodoInput, Json.has. rewrite Hobj, Hc.
    destruct c; try done; cbv beta iota; rewrite Hv.
    all: destruct (Json.get body "title") as [t|];
      [destruct (missing (sanitizeString (Some t) MAX_TITLE_LENGTH))|];
      destruct (Json.get body "completed") as [[]|];
      destruct (Json.get body "tags") as [[]|]; simpl; (split; [done|]); member.
  - unfold validateTodo. rewrite Hobj, Hc.
    destruct c; try done; cbv beta iota; rewrite Hv.
    all: destruct (missing (validateId (Json.get body "id")));
      destruct (missing (sanitizeString (Json.get body "title") MAX_TITLE_LENGTH));
      simpl; (split; [done|]); member.
  - unfold validateNewTodoInput. rewrite Hobj, Hc.
    destruct c; try done; cbv beta iota; rewrite Hv.
    all: destruct (missing (sanitizeString (Json.get body "title") MAX_TITLE_LENGTH));
      simpl; (split; [done|]); (split; [|intros ???; congruence]).
    all: rewrite ?elem_of_cons, ?elem_of_nil; intros H; repeat destruct H as [H|H]; done.
Qed.

End ValidatorFacts.

(** * Facts about reordering and about single records *)

Section ReorderInRange.
Import JsArray Laws.
Context {A : Type}.

Lemma clamp_nat (len i : nat) : i ≤ len -> clamp len (Fin (Z.of_nat i)) = i.
Proof. intros H. rewrite clamp_inside by lia. lia. Qed.

Lemma move_eq (i j : nat) (arr : list (option A)) (x : option A) :
  arr !! i = Some x -> j < length arr ->
  move i j arr = take j (delete i arr) ++ x :: drop j (delete i arr).
Proof.
  intros Hi Hj. assert (Hlt := lookup_lt_Some _ _ _ Hi).
  unfold move, splice_out, splice_in.
  rewrite (clamp_nat (length arr) i) by lia. rewrite Hi. cbv beta iota zeta.
  rewrite clamp_nat; [done|]. rewrite length_delete by eauto. lia.
Qed.

Lemma move_spec (i j : nat) (arr : list (option A)) :
  i < length arr -> j < length arr ->
  length (move i j arr) = length arr
  ∧ move i j arr !! j = arr !! i
  ∧ delete j (move i j arr) = delete i arr
  ∧ move i j arr ≡ₚ arr
  ∧ move j i (move i j arr) = arr.
Proof.
  intros Hi Hj. destruct (lookup_lt_is_Some_2 arr i Hi) as [x Hx].
  rewrite (move_eq i j arr x Hx Hj).
  assert (Hd : length (delete i arr) = length arr - 1) by (rewrite length_delete; eauto).
  assert (Ht : length (take j (delete i arr)) = j) by (rewrite length_take; lia).
  assert (Hlook : (take j (delete i arr) ++ x :: drop j (delete i arr)) !! j = Some x).
  { rewrite lookup_app_r by lia. by rewrite Ht, Nat.sub_diag. }
  assert (Hdel : delete j (take j (delete i arr) ++ x :: drop j (delete i arr))
                 = delete i arr).
  { rewrite <- Ht at 1. rewrite delete_middle. apply take_drop. }
  split; [rewrite length_app, Ht; simpl; rewrite length_drop; lia|].
  split; [by rewrite Hlook, Hx|]. split; [exact Hdel|]. split.
  - rewrite <- Permutation_middle, take_drop. symmetry. by apply delete_Permutation.
  - rewrite (move_eq j i _ x Hlook).
    2:{ rewrite length_app, Ht. simpl. rewrite length_drop. lia. }
    rewrite Hdel. rewrite delete_take_drop.
    rewrite take_app_le, take_take, Nat.min_id by (rewrite length_take; lia).
    rewrite drop_app_ge by (rewrite length_take; lia).
    rewrite length_take, Nat.min_l, Nat.sub_diag by lia. simpl.
    rewrite <- (take_drop_middle arr i x Hx) at 3. done.
Qed.
End ReorderInRange.

Section UserFacts.
Import JsArray Validation Props Api Laws.

Lemma reorder_move (i j : nat) (d : UserData) :
  snd (Store.User.reorderUserTodos (Fin (Z.of_nat i)) (Fin (Z.of_nat j)) d)
  = mkUserData (move i j (u_todos d)) (u_categories d) (u_tags d) (u_migrated d).
Proof.
  unfold Store.User.reorderUserTodos, move. by destruct (splice_out _ _).
Qed.

Lemma elements_Returned {X : Type} (arr : list (option X)) (xs : list X) :
  elements arr = Returned xs -> arr = map Some xs.
Proof.
  revert xs. induction arr as [|[x|] arr IH]; intros xs; simpl; [by intros [= <-]| |done].
  destruct (elements arr) as [ys|]; [|done]. intros [= <-]. simpl. f_equal. by apply IH.
Qed.

Lemma filter_same_length {X : Type} (P : X -> Prop) `{!∀ x, Decision (P x)} (l : list X) :
  length (filter P l) = length l -> filter P l = l.
Proof.
  induction l as [|x l IH]; [done|]. rewrite filter_cons.
  destruct (decide (P x)); simpl.
  - intros [= Hl]. f_equal. by apply IH.
  - intros Hl. pose proof (length_filter P l). lia.
Qed.

Lemma updateUserTodo_miss (todoId now : string) (updates : PartialTodo) (d : UserData) :
  fst (Store.User.updateUserTodo todoId updates now d) = Returned None
  ∨ fst (Store.User.updateUserTodo todoId updates now d) = Threw ->
  snd (Store.User.updateUserTodo todoId updates now d) = d.
Proof.
  unfold Store.User.updateUserTodo.
  destruct (findIndex _ _) as [[i|]|]; simpl; try done.
  destruct (mjoin _); simpl; [|done]. by intros [|].
Qed.

Lemma deleteUserTodo_miss (todoId : string) (d : UserData) :
  fst (Store.User.deleteUserTodo todoId d) = Returned false
  ∨ fst (Store.User.deleteUserTodo todoId d) = Threw ->
  snd (Store.User.deleteUserTodo todoId d) = d.
Proof.
  unfold Store.User.deleteUserTodo.
  destruct (elements (u_todos d)) as [ts|] eqn:E; simpl; [|done].
  intros [[= H]|]; [|done]. apply Nat.ltb_ge in H.
  apply elements_Returned in E.
  assert (Hlen : length (filter (fun t => id t ≠ todoId) ts) = length ts).
  { pose proof (length_filter (fun t => id t ≠ todoId) ts).
    rewrite E, length_map in H. lia. }
  rewrite (filter_same_length _ _ Hlen). destruct d; simpl in *. by subst.
Qed.

Lemma filter_shorter_iff {X : Type} (P : X -> Prop) `{!∀ x, Decision (P x)} (l : list X) :
  (length (filter P l) <? length l) = negb (bool_decide (Forall P l)).
Proof.
  destruct (decide (Forall P l)) as [Hall|Hnot].
  - rewrite (filter_all P l Hall), Nat.ltb_irrefl. by rewrite bool_decide_eq_true_2.
  - rewrite bool_decide_eq_false_2 by done.
    apply not_Forall_Exists in Hnot; [|done]. apply Exists_exists in Hnot as (x & Hx & Hn).
    by rewrite (ltb_filter_present P l x Hx Hn).
Qed.

Lemma elements_undefined {X : Type} (arr : list (option X)) :
  None ∈ arr -> elements arr = Threw.
Proof.
  induction arr as [|[x|] arr IH]; intros H; simpl; [by apply elem_of_nil in H| |done].
  apply elem_of_cons in H as [|H]; [done|]. by rewrite IH.
Qed.

End UserFacts.

Section DistinctIds.
Import JsArray Validation Props Api Laws.

Abbreviation ids_of l := (omap (fun slot : option Todo => id <$> slot) (l : list (option Todo))).

Lemma ids_typed (ts : list Todo) : ids_of (map Some ts) = map id ts.
Proof. induction ts as [|t ts IH]; [done|]. cbn. by f_equal. Qed.

Lemma ids_reorder (fromIndex toIndex : number) (d : UserData) :
  todo_ids (snd (Store.User.reorderUserTodos fromIndex toIndex d)) ≡ₚ todo_ids d.
Proof.
  unfold Store.User.reorderUserTodos, splice_out, splice_in, todo_ids. simpl.
  set (a := clamp (length (u_todos d)) fromIndex).
  set (rest := delete a (u_todos d)).
  set (p := clamp (length rest) toIndex).
  rewrite omap_app. cbn [omap list_omap].
  assert (Hmid : ∀ (x : option Todo) (l1 l2 : list string),
             l1 ++ match id <$> x with Some y => y :: l2 | None => l2 end
             ≡ₚ match id <$> x with Some y => [y] | None => [] end ++ l1 ++ l2).
  { intros [x|] l1 l2; simpl; [|done]. by rewrite <- Permutation_middle. }
  rewrite Hmid, <- omap_app, take_drop.
  destruct (u_todos d !! a) as [slot|] eqn:E; simpl.
  - rewrite (omap_Permutation _ _ _ (delete_Permutation (u_todos d) a slot E)).
    cbn [omap list_omap]. by destruct slot.
  - unfold rest. rewrite delete_take_drop, drop_ge, app_nil_r, take_ge;
      [done| |]; apply lookup_ge_None in E; lia.
Qed.

Lemma ids_insert (l : list (option Todo)) (i : nat) (old new : Todo) :
  l !! i = Some (Some old) -> id new = id old ->
  ids_of (<[i := Some new]> l) = ids_of l.
Proof.
  revert i. induction l as [|x l IH]; intros i Hi Hid; [done|].
  destruct i as [|i]; simpl in Hi.
  - injection Hi as ->. cbn [omap list_omap insert list_insert fmap option_fmap option_map]. by rewrite Hid.
  - change (<[S i := Some new]> (x :: l)) with (x :: <[i := Some new]> l).
    cbn [omap list_omap]. by rewrite (IH i).
Qed.

Lemma ids_update (todoId now : string) (updates : PartialTodo) (d : UserData) :
  p_id updates = None ->
  todo_ids (snd (Store.User.updateUserTodo todoId updates now d)) = todo_ids d.
Proof.
  intros Hp. unfold Store.User.updateUserTodo.
  destruct (findIndex _ _) as [[i|]|]; try done.
  destruct (u_todos d !! i) as [[old|]|] eqn:E; simpl; try done.
  unfold todo_ids. simpl. apply (ids_insert _ _ old); [done|].
  unfold Store.User.merge. simpl. by rewrite Hp.
Qed.

Lemma NoDup_ids_filter (P : Todo -> Prop) `{!∀ t, Decision (P t)} (ts : list Todo) :
  NoDup (map id ts) -> NoDup (map id (filter P ts)).
Proof.
  intros Hd. eapply sublist_NoDup; [exact Hd|].
  apply fmap_sublist, sublist_filter.
Qed.

Lemma ids_delete (todoId : string) (d : UserData) :
  NoDup (todo_ids d) -> NoDup (todo_ids (snd (Store.User.deleteUserTodo todoId d))).
Proof.
  unfold Store.User.deleteUserTodo, todo_ids.
  destruct (elements (u_todos d)) as [ts|] eqn:E; simpl; [|done].
  apply elements_Returned in E. rewrite E, !ids_typed. apply NoDup_ids_filter.
Qed.

Lemma ids_map (f : Todo -> Todo) (ts : list Todo) :
  (∀ t, id (f t) = id t) -> ids_of (map Some (map f ts)) = ids_of (map Some ts).
Proof.
  intros H. rewrite !ids_typed, map_map. apply map_ext. apply H.
Qed.

Lemma ids_deleteCategory (c : string) (d : UserData) :
  todo_ids (snd (Store.User.deleteUserCategory c d)) = todo_ids d.
Proof.
  unfold Store.User.deleteUserCategory, todo_ids. simpl.
  destruct (elements (u_todos d)) as [ts|] eqn:E; simpl; [|done].
  apply elements_Returned in E. rewrite E. apply ids_map.
  intros t. unfold Store.User.clearCategory. by repeat case_match.
Qed.

Lemma ids_deleteTag (g : string) (d : UserData) :
  todo_ids (snd (Store.User.deleteUserTag g d)) = todo_ids d.
Proof.
  unfold Store.User.deleteUserTag, todo_ids. simpl.
  destruct (elements (u_todos d)) as [ts|] eqn:E; simpl; [|done].
  apply elements_Returned in E. rewrite E. by apply ids_map.
Qed.

Lemma step_user_distinct (Date_parse : string -> option string)
    (c : Call) (now newId : string) (d : UserData) :
  NoDup (todo_ids d) -> fresh_ids Date_parse c now newId d ->
  NoDup (todo_ids (step_user Date_parse c now newId d)).
Proof.
  intros Hd Hf.
  destruct c as [|body| |body|id0|id0 body|id0| |body|id0| |body|id0];
    simpl in *; try done.
  - destruct (u_migrated d); [done|]. destruct body as [b|]; [|done].
    destruct (data (validateTodoState Date_parse now b)) as [payload|] eqn:E; [|done].
    unfold todo_ids. simpl. rewrite ids_typed. by apply Hf.
  - destruct body as [b|]; [|done].
    assert (Hgoal : NoDup (todo_ids
              (if is_reorder b then
                 match Json.get b "fromIndex", Json.get b "toIndex" with
                 | Some (JNumber f), Some (JNumber t) =>
                     snd (Store.User.reorderUserTodos f t d)
                 | _, _ => d
                 end
               else
                 match valid (validateNewTodoInput b), data (validateNewTodoInput b) with
                 | true, Some (title, c, gs) =>
                     snd (Store.User.addUserTodo (mkTodo newId title false c gs now now) d)
                 | _, _ => d
                 end))).
    { destruct (is_reorder b).
      - destruct (Json.get b "fromIndex") as [[| |f| | |]|]; try done.
        destruct (Json.get b "toIndex") as [[| |t| | |]|]; try done.
        by rewrite ids_reorder.
      - destruct (valid _); [|done].
        destruct (data (validateNewTodoInput b)) as [[[title c] gs]|]; [|done].
        unfold todo_ids. simpl. cbn. apply NoDup_cons. split; [by apply Hf|done]. }
    by destruct b.
  - destruct body as [b|]; [|done].
    destruct (valid _); [|done].
    destruct (data (validateUpdateTodoInput b)) as [updates|] eqn:E; [|done].
    rewrite ids_update; [done|]. by apply validateUpdateTodoInput_fields in E as [? _].
  - by apply ids_delete.
  - destruct body as [b|]; [|done]. destruct (valid _); [|done].
    by destruct (data (validateNewCategoryInput b)) as [[[name icon] color]|].
  - by rewrite ids_deleteCategory.
  - destruct body as [b|]; [|done]. destruct (valid _); [|done].
    by destruct (data (validateNewTagInput b)) as [[name color]|].
  - by rewrite ids_deleteTag.
Qed.

End DistinctIds.

(** * Facts about the endpoints *)

Section EndpointFacts.
Import JsArray Validation Props Api Laws.
Variable Date_parse : string -> option string.
Variable DEFAULT_CATEGORIES : list Category.
Variable DEFAULT_TAGS : list Tag.

Abbreviation record := (Store.user_data DEFAULT_CATEGORIES DEFAULT_TAGS).
Abbreviation handle' := (Api.handle Date_parse DEFAULT_CATEGORIES DEFAULT_TAGS).

Ltac handlers :=
  unfold data_GET, data_POST, todos_GET, todos_POST, todo_GET, todo_PUT,
    todo_DELETE, categories_GET, categories_POST, category_DELETE,
    tags_GET, tags_POST, tag_DELETE.

Ltac store_ops :=
  unfold Store.getUserTodos, Store.addUserTodo, Store.updateUserTodo,
    Store.deleteUserTodo, Store.reorderUserTodos, Store.getUserCategories,
    Store.addUserCategory, Store.deleteUserCategory, Store.getUserTags,
    Store.addUserTag, Store.deleteUserTag, Store.hasUserMigrated,
    Store.importUserData;
  rewrite ?with_user_eq, ?getUserData_eq; cbn [fst snd];
  rewrite ?user_data_insert, ?insert_insert_eq.

(** A record that is in the map is the record [getUserData] hands out. *)
Lemma lookup_record (u : string) (s : gmap string UserData) :
  is_Some (s !! u) -> s !! u = Some (record u s).
Proof. intros [d Hd]. unfold Store.user_data. by rewrite Hd. Qed.

Lemma handle_other_user (r : Request) (s : gmap string UserData) (u : string) :
  user_of (session r) ≠ Some u ->
  snd (handle' r s) !! u = s !! u.
Proof.
  intros Hu. unfold handle.
  destruct (user_of (session r)) as [v|]; [|done].
  assert (Hne : v ≠ u) by congruence.
  destruct (call r); handlers; store_ops;
    repeat (case_match; store_ops); cbn [fst snd];
    rewrite ?lookup_insert_ne by done; done.
Qed.

(** X10. Requests change nothing for any user other than the one of their
    session: after any sequence of requests none of which comes from user
    [u], the entry of [u] in the store, present or absent, is as it was.
    Unauthenticated requests change no entry at all. *)
Theorem other_users_untouched (rs : list Request) (s : gmap string UserData) (u : string) :
  Forall (fun r => user_of (session r) ≠ Some u) rs ->
  run Date_parse DEFAULT_CATEGORIES DEFAULT_TAGS rs s !! u = s !! u.
Proof.
  intros H. revert s. induction H as [|r rs Hr _ IH]; intros s; [done|].
  simpl. rewrite IH. by apply handle_other_user.
Qed.

(** X11. Apart from the two cascading deletes, a request that is answered
    with an error status (400 or above), or not answered, leaves the record of
    every user as it was. *)
Theorem failed_request_no_effect (r : Request) (s : gmap string UserData) (u : string) :
  (∀ i, call r ≠ DELETE_category i) ->
  (∀ i, call r ≠ DELETE_tag i) ->
  failed (fst (handle' r s)) ->
  record u (snd (handle' r s)) = record u s.
Proof.
  intros Hc Hg. unfold handle.
  destruct (user_of (session r)) as [v|]; [|done].
  destruct (call r) as [|body| |body|id0|id0 body|id0| |body|id0| |body|id0];
    try (by destruct (Hc id0)); try (by destruct (Hg id0)); clear Hc Hg;
    handlers; store_ops.
  all: repeat (case_match; store_ops); cbn [fst snd failed]; try lia; intros _.
  all: repeat match goal with
         | H : fst (Store.User.updateUserTodo _ _ _ _) = _ |- _ =>
             rewrite updateUserTodo_miss by (rewrite H; auto); clear H
         | H : fst (Store.User.deleteUserTodo _ _) = _ |- _ =>
             rewrite deleteUserTodo_miss by (rewrite H; auto); clear H
         end.
  all: rewrite ?record_insert; try case_decide; subst; done.
Qed.

(** X12. A Todo the create endpoint answers with (201) carries the
    generated id, is not completed, has both dates set to the time of the
    request, a title of 1 to 500 characters and at most 20 tags; it is the
    first Todo of the user's sequence, [GET /api/todos/:id] with its id
    answers with it, and [GET /api/todos] lists it first. *)
Theorem created_todo_is_found (r : Request) (s s' : gmap string UserData)
    (u : string) (body : option JSON) (todo : Todo) :
  request_by u (POST_todos body) r ->
  handle' r s = (Reply 201 (TodoBody todo), s') ->
  (id todo = newId r ∧ completed todo = false
   ∧ createdAt todo = now r ∧ updatedAt todo = now r
   ∧ 1 ≤ Js.strlen (title todo) ≤ MAX_TITLE_LENGTH
   ∧ length (tags todo) ≤ MAX_TAGS_PER_TODO)
  ∧ u_todos (record u s') = Some todo :: u_todos (record u s)
  ∧ (∀ r', request_by u (GET_todo (id todo)) r' ->
       handle' r' s' = (Reply 200 (TodoBody todo), s'))
  ∧ (∀ r', request_by u GET_todos r' ->
       handle' r' s' = (Reply 200 (TodosBody (Some todo :: u_todos (record u s))), s')).
Proof.
  intros [Hu Hc] H. unfold handle in H. rewrite Hu, Hc in H.
  unfold todos_POST in H.
  destruct body as [b|]; [|done].
  assert (Hcreate : ∃ title c gs,
             valid (validateNewTodoInput b) = true
             ∧ data (validateNewTodoInput b) = Some (title, c, gs)
             ∧ todo = mkTodo (newId r) title false c gs (now r) (now r)
             ∧ s' = <[u := snd (Store.User.addUserTodo todo (record u s))]> s).
  { destruct b; try discriminate H.
    all: destruct (is_reorder _);
      [destruct (Json.get _ "fromIndex") as [[]|]; try discriminate H;
       destruct (Json.get _ "toIndex") as [[]|]; try discriminate H;
       revert H; store_ops; discriminate|].
    all: destruct (valid (validateNewTodoInput _)) eqn:Ev; [|discriminate H].
    all: destruct (data (validateNewTodoInput _)) as [[[ti c] gs]|] eqn:Ed;
      [|discriminate H].
    all: revert H; store_ops; intros [= <- <-]; by exists ti, c, gs. }
  destruct Hcreate as (ti & c & gs & Hv & Hd & -> & ->). clear H.
  assert (Hrec : record u (<[u := snd (Store.User.addUserTodo
                     (mkTodo (newId r) ti false c gs (now r) (now r)) (record u s))]> s)
                 = snd (Store.User.addUserTodo
                     (mkTodo (newId r) ti false c gs (now r) (now r)) (record u s)))
    by apply user_data_insert.
  split.
  { simpl. split; [done|]. split; [done|]. split; [done|]. split; [done|].
    unfold validateNewTodoInput in Hd. destruct (negb _); [done|].
    destruct (missing (sanitizeString _ _)) eqn:Em; simpl in Hd; [done|].
    injection Hd as <- <- <-.
    destruct (missing_Some _ Em) as [t Ht]. rewrite Ht in *. simpl.
    split.
    - destruct (Json.get b "title") as [[]|]; try discriminate Ht.
      apply sanitizeString_bounded in Ht as [Hle _]. split; [|done].
      simpl in Em. destruct (Js.strlen t); [done|lia].
    - destruct (is_array _); [|simpl; unfold MAX_TAGS_PER_TODO; lia].
      unfold validTagIds.
      pose proof (length_omap_le (fun tag => validateId (Some tag))
                    (take MAX_TAGS_PER_TODO l)) as H1.
      rewrite length_take in H1. lia. }
  split; [by rewrite Hrec|].
  split; intros r' [Hu' Hc']; unfold handle; rewrite Hu', Hc'.
  - unfold todo_GET. store_ops. simpl. rewrite String.eqb_refl. simpl.
    by rewrite ?insert_insert_eq.
  - unfold todos_GET. store_ops. by rewrite ?insert_insert_eq.
Qed.

(** X13. On a record whose positions all hold Todos, [DELETE /api/todos/:id]
    answers 200 exactly when some Todo has the id, and 404 otherwise; in both
    cases the sequence is left without any Todo of that id, in the old order.
    After it, fetching or deleting the same id answers 404 and changes
    nothing. *)
Theorem deleted_todo_is_gone (r : Request) (s : gmap string UserData) (u i : string)
    (ts : list Todo) (cs : list Category) (gs : list Tag) (m : bool) :
  record u s = typed ts cs gs m ->
  request_by u (DELETE_todo i) r ->
  let s' := <[u := typed (filter (fun t => id t ≠ i) ts) cs gs m]> s in
  handle' r s
  = (if bool_decide (i ∈ map id ts) then Reply 200 SuccessBody
     else Reply 404 (ErrorBody "Todo not found" None), s')
  ∧ (∀ r', request_by u (GET_todo i) r' ->
       handle' r' s' = (Reply 404 (ErrorBody "Todo not found" None), s'))
  ∧ (∀ r', request_by u (DELETE_todo i) r' ->
       handle' r' s' = (Reply 404 (ErrorBody "Todo not found" None), s')).
Proof.
  intros Hd [Hu Hc] s'.
  assert (Hdel : ∀ (ts0 : list Todo) (s0 : gmap string UserData),
             record u s0 = typed ts0 cs gs m ->
             todo_DELETE DEFAULT_CATEGORIES DEFAULT_TAGS u i s0
             = (if bool_decide (i ∈ map id ts0) then Reply 200 SuccessBody
                else Reply 404 (ErrorBody "Todo not found" None),
                <[u := typed (filter (fun t => id t ≠ i) ts0) cs gs m]> s0)).
  { intros ts0 s0 H0. unfold todo_DELETE. store_ops. rewrite H0.
    unfold Store.User.deleteUserTodo, typed. simpl. rewrite elements_typed. simpl.
    rewrite length_map, filter_shorter_iff.
    assert (Hiff : Forall (fun t => id t ≠ i) ts0 ↔ ¬ i ∈ map id ts0).
    { rewrite Forall_forall, list_elem_of_fmap. split.
      - intros Hall (x & -> & Hx). by apply (Hall x).
      - intros Hn x Hx Heq. apply Hn. by exists x. }
    rewrite (bool_decide_ext _ _ Hiff), bool_decide_not, negb_involutive.
    by destruct (bool_decide _). }
  assert (Hkept : Forall (fun t => id t ≠ i) (filter (fun t => id t ≠ i) ts)).
  { apply Forall_forall. intros t Ht. by apply list_elem_of_filter in Ht as [? _]. }
  split; [unfold handle; rewrite Hu, Hc; by apply Hdel|].
  split; intros r' [Hu' Hc']; unfold handle; rewrite Hu', Hc'.
  - unfold todo_GET. store_ops. unfold s'. rewrite user_data_insert, insert_insert_eq.
    unfold typed. simpl.
    by rewrite findIndex_absent by (by apply id_differs).
  - rewrite (Hdel (filter (fun t => id t ≠ i) ts) s') by apply user_data_insert.
    rewrite bool_decide_eq_false_2.
    + unfold s'. by rewrite insert_insert_eq, filter_idem.
    + intros Hin. apply list_elem_of_fmap in Hin as (t & -> & Ht).
      by apply (proj1 (Forall_forall _ _) Hkept t).
Qed.

(** X14. A reorder between two positions of the sequence moves the Todo at
    [i] to position [j] and keeps the others in their order: the sequence is a
    permutation of the old one of the same length, Categories, Tags and the
    migrated flag stay, and the reorder from [j] back to [i] restores the
    record. *)
Theorem reorder_in_range (u : string) (i j : nat) (s : gmap string UserData) :
  let d := record u s in
  let s' := snd (Store.reorderUserTodos DEFAULT_CATEGORIES DEFAULT_TAGS u
                   (Fin (Z.of_nat i)) (Fin (Z.of_nat j)) s) in
  let d' := record u s' in
  i < length (u_todos d) -> j < length (u_todos d) ->
  length (u_todos d') = length (u_todos d)
  ∧ u_todos d' !! j = u_todos d !! i
  ∧ delete j (u_todos d') = delete i (u_todos d)
  ∧ u_todos d' ≡ₚ u_todos d
  ∧ (u_categories d', u_tags d', u_migrated d') = (u_categories d, u_tags d, u_migrated d)
  ∧ record u (snd (Store.reorderUserTodos DEFAULT_CATEGORIES DEFAULT_TAGS u
                     (Fin (Z.of_nat j)) (Fin (Z.of_nat i)) s')) = d.
Proof.
  intros d s' d' Hi Hj.
  assert (Hd' : d' = mkUserData (move i j (u_todos d)) (u_categories d) (u_tags d)
                                (u_migrated d)).
  { unfold d', s'. store_ops. by rewrite reorder_move. }
  destruct (move_spec i j (u_todos d) Hi Hj) as (Hlen & Hlook & Hdel & Hperm & Hinv).
  rewrite Hd'. simpl. repeat split; try done.
  store_ops. fold d'. rewrite Hd', reorder_move. simpl. rewrite Hinv. by destruct d.
Qed.

(** X15. On a record whose positions all hold Todos: a Category the create
    endpoint answers with (201) carries the generated id and is appended to
    the user's Categories; if that id was not in use, by a Category or as the
    category of a Todo, deleting the Category answers 200 and gives back the
    record as it was before the creation. *)
Theorem category_added_then_deleted (r : Request) (s s1 : gmap string UserData)
    (u : string) (body : option JSON) (c : Category)
    (ts : list Todo) (cs : list Category) (gs : list Tag) (m : bool) :
  record u s = typed ts cs gs m ->
  request_by u (POST_categories body) r ->
  handle' r s = (Reply 201 (CategoryBody c), s1) ->
  newId r ∉ category_ids cs ->
  (∀ t, t ∈ ts -> categoryId t ≠ Some (newId r)) ->
  cat_id c = newId r
  ∧ s1 = <[u := typed ts (cs ++ [c]) gs m]> s
  ∧ ∀ r', request_by u (DELETE_category (cat_id c)) r' ->
      handle' r' s1 = (Reply 200 SuccessBody, <[u := typed ts cs gs m]> s).
Proof.
  intros Hd [Hu Hc] H Hfresh Hunused. unfold handle in H. rewrite Hu, Hc in H.
  unfold categories_POST in H. destruct body as [b|]; [|done].
  destruct (valid (validateNewCategoryInput b)); [|done].
  destruct (data (validateNewCategoryInput b)) as [[[name icon] color]|]; [|done].
  revert H. store_ops. rewrite Hd. unfold Store.User.addUserCategory, typed. simpl.
  intros [= <- <-]. split; [done|]. split; [done|].
  intros r' [Hu' Hc']. unfold handle. rewrite Hu', Hc'.
  unfold category_DELETE. store_ops.
  unfold Store.User.deleteUserCategory. simpl. rewrite elements_typed. simpl.
  rewrite filter_app, filter_cons_False, filter_nil, app_nil_r by (simpl; by intros ?).
  assert (Hcs : filter (fun c0 => cat_id c0 ≠ newId r) cs = cs).
  { apply filter_all, Forall_forall. intros c0 Hc0 Heq. apply Hfresh.
    unfold category_ids. apply list_elem_of_fmap. by exists c0. }
  assert (Hts : map (Store.User.clearCategory (newId r)) ts = ts).
  { rewrite <- (map_id ts) at 2. apply map_ext_in. intros t Ht.
    apply clearCategory_other, Hunused. by apply list_elem_of_In. }
  rewrite Hcs, Hts, length_app. simpl.
  by rewrite (proj2 (Nat.ltb_lt _ _)) by lia.
Qed.

(** X16. Once a user's sequence holds [undefined] (see C10), the three
    delete endpoints throw: deleting a Todo leaves the record as it is, while
    deleting a Category or a Tag has already removed it from its collection
    and leaves every Todo's reference to it in place.  Listing the Todos still
    answers 200. *)
Theorem undefined_slot_breaks_deletes (s : gmap string UserData) (u : string) :
  let d := record u s in
  None ∈ u_todos d ->
  (∀ r i, request_by u (DELETE_todo i) r -> handle' r s = (Uncaught, <[u := d]> s))
  ∧ (∀ r i, request_by u (DELETE_category i) r ->
       handle' r s
       = (Uncaught,
          <[u := mkUserData (u_todos d) (filter (fun c => cat_id c ≠ i) (u_categories d))
                            (u_tags d) (u_migrated d)]> s))
  ∧ (∀ r i, request_by u (DELETE_tag i) r ->
       handle' r s
       = (Uncaught,
          <[u := mkUserData (u_todos d) (u_categories d)
                            (filter (fun g => tag_id g ≠ i) (u_tags d))
                            (u_migrated d)]> s))
  ∧ (∀ r, request_by u GET_todos r ->
       handle' r s = (Reply 200 (TodosBody (u_todos d)), <[u := d]> s)).
Proof.
  intros d Hnone. assert (Hthrow := elements_undefined _ Hnone).
  repeat split; intros r; intros; destruct H as [Hu Hc]; unfold handle; rewrite Hu, Hc.
  - unfold todo_DELETE. store_ops. unfold Store.User.deleteUserTodo. fold d.
    by rewrite Hthrow.
  - unfold category_DELETE. store_ops. unfold Store.User.deleteUserCategory. fold d.
    simpl. by rewrite Hthrow.
  - unfold tag_DELETE. store_ops. unfold Store.User.deleteUserTag. fold d.
    simpl. by rewrite Hthrow.
  - unfold todos_GET. by store_ops.
Qed.

(** X17. Distinct ids are an invariant of the endpoints: if no two Todos of
    a user share an id, the id generated for a created Todo is new and an
    imported payload names no id twice, then after the request no two Todos of
    the user share an id.  (Reorders with any indices, updates, deletes and
    the Category and Tag endpoints keep it unconditionally.) *)
Theorem distinct_ids_preserved (r : Request) (s : gmap string UserData) (u : string) :
  NoDup (todo_ids (record u s)) ->
  (user_of (session r) = Some u ->
   fresh_ids Date_parse (call r) (now r) (newId r) (record u s)) ->
  NoDup (todo_ids (record u (snd (handle' r s)))).
Proof.
  intros Hd Hf. rewrite handle_record.
  destruct (user_of (session r)) as [v|]; [|done].
  case_decide; [subst v|done]. apply step_user_distinct; [done|]. by apply Hf.
Qed.
End EndpointFacts.

(** * Facts about the client *)

Section ClientFacts.
Import JsArray Props Laws.

Lemma optimistic_mirror (d : UserData) (i : string)
    (fromIndex toIndex : number) :
  Client.deleteTodo i (mirror d) = mirrored (Store.User.deleteUserTodo i d)
  ∧ Client.reorderTodos fromIndex toIndex (mirror d)
    = mirror (snd (Store.User.reorderUserTodos fromIndex toIndex d))
  ∧ Client.deleteCategory i (mirror d) = mirrored (Store.User.deleteUserCategory i d)
  ∧ Client.deleteTag i (mirror d) = mirrored (Store.User.deleteUserTag i d).
Proof.
  unfold mirrored, Client.deleteTodo, Client.reorderTodos, Client.deleteCategory,
    Client.deleteTag, Store.User.deleteUserTodo, Store.User.reorderUserTodos,
    Store.User.deleteUserCategory, Store.User.deleteUserTag.
  cbn [mirror Client.todos Client.categories Client.tags u_todos u_categories u_tags].
  split; [|split; [|split]].
  - by destruct (elements (u_todos d)).
  - by unfold splice_out.
  - by destruct (elements (u_todos d)).
  - by destruct (elements (u_todos d)).
Qed.

Lemma map_same {A} (f : A -> A) (l : list A) :
  (∀ x, x ∈ l -> f x = x) -> map f l = l.
Proof.
  induction l as [|x l IH]; intros H; [done|]. simpl. f_equal.
  - apply H, list_elem_of_here.
  - apply IH. intros y Hy. by apply H, list_elem_of_further.
Qed.

Lemma map_replace_unique (ts : list Todo) (i : string) (k : nat) (old new : Todo)
    (f : Todo -> Todo) :
  NoDup (map id ts) -> ts !! k = Some old -> id old = i ->
  (∀ t, id t = i -> f t = new) -> (∀ t, id t ≠ i -> f t = t) ->
  map f ts = <[k := new]> ts.
Proof.
  intros Hd Hk Hi Hf Hn. revert k Hk.
  induction ts as [|t ts IH]; intros k Hk; [done|].
  apply NoDup_cons in Hd as [Ht Hd].
  destruct k as [|k]; simpl in Hk.
  - injection Hk as ->. simpl. f_equal; [by apply Hf|].
    apply map_same. intros t Hin. apply Hn.
    intros E. apply Ht. rewrite Hi, <- E.
    by apply (list_elem_of_fmap_2 id).
  - simpl. f_equal; [|by apply IH]. apply Hn. intros E. apply Ht.
    rewrite E, <- Hi. apply (list_elem_of_fmap_2 id). by eapply list_elem_of_lookup_2.
Qed.

Lemma findIndex_typed_cases (p : Todo -> bool) (ts : list Todo) :
  match findIndex p (map Some ts) with
  | Returned (Some k) => ∃ t, ts !! k = Some t ∧ p t = true
  | Returned None => ∀ t, t ∈ ts -> p t = false
  | Threw => False
  end.
Proof.
  induction ts as [|t ts IH]; simpl.
  - intros t Ht. by apply elem_of_nil in Ht.
  - destruct (p t) eqn:E; [by exists t|].
    destruct (findIndex p (map Some ts)) as [[k|]|]; [| |done].
    + done.
    + intros t' [->|Ht']%elem_of_cons; [done|by apply IH].
Qed.

Lemma confirmed_mirror (ts : list Todo) (cs : list Category)
    (gs : list Tag) (m : bool) (i now clientNow : string)
    (sent updates : PartialTodo) :
  NoDup (map id ts) -> p_id sent = None ->
  match Store.User.updateUserTodo i updates now (typed ts cs gs m) with
  | (Returned (Some updatedTodo), d') =>
      ∃ c, Client.updateTodo_optimistic i sent clientNow (mirror (typed ts cs gs m))
           = Returned c
           ∧ Client.updateTodo_confirmed i updatedTodo c = Returned (mirror d')
  | (Returned None, d') =>
      d' = typed ts cs gs m
      ∧ Client.updateTodo_optimistic i sent clientNow (mirror (typed ts cs gs m))
        = Returned (mirror (typed ts cs gs m))
  | (Threw, _) => False
  end.
Proof.
  intros Hd Hs.
  unfold Store.User.updateUserTodo, Client.updateTodo_optimistic, Client.updateTodo_confirmed.
  cbn [typed mirror Client.todos Client.categories Client.tags u_todos u_categories u_tags].
  rewrite elements_typed.
  pose proof (findIndex_typed_cases (fun t => String.eqb (id t) i) ts) as Hf.
  destruct (findIndex _ (map Some ts)) as [[k|]|]; [| |done].
  - destruct Hf as (old & Hk & Hp). apply String.eqb_eq in Hp.
    rewrite list_lookup_fmap, Hk. simpl.
    eexists. split; [done|]. cbn [Client.todos Client.categories Client.tags].
    rewrite elements_typed. f_equal.
    change (map Some ts) with (Some <$> ts). rewrite <- list_fmap_insert.
    change (Some <$> ?l) with (map Some l).
    unfold mirror. cbn [u_todos u_categories u_tags]. do 2 f_equal.
    rewrite map_map.
    apply (map_replace_unique ts i k old); try done.
    + intros t Ht. destruct (String.eqb (id t) i) eqn:E.
      * assert (E' : String.eqb (id (Store.User.merge t sent clientNow)) i = true).
        { unfold Store.User.merge. simpl. by rewrite Hs. }
        by rewrite E'.
      * apply String.eqb_neq in E. done.
    + intros t Ht. apply String.eqb_neq in Ht. by rewrite !Ht.
  - split; [done|]. unfold mirror, typed. cbn [u_todos u_categories u_tags].
    do 3 f_equal. apply map_same. intros t Hin. by rewrite (Hf t Hin).
Qed.

End ClientFacts.

Section ClientEndpoints.
Import JsArray Validation Props Api Laws.
Variable Date_parse : string -> option string.
Variable DEFAULT_CATEGORIES : list Category.
Variable DEFAULT_TAGS : list Tag.

Abbreviation record := (Store.user_data DEFAULT_CATEGORIES DEFAULT_TAGS).
Abbreviation handle' := (Api.handle Date_parse DEFAULT_CATEGORIES DEFAULT_TAGS).

Ltac store_ops :=
  unfold Store.getUserTodos, Store.addUserTodo, Store.updateUserTodo,
    Store.deleteUserTodo, Store.reorderUserTodos, Store.getUserCategories,
    Store.addUserCategory, Store.deleteUserCategory, Store.getUserTags,
    Store.addUserTag, Store.deleteUserTag, Store.hasUserMigrated,
    Store.importUserData;
  rewrite ?with_user_eq, ?getUserData_eq; cbn [fst snd];
  rewrite ?user_data_insert, ?insert_insert_eq.

(** X18. The optimistic updates of the client agree with the server on the
    requests of a signed-in user that the handler serves without throwing.
    When the client's copy is the record of the session's user: a delete of
    a Todo, a Category or a Tag is answered with 200 or with 404, a reorder
    whose body carries the two indices as numbers is answered with 200, and
    in each case the updater the hook runs before sending the request yields
    the copy of the record the server then holds.  (Requests without a
    session, answered 401, and reorders with other bodies, answered 400, are
    not covered: there the server changes nothing.) *)
Theorem optimistic_state_matches_server (r : Request) (s : gmap string UserData)
    (u : string) :
  user_of (session r) = Some u ->
  fst (handle' r s) ≠ Uncaught ->
  let before := mirror (record u s) in
  let after := mirror (record u (snd (handle' r s))) in
  let not_found what := Reply 404 (ErrorBody what None) in
  match call r with
  | DELETE_todo i =>
      fst (handle' r s) ∈ [Reply 200 SuccessBody; not_found "Todo not found"]
      ∧ Client.deleteTodo i before = Returned after
  | DELETE_category i =>
      fst (handle' r s) ∈ [Reply 200 SuccessBody; not_found "Category not found"]
      ∧ Client.deleteCategory i before = Returned after
  | DELETE_tag i =>
      fst (handle' r s) ∈ [Reply 200 SuccessBody; not_found "Tag not found"]
      ∧ Client.deleteTag i before = Returned after
  | POST_todos (Some b) =>
      ∀ fromIndex toIndex, reorder_body b fromIndex toIndex ->
        fst (handle' r s) = Reply 200 (TodosBody (Client.todos after))
        ∧ Client.reorderTodos fromIndex toIndex before = after
  | _ => True
  end.
Proof.
  intros Hu Hr before after not_found. unfold after.
  rewrite (handle_record Date_parse), Hu. rewrite decide_True by done.
  revert Hr. unfold handle. rewrite Hu. unfold before.
  destruct (call r) as [|body| |body|id0|id0 body|id0| |body|id0| |body|id0];
    try done; cbn [step_user].
  - destruct body as [b|]; [|done]. intros _ f t (Ha & Hf & Ht).
    assert (Hre : is_reorder b = true) by (unfold is_reorder; by rewrite Ha).
    unfold todos_POST. rewrite Hre, Hf, Ht.
    destruct (optimistic_mirror (record u s) "" f t) as (_ & -> & _).
    store_ops. unfold Store.User.reorderUserTodos.
    destruct (splice_out f (u_todos (record u s))) as [removed newTodos].
    by destruct b.
  - destruct (optimistic_mirror (record u s) id0 (Fin 0) (Fin 0)) as (-> & _).
    unfold todo_DELETE, mirrored. store_ops.
    destruct (fst (Store.User.deleteUserTodo id0 (record u s))) as [[]|];
      [intros _; split; [apply list_elem_of_here|done]
      |intros _; split; [apply list_elem_of_further, list_elem_of_here|done]
      |done].
  - destruct (optimistic_mirror (record u s) id0 (Fin 0) (Fin 0)) as (_ & _ & -> & _).
    unfold category_DELETE, mirrored. store_ops.
    destruct (fst (Store.User.deleteUserCategory id0 (record u s))) as [[]|];
      [intros _; split; [apply list_elem_of_here|done]
      |intros _; split; [apply list_elem_of_further, list_elem_of_here|done]
      |done].
  - destruct (optimistic_mirror (record u s) id0 (Fin 0) (Fin 0)) as (_ & _ & _ & ->).
    unfold tag_DELETE, mirrored. store_ops.
    destruct (fst (Store.User.deleteUserTag id0 (record u s))) as [[]|];
      [intros _; split; [apply list_elem_of_here|done]
      |intros _; split; [apply list_elem_of_further, list_elem_of_here|done]
      |done].
Qed.

(** X19. What the client adds on a successful creation is what the server
    stored: when the create endpoint for a Todo, a Category or a Tag answers
    with an ok status, the status is 201, the body is the new entity, and
    adding it to the client's copy as the hook does (a Todo in front, a
    Category or a Tag at the end) yields the copy of the server's new
    record. *)
Theorem created_entity_reaches_client (r : Request) (s : gmap string UserData)
    (u : string) :
  user_of (session r) = Some u ->
  Client.ok (fst (handle' r s)) = true ->
  let before := mirror (record u s) in
  let after := mirror (record u (snd (handle' r s))) in
  match call r with
  | POST_todos (Some b) =>
      is_reorder b = false ->
      ∃ newTodo, fst (handle' r s) = Reply 201 (TodoBody newTodo)
                 ∧ Client.addTodo newTodo before = after
  | POST_categories _ =>
      ∃ newCategory, fst (handle' r s) = Reply 201 (CategoryBody newCategory)
                     ∧ Client.addCategory newCategory before = after
  | POST_tags _ =>
      ∃ newTag, fst (handle' r s) = Reply 201 (TagBody newTag)
                ∧ Client.addTag newTag before = after
  | _ => True
  end.
Proof.
  intros Hu Hok before after. unfold after.
  rewrite (handle_record Date_parse), Hu. rewrite decide_True by done.
  revert Hok. unfold handle. rewrite Hu. unfold before.
  destruct (call r) as [|body| |body|id0|id0 body|id0| |body|id0| |body|id0];
    try done; cbn [step_user].
  - destruct body as [b|]; [|done]. intros Hok Hre. revert Hok.
    unfold todos_POST.
    assert (Hgoal : ∀ resp,
      (if is_reorder b then resp else
         match valid (validateNewTodoInput b), data (validateNewTodoInput b) with
         | true, Some (title, c, gs) =>
             let newTodo := mkTodo (newId r) title false c gs (now r) (now r) in
             match Store.addUserTodo DEFAULT_CATEGORIES DEFAULT_TAGS u newTodo s with
             | (Returned todo, s1) => (Reply 201 (TodoBody todo), s1)
             | (Threw, s1) => (Reply 400 (ErrorBody "Invalid request body" None), s1)
             end
         | _, _ => (Reply 400 (ErrorBody "Validation failed"
                      (Some (errors (validateNewTodoInput b)))), s)
         end) = resp -> Client.ok (fst resp) = true ->
      ∃ newTodo, fst resp = Reply 201 (TodoBody newTodo)
        ∧ Client.addTodo newTodo (mirror (record u s))
          = mirror (if is_reorder b then record u s else
              match valid (validateNewTodoInput b), data (validateNewTodoInput b) with
              | true, Some (title, c, gs) =>
                  snd (Store.User.addUserTodo
                         (mkTodo (newId r) title false c gs (now r) (now r)) (record u s))
              | _, _ => record u s
              end)).
    { intros resp <-. rewrite Hre.
      destruct (valid _); [|done].
      destruct (data (validateNewTodoInput b)) as [[[title c] gs]|]; [|done].
      store_ops. intros _. by eexists. }
    destruct b; try done; rewrite ?Hre in *; intros Hok;
      (edestruct Hgoal as (t & Ht & Hadd); [reflexivity|exact Hok|]);
      exists t; (split; [exact Ht|exact Hadd]).
  - unfold categories_POST. destruct body as [b|]; [|done].
    destruct (valid _); [|done].
    destruct (data (validateNewCategoryInput b)) as [[[name icon] color]|]; [|done].
    store_ops. intros _. by eexists.
  - unfold tags_POST. destruct body as [b|]; [|done].
    destruct (valid _); [|done].
    destruct (data (validateNewTagInput b)) as [[name color]|]; [|done].
    store_ops. intros _. by eexists.
Qed.

(** X20. The two steps of the client's [updateTodo] end in the server's
    state: on a record of Todos with distinct ids, when the update endpoint
    answers with an ok status, the status is 200, the optimistic update (with
    whatever fields the client merged, at whatever time) does not throw, and
    replacing the Todos of that id by the Todo of the answer yields the copy
    of the server's new record. *)
Theorem confirmed_update_matches_server (r : Request) (s : gmap string UserData)
    (u i : string) (body : option JSON) (sent : PartialTodo) (clientNow : string)
    (ts : list Todo) (cs : list Category) (gs : list Tag) (m : bool) :
  user_of (session r) = Some u -> call r = PUT_todo i body ->
  record u s = typed ts cs gs m -> NoDup (map id ts) -> p_id sent = None ->
  Client.ok (fst (handle' r s)) = true ->
  ∃ updatedTodo optimistic,
    fst (handle' r s) = Reply 200 (TodoBody updatedTodo)
    ∧ Client.updateTodo_optimistic i sent clientNow (mirror (record u s))
      = Returned optimistic
    ∧ Client.updateTodo_confirmed i updatedTodo optimistic
      = Returned (mirror (record u (snd (handle' r s)))).
Proof.
  intros Hu Hc Hd Hnd Hs.
  rewrite (handle_record Date_parse), Hu. rewrite decide_True by done.
  unfold handle. rewrite Hu, Hc. cbn [step_user]. unfold todo_PUT.
  destruct body as [b|]; [|done].
  destruct (valid _); [|done].
  destruct (data (validateUpdateTodoInput b)) as [updates|]; [|done].
  store_ops. rewrite Hd.
  pose proof (confirmed_mirror ts cs gs m i (now r) clientNow sent updates Hnd Hs) as H.
  destruct (Store.User.updateUserTodo i updates (now r) (typed ts cs gs m))
    as [[[t|]|] d']; cbn [fst snd]; try done.
  intros _. destruct H as (c & H1 & H2). by exists t, c.
Qed.

End ClientEndpoints.

(** * Facts about the middleware and the migration *)

Section MiddlewareFacts.
Import Middleware Laws.

Lemma startsWith_app (s prefix : string) :
  startsWith s prefix = true <-> ∃ rest, s = prefix +:+ rest.
Proof.
  unfold startsWith. revert s. induction prefix as [|c p IH]; intros s.
  - split; [intros _; by exists s|]. intros _. by destruct s.
  - destruct s as [|c' s]; cbn [String.prefix].
    + split; [done|]. by intros [rest Hr].
    + destruct (Ascii.ascii_dec c c') as [->|Hne].
      * rewrite IH. split; intros [rest Hr]; exists rest.
        -- change (String c' p +:+ rest) with (String c' (p +:+ rest)). by rewrite Hr.
        -- change (String c' p +:+ rest) with (String c' (p +:+ rest)) in Hr.
           by injection Hr.
      * split; [done|]. intros [rest Hr].
        change (String c p +:+ rest) with (String c (p +:+ rest)) in Hr.
        injection Hr as -> _. done.
Qed.

Lemma eqb_append_empty (route rest : string) :
  String.eqb (route +:+ rest) route = true <-> rest = "".
Proof.
  rewrite String.eqb_eq. induction route as [|c p IH]; [done|].
  change (String c p +:+ rest) with (String c (p +:+ rest)).
  split; [intros [= H]; by apply IH|intros H; f_equal; by apply IH].
Qed.

Lemma append_cancel (a b c : string) : a +:+ b = a +:+ c -> b = c.
Proof.
  induction a as [|x a IH]; [done|].
  change (String x a +:+ ?s) with (String x (a +:+ s)). intros [= H]. by apply IH.
Qed.

(** X21. The login wall of the middleware.  Without a token, every path that
    begins with one of the endpoint paths [/api/data], [/api/todos],
    [/api/categories], [/api/tags] is redirected to [/login] with the path as
    [callbackUrl]; a path that begins with a public route passes exactly when
    the route is the whole path or is followed by [/], and is redirected to
    [/login] otherwise.  With a token every path passes, except [/login]
    itself, which is redirected to [/]. *)
Theorem middleware_login_wall (rest : string) :
  (∀ base, base ∈ api_routes ->
     middleware false (base +:+ rest) = Redirect "/login" (Some (base +:+ rest))
     ∧ middleware true (base +:+ rest) = Next)
  ∧ (∀ route, route ∈ publicRoutes ->
       (middleware false (route +:+ rest) = Next
        <-> rest = "" ∨ ∃ rest', rest = "/" +:+ rest')
       ∧ (middleware false (route +:+ rest) ≠ Next ->
          middleware false (route +:+ rest)
          = Redirect "/login" (Some (route +:+ rest))))
  ∧ (∀ pathname,
       middleware true pathname
       = if String.eqb pathname "/login" then Redirect "/" None else Next).
Proof.
  split; [|split].
  - intros base Hb. unfold api_routes in Hb.
    rewrite !elem_of_cons, elem_of_nil in Hb.
    destruct Hb as [->|[->|[->|[->|[]]]]]; split; by vm_compute.
  - intros route Hr.
    assert (Hpub : isPublicRoute (route +:+ rest) = true
                   <-> rest = "" ∨ ∃ rest', rest = "/" +:+ rest').
    { unfold publicRoutes in Hr. rewrite !elem_of_cons, elem_of_nil in Hr.
      destruct Hr as [->|[->|[]]]; unfold isPublicRoute, publicRoutes; cbn [existsb];
        rewrite !orb_true_iff, !startsWith_app.
      - rewrite (eqb_append_empty "/login" rest). split.
        + intros [[->|[r Hr]]|[[H|[r Hr]]|H]]; try done; [by left|].
          right. exists r. by apply (append_cancel "/login").
        + intros [->|[r ->]]; [by left; left|]. left. right. by exists r.
      - rewrite (eqb_append_empty "/api/auth" rest). split.
        + intros [[H|[r Hr]]|[[->|[r Hr]]|H]]; try done; [by left|].
          right. exists r. by apply (append_cancel "/api/auth").
        + intros [->|[r ->]]; [right; left; by left|]. right. left. right. by exists r. }
    unfold middleware. destruct (isPublicRoute (route +:+ rest)); simpl.
    + split; [|done]. split; [intros _; by apply Hpub|done].
    + split; [|done]. split; [done|]. intros H. by apply Hpub in H.
  - intros pathname. unfold middleware.
    destruct (String.eqb pathname "/login") eqn:E.
    + apply String.eqb_eq in E as ->. reflexivity.
    + rewrite andb_false_r. by destruct (isPublicRoute pathname).
Qed.

End MiddlewareFacts.

Section ImportFacts.
Import JsArray Validation Props Api Laws.
Variable Date_parse : string -> option string.
Variable DEFAULT_CATEGORIES : list Category.
Variable DEFAULT_TAGS : list Tag.

Abbreviation record := (Store.user_data DEFAULT_CATEGORIES DEFAULT_TAGS).
Abbreviation handle' := (Api.handle Date_parse DEFAULT_CATEGORIES DEFAULT_TAGS).

Ltac store_ops :=
  unfold Store.getUserTodos, Store.addUserTodo, Store.updateUserTodo,
    Store.deleteUserTodo, Store.reorderUserTodos, Store.getUserCategories,
    Store.addUserCategory, Store.deleteUserCategory, Store.getUserTags,
    Store.addUserTag, Store.deleteUserTag, Store.hasUserMigrated,
    Store.importUserData;
  rewrite ?with_user_eq, ?getUserData_eq; cbn [fst snd];
  rewrite ?user_data_insert, ?insert_insert_eq.

(** The endpoint's side of C4: for a user not migrated yet, a body that is
    not an object is answered with 400 "Invalid data format" and the single
    error of [validateTodoState], and the user's record stays as it was. *)
Lemma migration_rejects_non_object (r : Request) (s : gmap string UserData)
    (u : string) (b : JSON) :
  user_of (session r) = Some u -> call r = POST_data (Some b) ->
  u_migrated (record u s) = false ->
  Json.is_object b = false ->
  fst (handle' r s)
  = Reply 400 (ErrorBody "Invalid data format" (Some ["State must be an object"]))
  ∧ record u (snd (handle' r s)) = record u s.
Proof.
  intros Hu Hc Hm Hb. unfold handle. rewrite Hu, Hc. unfold data_POST.
  store_ops. rewrite Hm.
  rewrite (validateTodoState_not_object Date_parse (now r) b Hb). simpl.
  split; [done|]. by rewrite user_data_insert.
Qed.

(** X22. A migration that is answered with 200 came with a JSON body, for a
    user not migrated yet, and bulk validation gave a payload for it; the
    three counts of the answer are the sizes of that payload, warnings are
    reported exactly when validation left some, and [GET /api/data]
    afterwards answers with the Todos, Categories and Tags of the payload and
    the migrated flag set. *)
Theorem imported_data_is_served (r : Request) (s s' : gmap string UserData)
    (u : string) (body : option JSON) (nt nc ng : nat) (ws : option (list string)) :
  user_of (session r) = Some u -> call r = POST_data body ->
  handle' r s = (Reply 200 (ImportedBody nt nc ng ws), s') ->
  ∃ b payload,
    body = Some b
    ∧ data (validateTodoState Date_parse (now r) b) = Some payload
    ∧ u_migrated (record u s) = false
    ∧ nt = length (st_todos payload)
    ∧ nc = length (st_categories payload)
    ∧ ng = length (st_tags payload)
    ∧ (ws = None <-> errors (validateTodoState Date_parse (now r) b) = [])
    ∧ ∀ r', user_of (session r') = Some u -> call r' = GET_data ->
        handle' r' s'
        = (Reply 200 (DataBody (map Some (st_todos payload)) (st_categories payload)
                               (st_tags payload) true), s').
Proof.
  intros Hu Hc H. unfold handle in H. rewrite Hu, Hc in H. unfold data_POST in H.
  revert H. store_ops.
  destruct (u_migrated (record u s)) eqn:Em; [done|].
  destruct body as [b|]; [|done].
  destruct (data (validateTodoState Date_parse (now r) b)) as [payload|] eqn:Ed; [|done].
  store_ops. unfold Store.User.importUserData. cbn [fst snd u_todos u_categories u_tags].
  rewrite length_map. intros [= <- <- <- <- <-].
  exists b, payload. repeat (split; [done|]).
  split; [by destruct (errors _)|].
  intros r' Hu' Hc'. unfold handle. rewrite Hu', Hc'. unfold data_GET.
  rewrite getUserData_eq, user_data_insert. simpl. by rewrite !insert_insert_eq.
Qed.

End ImportFacts.

(** * The limits as an invariant *)

Section BoundsInvariant.
Import Js Regex JsArray Validation Props Api Laws.

Lemma tags_field_bounded (v : option JSON) :
  length (match is_array v with Some xs => validTagIds xs | None => [] end)
  ≤ MAX_TAGS_PER_TODO
  ∧ Forall valid_id (match is_array v with Some xs => validTagIds xs | None => [] end).
Proof.
  destruct (is_array v); [apply validTagIds_bounded|].
  split; [unfold MAX_TAGS_PER_TODO; simpl; lia|constructor].
Qed.

Lemma validateNewTodoInput_bounded (body : JSON) (title : string)
    (c : option string) (gs : list string) :
  data (validateNewTodoInput body) = Some (title, c, gs) ->
  bounded_text MAX_TITLE_LENGTH title
  ∧ (∀ c0, c = Some c0 -> valid_id c0)
  ∧ length gs ≤ MAX_TAGS_PER_TODO ∧ Forall valid_id gs.
Proof.
  unfold validateNewTodoInput. destruct (negb _); [done|].
  destruct (missing (sanitizeString _ _)) eqn:Em; simpl; [done|].
  intros [= <- <- <-].
  split; [by apply text_field|]. split; [|apply tags_field_bounded].
  intros c0. destruct (Json.get body "categoryId") as [[| |?|s|?|?]|]; try done.
  exact (validateId_valid (Some (JString s)) c0).
Qed.

Lemma validateUpdateTodoInput_bounded (body : JSON) (updates : PartialTodo) :
  data (validateUpdateTodoInput body) = Some updates ->
  (∀ t, p_title updates = Some t -> bounded_text MAX_TITLE_LENGTH t)
  ∧ (∀ c, p_categoryId updates = Some (Some c) -> valid_id c)
  ∧ (∀ gs, p_tags updates = Some gs ->
       length gs ≤ MAX_TAGS_PER_TODO ∧ Forall valid_id gs).
Proof.
  unfold validateUpdateTodoInput. destruct (negb _); [done|].
  assert (Ht : ∀ t, sanitizeString (Json.get body "title") MAX_TITLE_LENGTH = Some t ->
                    missing (Some t) = false -> bounded_text MAX_TITLE_LENGTH t)
    by (intros t; apply sanitizeString_text).
  assert (Hc : ∀ c, validateId (Json.get body "categoryId") = Some c -> valid_id c)
    by (intros c; apply validateId_valid).
  assert (Hg := tags_field_bounded (Json.get body "tags")).
  destruct (Json.has body "title");
    [destruct (missing (sanitizeString _ _)) eqn:Em|];
    (destruct (Json.has body "completed"); [destruct (Json.get body "completed") as [[]|]|]);
    (destruct (Json.has body "categoryId");
     [destruct (Json.get body "categoryId") as [[]|];
      try destruct (validateId (Some _)) eqn:Ev|]);
    (destruct (Json.has body "tags"); [destruct (is_array _)|]);
    simpl; try done; intros [= <-]; simpl;
    (split; [|split]); try done;
    try (intros ? [= <-]; auto);
    try (intros t Et; apply Ht; [done|by rewrite <- Et]).
Qed.

Lemma merge_bounded (old : Todo) (updates : PartialTodo) (now : string) :
  todo_bounded old -> p_id updates = None ->
  (∀ t, p_title updates = Some t -> bounded_text MAX_TITLE_LENGTH t) ->
  (∀ c, p_categoryId updates = Some (Some c) -> valid_id c) ->
  (∀ gs, p_tags updates = Some gs ->
     length gs ≤ MAX_TAGS_PER_TODO ∧ Forall valid_id gs) ->
  todo_bounded (Store.User.merge old updates now).
Proof.
  intros (Hi & Ht & Hc & Hl & Hall) Hid Hut Huc Hug.
  unfold Store.User.merge, todo_bounded. simpl. rewrite Hid. simpl.
  split; [done|]. split; [|split].
  - destruct (p_title updates); simpl; [by apply Hut|done].
  - intros c. destruct (p_categoryId updates) as [[c0|]|]; simpl; try done.
    + intros [= <-]. by apply Huc.
    + apply Hc.
  - destruct (p_tags updates) as [gs|]; simpl; [by apply Hug|done].
Qed.

Lemma clearCategory_bounded (c : string) (t : Todo) :
  todo_bounded t -> todo_bounded (Store.User.clearCategory c t).
Proof.
  intros H. unfold Store.User.clearCategory.
  destruct (categoryId t) as [c0|]; [|done]. destruct (String.eqb c0 c); [|done].
  destruct H as (Hi & Ht & Hc & Hl & Hall). unfold todo_bounded. simpl.
  split; [done|]. split; [done|]. split; [done|]. by split.
Qed.

Lemma removeTag_bounded (g : string) (t : Todo) :
  todo_bounded t -> todo_bounded (Store.User.removeTag g t).
Proof.
  intros (Hi & Ht & Hc & Hl & Hall). unfold Store.User.removeTag, todo_bounded. simpl.
  split; [done|]. split; [done|]. split; [done|]. split.
  - etrans; [apply length_filter|done].
  - apply Forall_forall. intros x Hx. apply list_elem_of_filter in Hx as [_ Hx].
    by apply (proj1 (Forall_forall _ _) Hall).
Qed.

Lemma todos_bounded_typed (ts : list Todo) :
  (∀ t, Some t ∈ map Some ts -> todo_bounded t) <-> Forall todo_bounded ts.
Proof.
  rewrite Forall_forall. split.
  - intros H t Ht. apply H. by apply (list_elem_of_fmap_2 Some).
  - intros H t Ht. apply list_elem_of_fmap in Ht as (t' & [= <-] & Ht'). by apply H.
Qed.

Lemma step_user_bounded (Date_parse : string -> option string)
    (c : Call) (now newId : string) (d : UserData) :
  record_bounded d -> valid_id newId ->
  record_bounded (step_user Date_parse c now newId d).
Proof.
  intros Hd Hn. assert (Hd0 := Hd). destruct Hd0 as (Hts & Hcs & Hgs).
  destruct c as [|body| |body|id0|id0 body|id0| |body|id0| |body|id0];
    simpl; try done.
  - destruct (u_migrated d); [done|]. destruct body as [b|]; [|done].
    destruct (data (validateTodoState Date_parse now b)) as [payload|] eqn:E; [|done].
    apply payload_bounded in E as (H1 & H2 & H3).
    split; [|by split]. simpl. by apply todos_bounded_typed.
  - destruct body as [b|]; [|done].
    assert (Hgoal : record_bounded
              (if is_reorder b then
                 match Json.get b "fromIndex", Json.get b "toIndex" with
                 | Some (JNumber f), Some (JNumber t) =>
                     snd (Store.User.reorderUserTodos f t d)
                 | _, _ => d
                 end
               else
                 match valid (validateNewTodoInput b), data (validateNewTodoInput b) with
                 | true, Some (title, c, gs) =>
                     snd (Store.User.addUserTodo (mkTodo newId title false c gs now now) d)
                 | _, _ => d
                 end)).
    { destruct (is_reorder b).
      - destruct (Json.get b "fromIndex") as [[| |f| | |]|]; try done.
        destruct (Json.get b "toIndex") as [[| |t| | |]|]; try done.
        unfold Store.User.reorderUserTodos, splice_out, splice_in. simpl.
        split; [|by split]. simpl. intros x Hx.
        apply elem_of_app in Hx as [Hx|Hx].
        + apply Hts. eapply list_elem_of_delete_inv, elem_of_sublist;
            [exact Hx|apply sublist_take].
        + apply elem_of_cons in Hx as [Hx|Hx].
          * apply Hts. destruct (u_todos d !! _) as [slot|] eqn:E; [|done].
            simpl in Hx. subst slot. by eapply list_elem_of_lookup_2.
          * apply Hts. eapply list_elem_of_delete_inv, elem_of_sublist;
              [exact Hx|apply sublist_drop].
      - destruct (valid _); [|done].
        destruct (data (validateNewTodoInput b)) as [[[title c] gs]|] eqn:E; [|done].
        apply validateNewTodoInput_bounded in E as (H1 & H2 & H3 & H4).
        split; [|by split]. simpl. intros x Hx.
        apply elem_of_cons in Hx as [[= ->]|Hx]; [|by apply Hts].
        unfold todo_bounded. simpl. split; [done|]. split; [done|]. by split. }
    by destruct b.
  - destruct body as [b|]; [|done].
    destruct (valid _); [|done].
    destruct (data (validateUpdateTodoInput b)) as [updates|] eqn:E; [|done].
    destruct (validateUpdateTodoInput_fields _ _ E) as (Hid & _).
    apply validateUpdateTodoInput_bounded in E as (H1 & H2 & H3).
    unfold Store.User.updateUserTodo.
    destruct (findIndex _ _) as [[i|]|]; try done.
    destruct (u_todos d !! i) as [[old|]|] eqn:Ei; simpl; try done.
    split; [|by split]. simpl. intros x Hx.
    apply list_elem_of_lookup in Hx as [j Hj].
    apply list_lookup_insert_Some in Hj as [(-> & [= <-] & _)|[_ Hj]].
    + apply merge_bounded; try done. apply Hts. by eapply list_elem_of_lookup_2.
    + apply Hts. by eapply list_elem_of_lookup_2.
  - unfold Store.User.deleteUserTodo.
    destruct (elements (u_todos d)) as [ts|] eqn:E; simpl; [|done].
    apply elements_Returned in E. rewrite E in Hts. apply todos_bounded_typed in Hts.
    split; [|by split]. simpl. apply todos_bounded_typed.
    apply Forall_forall. intros t Ht. apply list_elem_of_filter in Ht as [_ Ht].
    by apply (proj1 (Forall_forall _ _) Hts).
  - destruct body as [b|]; [|done]. destruct (valid _) eqn:Ev; [|done].
    destruct (data (validateNewCategoryInput b)) as [[[name icon] color]|] eqn:E; [|done].
    split; [done|]. split; [|done]. simpl. apply Forall_app. split; [done|].
    apply Forall_singleton.
    revert E. unfold validateNewCategoryInput. destruct (negb _); [done|].
    destruct (missing (sanitizeString (Json.get b "name") _)) eqn:E1,
      (missing (sanitizeString (Json.get b "icon") _)) eqn:E2,
      (missing (validateColor _)) eqn:E3; simpl; try done.
    intros [= <- <- <-]. unfold category_bounded. simpl.
    auto using text_field, color_field.
  - unfold Store.User.deleteUserCategory. simpl.
    assert (Hcs' : Forall category_bounded
                     (filter (fun c => cat_id c ≠ id0) (u_categories d))).
    { apply Forall_forall. intros c Hc. apply list_elem_of_filter in Hc as [_ Hc].
      by apply (proj1 (Forall_forall _ _) Hcs). }
    destruct (elements (u_todos d)) as [ts|] eqn:E; simpl; [|by split].
    apply elements_Returned in E. rewrite E in Hts. apply todos_bounded_typed in Hts.
    split; [|by split]. simpl. apply todos_bounded_typed, Forall_fmap.
    eapply Forall_impl; [exact Hts|]. intros t. apply clearCategory_bounded.
  - destruct body as [b|]; [|done]. destruct (valid _) eqn:Ev; [|done].
    destruct (data (validateNewTagInput b)) as [[name color]|] eqn:E; [|done].
    split; [done|]. split; [done|]. simpl. apply Forall_app. split; [done|].
    apply Forall_singleton.
    revert E. unfold validateNewTagInput. destruct (negb _); [done|].
    destruct (missing (sanitizeString (Json.get b "name") _)) eqn:E1,
      (missing (validateColor _)) eqn:E3; simpl; try done.
    intros [= <- <-]. unfold tag_bounded. simpl.
    auto using text_field, color_field.
  - unfold Store.User.deleteUserTag. simpl.
    assert (Hgs' : Forall tag_bounded
                     (filter (fun g => tag_id g ≠ id0) (u_tags d))).
    { apply Forall_forall. intros g Hg. apply list_elem_of_filter in Hg as [_ Hg].
      by apply (proj1 (Forall_forall _ _) Hgs). }
    destruct (elements (u_todos d)) as [ts|] eqn:E; simpl; [|by split].
    apply elements_Returned in E. rewrite E in Hts. apply todos_bounded_typed in Hts.
    split; [|by split]. simpl. apply todos_bounded_typed, Forall_fmap.
    eapply Forall_impl; [exact Hts|]. intros t. apply removeTag_bounded.
Qed.

Variable Date_parse : string -> option string.
Variable DEFAULT_CATEGORIES : list Category.
Variable DEFAULT_TAGS : list Tag.

(** X23. The limits of X5 and X6 are an invariant of the endpoints: if every
    Todo, Category and Tag of a user is within them and every id generated
    along the way is 1 to 100 safe characters, then after any sequence of
    requests, by this user or by others, every Todo, Category and Tag of the
    user is within them.  (The sizes of the three collections are not limited
    this way: only the migration caps them.) *)
Theorem bounds_preserved (rs : list Request) (s : gmap string UserData) (u : string) :
  record_bounded (Store.user_data DEFAULT_CATEGORIES DEFAULT_TAGS u s) ->
  Forall (fun r => valid_id (newId r)) rs ->
  record_bounded
    (Store.user_data DEFAULT_CATEGORIES DEFAULT_TAGS u
       (run Date_parse DEFAULT_CATEGORIES DEFAULT_TAGS rs s)).
Proof.
  revert s. induction rs as [|r rs IH]; intros s Hd Hn; [done|].
  apply Forall_cons in Hn as [Hr Hn]. simpl. apply IH; [|done].
  rewrite handle_record. destruct (user_of (session r)) as [v|]; [|done].
  case_decide; [subst v|done]. by apply step_user_bounded.
Qed.

End BoundsInvariant.

(** * The further facts on sample data *)

Section Scenarios.
Import Js Regex Validation Props Api Samples Laws Cases.

Ltac member := repeat first [apply list_elem_of_here | apply list_elem_of_further].

Ltac absent H :=
  repeat (apply elem_of_cons in H as [H|H]; [discriminate H|]);
  by apply elem_of_nil in H.

Abbreviation serve := (handle no_dates [] []).
Abbreviation record := (Store.user_data [] []).

(** X1 on an id with blanks around it. *)
Lemma validateId_exact_witness :
  valid_id "c1" ∧ validateId (Some (JString "  c1 ")) = Some "c1".
Proof.
  assert (Hv : valid_id "c1")
    by (split; [split; vm_compute; lia|vm_compute; reflexivity]).
  split; [exact Hv|].
  apply (proj2 (validateId_exact (Some (JString "  c1 ")) "c1")).
  exists "  c1 ". split; [reflexivity|]. split; [vm_compute; reflexivity|exact Hv].
Defined.

(** X2 on an id with blanks around it. *)
Lemma validateId_idempotent_witness :
  validateId (Some (JString "  c1 ")) = Some "c1"
  ∧ validateId (Some (JString "c1")) = Some "c1".
Proof.
  assert (H : validateId (Some (JString "  c1 ")) = Some "c1") by (vm_compute; reflexivity).
  split; [exact H|]. exact (validateId_idempotent _ _ H).
Defined.

(** X3 on a version-4 UUID. *)
Lemma uuid_check_redundant_witness :
  isValidUUID sample_uuid = true
  ∧ strlen sample_uuid = 36 ∧ test SAFE_ID_REGEX sample_uuid = true.
Proof.
  assert (H : isValidUUID sample_uuid = true) by (vm_compute; reflexivity).
  split; [exact H|]. exact (proj1 (uuid_check_redundant sample_uuid) H).
Defined.

(** X4 on a colour with blanks around it. *)
Lemma validateColor_exact_witness :
  hex_color "#6366f1" ∧ validateColor (Some (JString " #6366f1 ")) = Some "#6366f1".
Proof.
  assert (Hh : hex_color "#6366f1").
  { eexists. split; [vm_compute; reflexivity|]. split; vm_compute; reflexivity. }
  split; [exact Hh|].
  apply (proj2 (validateColor_exact (Some (JString " #6366f1 ")) "#6366f1")).
  exists " #6366f1 ". split; [reflexivity|]. split; [vm_compute; reflexivity|exact Hh].
Defined.

(** X5 on two items of the sample state: the first is accepted, the second
    (a blank title) is rejected. *)
Lemma validateTodo_bounds_witness :
  valid (validateTodo no_dates clock item_a) = true
  ∧ (∃ t, data (validateTodo no_dates clock item_a) = Some t ∧ todo_bounded t)
  ∧ valid (validateTodo no_dates clock item_b) = false
  ∧ errors (validateTodo no_dates clock item_b) ≠ [].
Proof.
  assert (Ha : valid (validateTodo no_dates clock item_a) = true)
    by (vm_compute; reflexivity).
  assert (Hb : valid (validateTodo no_dates clock item_b) = false)
    by (vm_compute; reflexivity).
  split; [exact Ha|]. split; [|split; [exact Hb|]].
  - exact (proj2 (proj1 (validateTodo_bounds no_dates clock item_a) Ha)).
  - exact (proj2 (proj2 (validateTodo_bounds no_dates clock item_b) Hb)).
Defined.

(** X6 on a Category and a Tag; each is rejected by the validator of the
    other kind or accepted without its icon. *)
Lemma validateCategory_validateTag_bounds_witness :
  valid (validateCategory category_json) = true
  ∧ (∃ c, data (validateCategory category_json) = Some c ∧ category_bounded c)
  ∧ valid (validateCategory tag_json) = false
  ∧ data (validateCategory tag_json) = None.
Proof.
  assert (Ha : valid (validateCategory category_json) = true)
    by (vm_compute; reflexivity).
  assert (Hb : valid (validateCategory tag_json) = false)
    by (vm_compute; reflexivity).
  split; [exact Ha|]. split; [|split; [exact Hb|]].
  - exact (proj2 (proj1 (validateCategory_validateTag_bounds category_json) Ha)).
  - exact (proj1 (proj1 (proj2 (validateCategory_validateTag_bounds tag_json)) Hb)).
Defined.

(** X7 on the sample state. *)
Lemma validateTodoState_caps_witness :
  data (validateTodoState no_dates clock local_state) = Some local_payload
  ∧ length (st_todos local_payload) ≤ MAX_TODOS
  ∧ Forall todo_bounded (st_todos local_payload)
  ∧ Forall tag_bounded (st_tags local_payload).
Proof.
  assert (H : data (validateTodoState no_dates clock local_state) = Some local_payload)
    by (vm_compute; reflexivity).
  split; [exact H|].
  destruct (validateTodoState_caps no_dates clock local_state local_payload H)
    as (H1 & _ & _ & H2 & _ & H3).
  split; [exact H1|]. split; [exact H2|exact H3].
Defined.

(** X8 on an update with and without an [id] and a [createdAt]. *)
Lemma unknown_fields_ignored_witness :
  same_on ["title"; "completed"; "categoryId"; "tags"] retitle retitle_padded
  ∧ validateUpdateTodoInput retitle = validateUpdateTodoInput retitle_padded.
Proof.
  assert (H : same_on ["title"; "completed"; "categoryId"; "tags"] retitle retitle_padded).
  { split; [reflexivity|]. intros k Hk.
    repeat (apply elem_of_cons in Hk as [->|Hk]; [reflexivity|]).
    by apply elem_of_nil in Hk. }
  split; [exact H|]. exact (proj1 (unknown_fields_ignored retitle retitle_padded) H).
Defined.

(** X9 on a [categoryId] with blanks in it. *)
Lemma malformed_category_id_witness :
  validateId (Some (JString "not an id")) = None
  ∧ valid (validateUpdateTodoInput in_bad_category) = false
  ∧ valid (validateNewTodoInput in_bad_category) = true
  ∧ data (validateNewTodoInput in_bad_category) = Some ("hi", None, []).
Proof.
  assert (H : validateId (Some (JString "not an id")) = None) by (vm_compute; reflexivity).
  destruct (malformed_category_id no_dates clock in_bad_category (JString "not an id"))
    as ((Hu & _) & _ & Hn & _); [reflexivity|reflexivity|discriminate|exact H|].
  split; [exact H|]. split; [exact Hu|]. split; [rewrite Hn|]; vm_compute; reflexivity.
Defined.

(** X10: two requests of user [u] and the entry of user [v]. *)
Lemma other_users_untouched_witness :
  Forall (fun r => user_of (session r) ≠ Some "v") [create_in "c1"; rename_request]
  ∧ run no_dates [] [] [create_in "c1"; rename_request] store3 !! "v" = store3 !! "v".
Proof.
  assert (H : Forall (fun r => user_of (session r) ≠ Some "v")
                [create_in "c1"; rename_request]).
  { repeat (apply Forall_cons; split; [intros E; vm_compute in E; discriminate E|]).
    apply Forall_nil. exact I. }
  split; [exact H|]. exact (other_users_untouched no_dates [] [] _ store3 "v" H).
Defined.

(** X11 on an update with a blank title. *)
Lemma failed_request_no_effect_witness :
  fst (serve blank_title store3)
  = Reply 400 (ErrorBody "Validation failed" (Some ["Title must be a non-empty string"]))
  ∧ record "u" (snd (serve blank_title store3)) = record "u" store3.
Proof.
  assert (H : fst (serve blank_title store3)
              = Reply 400 (ErrorBody "Validation failed" (Some ["Title must be a non-empty string"])))
    by (vm_compute; reflexivity).
  split; [exact H|].
  apply (failed_request_no_effect no_dates [] [] blank_title store3 "u").
  - intros i E. discriminate E.
  - intros i E. discriminate E.
  - rewrite H. simpl. lia.
Defined.

(** X12 on the sample store. *)
Lemma created_todo_is_found_witness :
  let s' := snd (serve (create_in "c1") store3) in
  let todo := mkTodo "id-1" "hi" false (Some "c1") [] clock clock in
  serve (create_in "c1") store3 = (Reply 201 (TodoBody todo), s')
  ∧ u_todos (record "u" s') = Some todo :: u_todos (record "u" store3)
  ∧ serve (by_u "id-2" (GET_todo "id-1")) s' = (Reply 200 (TodoBody todo), s').
Proof.
  intros s' todo.
  assert (H : serve (create_in "c1") store3 = (Reply 201 (TodoBody todo), s'))
    by (vm_compute; reflexivity).
  split; [exact H|].
  destruct (created_todo_is_found no_dates [] [] (create_in "c1") store3 s' "u" _ todo
              (conj eq_refl eq_refl) H) as (_ & H1 & H2 & _).
  split; [exact H1|]. apply H2. split; reflexivity.
Defined.

(** X13 on the sample store: deleting Todo [B], and then once more. *)
Lemma deleted_todo_is_gone_witness :
  let s' := <["u" := typed [todoA; todoC] [work] [urgent; later] false]> store3 in
  record "u" store3 = typed [todoA; todoB; todoC] [work] [urgent; later] false
  ∧ serve (by_u "id-1" (DELETE_todo "B")) store3 = (Reply 200 SuccessBody, s')
  ∧ serve (by_u "id-2" (DELETE_todo "B")) s'
    = (Reply 404 (ErrorBody "Todo not found" None), s').
Proof.
  intros s'. split; [reflexivity|].
  destruct (deleted_todo_is_gone no_dates [] [] (by_u "id-1" (DELETE_todo "B")) store3
              "u" "B" [todoA; todoB; todoC] [work] [urgent; later] false
              eq_refl (conj eq_refl eq_refl)) as (H1 & _ & H3).
  split; [exact H1|]. apply (H3 (by_u "id-2" (DELETE_todo "B"))). split; reflexivity.
Defined.

(** X14 on the sample store: the first Todo moves to the end. *)
Lemma reorder_in_range_witness :
  let s' := snd (Store.reorderUserTodos [] [] "u" (Fin 0) (Fin 2) store3) in
  u_todos (record "u" s') !! 2 = Some (Some todoA)
  ∧ u_todos (record "u" s') ≡ₚ u_todos (record "u" store3)
  ∧ record "u" (snd (Store.reorderUserTodos [] [] "u" (Fin 2) (Fin 0) s'))
    = record "u" store3.
Proof.
  intros s'.
  destruct (reorder_in_range [] [] "u" 0 2 store3) as (_ & H1 & _ & H2 & _ & H3).
  - vm_compute. lia.
  - vm_compute. lia.
  - split; [exact H1|]. split; [exact H2|exact H3].
Defined.

(** X15 on the sample store. *)
Lemma category_added_then_deleted_witness :
  let s1 := snd (serve new_category store3) in
  let home := mkCategory "id-1" "Home" "House" "#123456" in
  serve new_category store3 = (Reply 201 (CategoryBody home), s1)
  ∧ serve (by_u "id-2" (DELETE_category "id-1")) s1
    = (Reply 200 SuccessBody,
       <["u" := typed [todoA; todoB; todoC] [work] [urgent; later] false]> store3).
Proof.
  intros s1 home.
  assert (H : serve new_category store3 = (Reply 201 (CategoryBody home), s1))
    by (vm_compute; reflexivity).
  split; [exact H|].
  destruct (category_added_then_deleted no_dates [] [] new_category store3 s1 "u" _ home
              [todoA; todoB; todoC] [work] [urgent; later] false
              eq_refl (conj eq_refl eq_refl) H) as (_ & _ & Hdel).
  - intros E. apply list_elem_of_singleton in E. discriminate E.
  - intros t Ht.
    repeat (apply elem_of_cons in Ht as [->|Ht]; [intros E; discriminate E|]).
    by apply elem_of_nil in Ht.
  - apply (Hdel (by_u "id-2" (DELETE_category "id-1"))). split; reflexivity.
Defined.

(** X16 on a sequence with [undefined] in the middle. *)
Lemma undefined_slot_breaks_deletes_witness :
  None ∈ u_todos (record "u" store_holed)
  ∧ fst (serve (by_u "id-1" (DELETE_todo "A")) store_holed) = Uncaught
  ∧ serve (by_u "id-1" (DELETE_category "c1")) store_holed
    = (Uncaught,
       <["u" := mkUserData [Some todoA; None; Some todoB] [] [urgent; later] false]>
         store_holed).
Proof.
  assert (H : None ∈ u_todos (record "u" store_holed))
    by (apply list_elem_of_further, list_elem_of_here).
  split; [exact H|].
  destruct (undefined_slot_breaks_deletes no_dates [] [] store_holed "u" H)
    as (H1 & H2 & _).
  split.
  - rewrite (H1 (by_u "id-1" (DELETE_todo "A")) "A"); [reflexivity|split; reflexivity].
  - apply (H2 (by_u "id-1" (DELETE_category "c1")) "c1"). split; reflexivity.
Defined.

(** X17 on the sample store: a Todo is created under a new id. *)
Lemma distinct_ids_preserved_witness :
  NoDup (todo_ids (record "u" store3))
  ∧ NoDup (todo_ids (record "u" (snd (serve (create_in "c1") store3)))).
Proof.
  assert (H : NoDup (todo_ids (record "u" store3))).
  { change (todo_ids (record "u" store3)) with ["A"; "B"; "C"].
    repeat (apply NoDup_cons; split; [intros E; absent E|]). apply NoDup_nil. exact I. }
  split; [exact H|].
  apply (distinct_ids_preserved no_dates [] [] (create_in "c1") store3 "u" H).
  intros _ _ E. change (todo_ids (record "u" store3)) with ["A"; "B"; "C"] in E.
  absent E.
Defined.

(** X18 on the sample store: the Category [c1] is deleted, and then once
    more (404). *)
Lemma optimistic_state_matches_server_witness :
  let s1 := snd (serve (by_u "id-1" (DELETE_category "c1")) store3) in
  fst (serve (by_u "id-1" (DELETE_category "c1")) store3) = Reply 200 SuccessBody
  ∧ Client.deleteCategory "c1" (mirror (record "u" store3))
    = Returned (mirror (record "u" s1))
  ∧ fst (serve (by_u "id-2" (DELETE_category "c1")) s1)
    = Reply 404 (ErrorBody "Category not found" None)
  ∧ Client.deleteCategory "c1" (mirror (record "u" s1))
    = Returned (mirror (record "u" (snd (serve (by_u "id-2" (DELETE_category "c1")) s1)))).
Proof.
  intros s1.
  assert (H1 : fst (serve (by_u "id-1" (DELETE_category "c1")) store3)
               = Reply 200 SuccessBody) by (vm_compute; reflexivity).
  assert (H2 : fst (serve (by_u "id-2" (DELETE_category "c1")) s1)
               = Reply 404 (ErrorBody "Category not found" None))
    by (vm_compute; reflexivity).
  split; [exact H1|]. split; [|split; [exact H2|]].
  - refine (proj2 (optimistic_state_matches_server no_dates [] []
                     (by_u "id-1" (DELETE_category "c1")) store3 "u" eq_refl _)).
    rewrite H1. discriminate.
  - refine (proj2 (optimistic_state_matches_server no_dates [] []
                     (by_u "id-2" (DELETE_category "c1")) s1 "u" eq_refl _)).
    rewrite H2. discriminate.
Defined.

(** X19 on the sample store: a Todo is created. *)
Lemma created_entity_reaches_client_witness :
  Client.ok (fst (serve (create_in "c1") store3)) = true
  ∧ ∃ newTodo,
      fst (serve (create_in "c1") store3) = Reply 201 (TodoBody newTodo)
      ∧ Client.addTodo newTodo (mirror (record "u" store3))
        = mirror (record "u" (snd (serve (create_in "c1") store3))).
Proof.
  assert (H : Client.ok (fst (serve (create_in "c1") store3)) = true)
    by (vm_compute; reflexivity).
  split; [exact H|].
  exact (created_entity_reaches_client no_dates [] [] (create_in "c1") store3 "u"
           eq_refl H eq_refl).
Defined.

(** X20 on the sample store: Todo [B] is renamed and completed. *)
Lemma confirmed_update_matches_server_witness :
  Client.ok (fst (serve rename_request store3)) = true
  ∧ ∃ updatedTodo optimistic,
      fst (serve rename_request store3) = Reply 200 (TodoBody updatedTodo)
      ∧ Client.updateTodo_optimistic "B" rename_B "2024-05-01T09:59:59.000Z"
          (mirror (record "u" store3)) = Returned optimistic
      ∧ Client.updateTodo_confirmed "B" updatedTodo optimistic
        = Returned (mirror (record "u" (snd (serve rename_request store3)))).
Proof.
  assert (H : Client.ok (fst (serve rename_request store3)) = true)
    by (vm_compute; reflexivity).
  split; [exact H|].
  apply (confirmed_update_matches_server no_dates [] [] rename_request store3 "u" "B" _
           rename_B "2024-05-01T09:59:59.000Z" [todoA; todoB; todoC] [work]
           [urgent; later] false eq_refl eq_refl eq_refl); [|reflexivity|exact H].
  change (map id [todoA; todoB; todoC]) with ["A"; "B"; "C"].
  repeat (apply NoDup_cons; split; [intros E; absent E|]). apply NoDup_nil. exact I.
Defined.

(** X21 on three paths: an endpoint, the login page and a path that only
    begins like it. *)
Lemma middleware_login_wall_witness :
  Middleware.middleware false "/api/todos/abc"
  = Middleware.Redirect "/login" (Some "/api/todos/abc")
  ∧ Middleware.middleware false "/login" = Middleware.Next
  ∧ Middleware.middleware false "/loginx"
    = Middleware.Redirect "/login" (Some "/loginx").
Proof.
  assert (Hin : "/login" ∈ Middleware.publicRoutes) by apply list_elem_of_here.
  split; [|split].
  - apply (proj1 (middleware_login_wall "/abc") "/api/todos").
    apply list_elem_of_further, list_elem_of_here.
  - apply (proj1 (proj1 (proj2 (middleware_login_wall "")) "/login" Hin)). by left.
  - apply (proj2 (proj1 (proj2 (middleware_login_wall "x")) "/login" Hin)).
    intros E. vm_compute in E. discriminate E.
Defined.

(** X22 on the sample state. *)
Lemma imported_data_is_served_witness :
  let s' := snd (serve (migrate local_state) ∅) in
  serve (migrate local_state) ∅
  = (Reply 200 (ImportedBody 2 0 1
                  (Some ["Todo at index 1: Invalid or missing todo title"])), s')
  ∧ serve (by_u "id-2" GET_data) s'
    = (Reply 200 (DataBody (map Some (st_todos local_payload)) [] [urgent] true), s').
Proof.
  intros s'.
  assert (H : serve (migrate local_state) ∅
              = (Reply 200 (ImportedBody 2 0 1
                   (Some ["Todo at index 1: Invalid or missing todo title"])), s'))
    by (vm_compute; reflexivity).
  split; [exact H|].
  destruct (imported_data_is_served no_dates [] [] (migrate local_state) ∅ s' "u" _
              2 0 1 _ eq_refl eq_refl H)
    as (b & payload & Hb & Hd & _ & _ & _ & _ & _ & Hget).
  injection Hb as <-.
  assert (Hp : data (validateTodoState no_dates clock local_state) = Some local_payload)
    by (vm_compute; reflexivity).
  change (now (migrate local_state)) with clock in Hd.
  rewrite Hp in Hd. injection Hd as <-.
  apply (Hget (by_u "id-2" GET_data)); reflexivity.
Defined.

(** X23 on the sample store: a Todo is created under the id [id-1], then
    Todo [B] is renamed. *)
Lemma bounds_preserved_witness :
  record_bounded (record "u" store3)
  ∧ valid_id "id-1"
  ∧ record_bounded (record "u" (run no_dates [] [] [create_in "c1"; rename_request]
                                    store3)).
Proof.
  assert (Hid : ∀ s, 1 ≤ strlen s -> strlen s ≤ MAX_ID_LENGTH ->
                     forallb safe_id_char (chars s) = true -> valid_id s)
    by (intros s ? ? ?; by repeat split).
  assert (Htext : ∀ n s, 1 ≤ strlen s -> strlen s ≤ n -> bounded_text n s)
    by (intros n s ? ?; by split).
  assert (Hhex : ∀ s hs, chars s = "#"%char :: hs -> length hs = 6 ->
                         forallb hex_digit hs = true -> hex_color s)
    by (intros s hs ? ? ?; by exists hs).
  assert (H : record_bounded (record "u" store3)).
  { change (record "u" store3)
      with (typed [todoA; todoB; todoC] [work] [urgent; later] false).
    split; [|split].
    - apply todos_bounded_typed.
      repeat (apply Forall_cons; split); try (apply Forall_nil; exact I).
      all: split; [apply Hid; vm_compute; (lia || reflexivity)|].
      all: split; [apply Htext; vm_compute; lia|].
      all: split; [intros c [= <-]; apply Hid; vm_compute; (lia || reflexivity)|].
      all: split; [vm_compute; lia|].
      all: repeat (apply Forall_cons; split); try (apply Forall_nil; exact I).
      all: apply Hid; vm_compute; (lia || reflexivity).
    - apply Forall_cons; split; [|apply Forall_nil; exact I].
      split; [apply Hid; vm_compute; (lia || reflexivity)|].
      split; [apply Htext; vm_compute; lia|].
      split; [apply Htext; vm_compute; lia|].
      eapply Hhex; vm_compute; reflexivity.
    - repeat (apply Forall_cons; split); try (apply Forall_nil; exact I).
      all: split; [apply Hid; vm_compute; (lia || reflexivity)|].
      all: split; [apply Htext; vm_compute; lia|].
      all: eapply Hhex; vm_compute; reflexivity. }
  assert (Hn : valid_id "id-1") by (apply Hid; vm_compute; (lia || reflexivity)).
  split; [exact H|]. split; [exact Hn|].
  apply (bounds_preserved no_dates [] [] [create_in "c1"; rename_request] store3 "u" H).
  repeat (apply Forall_cons; split; [exact Hn|]). apply Forall_nil. exact I.
Defined.

End Scenarios.
